(** * keai: a shallow embedding of the tree-walking evaluator

    The development follows the Go sources of the interpreter: the
    evaluator ([evalContext] and its helpers), string interpolation
    ([Interpolate]), module lookup ([FindModule], [EvalModule]) and the
    unscoped built-ins ([printFn], [errorFn], [panicFn]).

    Conventions of the embedding.
    - A Go [int64] is a [Z] kept in range by [wrap64]; a Go [string] is a
      [string] of bytes; a [float64] is a primitive binary64 [float].
    - An [OBJ] (the Go interface [object.Object]) may be [nil]: it is an
      [option object.Object].
    - Environments are shared mutable records reached through pointers:
      the state holds a heap of frames and an environment is an index in it.
    - The evaluator runs in a monad over the interpreter state whose
      results distinguish a normal return, [os.Exit], a Go run-time panic
      and exhaustion of the evaluation fuel.
    - [TRUE], [FALSE] and [NULL] are the only Boolean and Null objects the
      evaluator builds, so comparing with these singletons is comparing
      values. *)

From Stdlib Require Import ZArith String Ascii List Lia Bool.
From Stdlib Require Import Floats.PrimFloat Floats.SpecFloat Floats.FloatOps.
From stdpp Require Import gmap strings list.

Set Warnings "-register-all".
Local Open Scope Z_scope.

(** ** Machine integers *)

Definition wrap64 (z : Z) : Z := (z + 2 ^ 63) mod 2 ^ 64 - 2 ^ 63.
Definition uint64 (z : Z) : Z := z mod 2 ^ 64.
Definition MinInt64 : Z := - 2 ^ 63.
Definition MaxInt64 : Z := 2 ^ 63 - 1.
Definition int64_range (z : Z) : Prop := MinInt64 <= z <= MaxInt64.

(** ** Strings as byte sequences, runes *)

Definition byteZ (c : ascii) : Z := Z.of_N (N_of_ascii c).
Definition asciiZ (z : Z) : ascii := ascii_of_N (Z.to_N z).
Definition bytesOf (s : string) : list Z := map byteZ (list_ascii_of_string s).
Definition ofBytes (l : list Z) : string := string_of_list_ascii (map asciiZ l).

(** [len(s)] of a Go string: its length in bytes. *)
Definition len (s : string) : Z := Z.of_nat (String.length s).

Definition RuneError : Z := 65533.
Definition between (lo hi b : Z) : bool := (lo <=? b) && (b <=? hi).
Definition cont (b : Z) : Z := Z.land b 63.

(** [[]rune(s)]: UTF-8 decoding as Go does it, an invalid byte yielding
    [RuneError] and consuming one byte. *)
Fixpoint toRunes (s : list Z) : list Z :=
  match s with
  | [] => []
  | b0 :: t =>
      if b0 <? 128 then b0 :: toRunes t
      else if between 194 223 b0 then
        match t with
        | b1 :: t1 =>
            if between 128 191 b1
            then (Z.land b0 31 * 64 + cont b1) :: toRunes t1
            else RuneError :: toRunes t
        | [] => RuneError :: toRunes t
        end
      else if between 224 239 b0 then
        match t with
        | b1 :: b2 :: t2 =>
            let lo := if b0 =? 224 then 160 else 128 in
            let hi := if b0 =? 237 then 159 else 191 in
            if between lo hi b1 && between 128 191 b2
            then (Z.land b0 15 * 4096 + cont b1 * 64 + cont b2) :: toRunes t2
            else RuneError :: toRunes t
        | _ => RuneError :: toRunes t
        end
      else if between 240 244 b0 then
        match t with
        | b1 :: b2 :: b3 :: t3 =>
            let lo := if b0 =? 240 then 144 else 128 in
            let hi := if b0 =? 244 then 143 else 191 in
            if between lo hi b1 && between 128 191 b2 && between 128 191 b3
            then (Z.land b0 7 * 262144 + cont b1 * 4096 + cont b2 * 64 + cont b3)
                   :: toRunes t3
            else RuneError :: toRunes t
        | _ => RuneError :: toRunes t
        end
      else RuneError :: toRunes t
  end.

(** [string(r)] for a rune [r]: its UTF-8 encoding, [RuneError] for a
    surrogate or a value out of range. *)
Definition encodeRune (r : Z) : list Z :=
  let r := if (r <? 0) || (1114111 <? r) || between 55296 57343 r
           then RuneError else r in
  if r <? 128 then [r]
  else if r <? 2048 then [192 + r / 64; 128 + r mod 64]
  else if r <? 65536 then [224 + r / 4096; 128 + (r / 64) mod 64; 128 + r mod 64]
  else [240 + r / 262144; 128 + (r / 4096) mod 64; 128 + (r / 64) mod 64;
        128 + r mod 64].

Definition runesOf (s : string) : list Z := toRunes (bytesOf s).
Definition stringOfRune (r : Z) : string := ofBytes (encodeRune r).

(** [strings.ToLower] on the ASCII letters. *)
Definition lowerAscii (c : ascii) : ascii :=
  let b := byteZ c in if between 65 90 b then asciiZ (b + 32) else c.
Definition ToLower (s : string) : string :=
  string_of_list_ascii (map lowerAscii (list_ascii_of_string s)).

(** [strings.Contains(s, sub)] and [strings.HasPrefix]. *)
Fixpoint HasPrefix (s p : string) : bool :=
  match p, s with
  | EmptyString, _ => true
  | String.String a p', String.String b s' => Ascii.eqb a b && HasPrefix s' p'
  | String.String _ _, EmptyString => false
  end.
Fixpoint Contains (s sub : string) : bool :=
  HasPrefix s sub ||
  match s with
  | EmptyString => false
  | String.String _ s' => Contains s' sub
  end.

(** Decimal rendering of an integer, as [%d] prints it. *)
Fixpoint digits (fuel : nat) (n : Z) (acc : string) : string :=
  match fuel with
  | O => acc
  | S f =>
      let acc' := String.String (asciiZ (48 + n mod 10)) acc in
      if n / 10 =? 0 then acc' else digits f (n / 10) acc'
  end.
Definition itoa (z : Z) : string :=
  if z <? 0 then String.append "-" (digits 20 (- z) "")
  else digits 20 z "".

Definition joinWith (sep : string) (l : list string) : string :=
  match l with
  | [] => ""
  | x :: r => fold_left (fun acc y => acc +:+ sep +:+ y) r x
  end.

(** ** The abstract syntax tree (package [ast])

    Only the fields the evaluator reads are kept.  [PostfixExpression]
    carries the literal of its token, which is the operand's name;
    [SpreadLiteral] carries the token literal of its operand.  A Go map in
    a node ([Defaults], [Pairs]) is the list of its entries in the order
    in which one run ranges over it. *)

Module ast.

Inductive Node : Type :=
| Program (Statements : list Node)
| ExpressionStatement (Expression : Node)
| IntegerLiteral (Value : Z)
| FloatLiteral (Value : float)
| Boolean (Value : bool)
| NullLiteral
| PrefixExpression (Operator : string) (Right : Node)
| PostfixExpression (TokenLiteral : string) (Operator : string)
| InfixExpression (Left : Node) (Operator : string) (Right : Node)
| BlockStatement (Statements : list Node)
| IfExpression (Condition Consequence : Node) (Alternative : option Node)
| ImportExpression (Name : Node)
| ForLoopExpression (Condition Consequence : Node)
| ForeachStatement (Ident Index : string) (Value Body : Node)
| ReturnStatement (ReturnValue : Node)
| MutableStatement (Name : string) (Value : Node)
| LetStatement (Name : string) (Value : Node)
| Identifier (Value : string)
| FunctionLiteral (Parameters : list string) (Defaults : list (string * Node))
    (Body : Node) (DocString : string)
| CallExpression (Function : Node) (Arguments : list Node)
| ArrayLiteral (Elements : list Node)
| StringLiteral (Value : string)
| SpreadLiteral (Right : string)
| CurrentArgsLiteral
| IndexExpression (Left Index : Node)
| AssignStatement (Name : string) (Operator : string) (Value : Node)
| HashLiteral (Pairs : list (Node * Node))
| Other (kind : string).

End ast.

(** ** Values (package [object]) *)

(** A pointer to an environment: the index of its frame in the heap. *)
Abbreviation EnvPtr := nat.

Module object.

Inductive ObjectType : Type :=
| INTEGER_OBJ | FLOAT_OBJ | BOOLEAN_OBJ | NULL_OBJ | STRING_OBJ | ARRAY_OBJ
| HASH_OBJ | FUNCTION_OBJ | BUILTIN_OBJ | MODULE_OBJ | ERROR_OBJ
| RETURN_VALUE_OBJ | FILE_OBJ.

Definition ObjectType_eqb (a b : ObjectType) : bool :=
  match a, b with
  | INTEGER_OBJ, INTEGER_OBJ | FLOAT_OBJ, FLOAT_OBJ | BOOLEAN_OBJ, BOOLEAN_OBJ
  | NULL_OBJ, NULL_OBJ | STRING_OBJ, STRING_OBJ | ARRAY_OBJ, ARRAY_OBJ
  | HASH_OBJ, HASH_OBJ | FUNCTION_OBJ, FUNCTION_OBJ | BUILTIN_OBJ, BUILTIN_OBJ
  | MODULE_OBJ, MODULE_OBJ | ERROR_OBJ, ERROR_OBJ
  | RETURN_VALUE_OBJ, RETURN_VALUE_OBJ | FILE_OBJ, FILE_OBJ => true
  | _, _ => false
  end.

(** The key under which a hashable value is stored in a Hash.  The Go
    code hashes the value to 64 bits; the embedding keeps the value. *)
Inductive HashKey : Type :=
| KeyNull
| KeyBoolean (b : bool)
| KeyInteger (z : Z)
| KeyString (s : string).

Definition HashKey_eqb (a b : HashKey) : bool :=
  match a, b with
  | KeyNull, KeyNull => true
  | KeyBoolean x, KeyBoolean y => Bool.eqb x y
  | KeyInteger x, KeyInteger y => x =? y
  | KeyString x, KeyString y => String.eqb x y
  | _, _ => false
  end.

(** The native functions of the sources that are embedded below, and
    any other native function, known by a name. *)
Inductive BuiltinFunction : Type :=
| printFn | errorFn | panicFn | mathAbs | rmFn | templateFn
| native (name : string).

Inductive Object : Type :=
| Null
| Boolean (Value : bool)
| Integer (Value : Z)
| Float (Value : float)
| String (Value : string)
| Array (Elements : list (option Object)) (IsCurrentArgs : bool)
| Hash (Pairs : list (HashKey * (option Object * option Object)))
| Function (Parameters : list string) (Defaults : list (string * ast.Node))
    (Body : ast.Node) (Env : EnvPtr) (DocString : string)
| Builtin (Fn : BuiltinFunction)
| Module (Name : string) (Attrs : option Object)
| Error (Message : string) (Code : option Z) (Data : string)
    (BuiltinCall : bool)
| ReturnValue (Value : option Object)
| File (Filename : string).

Definition Type_ (o : Object) : ObjectType :=
  match o with
  | Null => NULL_OBJ
  | Boolean _ => BOOLEAN_OBJ
  | Integer _ => INTEGER_OBJ
  | Float _ => FLOAT_OBJ
  | String _ => STRING_OBJ
  | Array _ _ => ARRAY_OBJ
  | Hash _ => HASH_OBJ
  | Function _ _ _ _ _ => FUNCTION_OBJ
  | Builtin _ => BUILTIN_OBJ
  | Module _ _ => MODULE_OBJ
  | Error _ _ _ _ => ERROR_OBJ
  | ReturnValue _ => RETURN_VALUE_OBJ
  | File _ => FILE_OBJ
  end.

End object.

Abbreviation OBJ := (option object.Object).
Abbreviation ENV := EnvPtr.
Abbreviation HashPair := (OBJ * OBJ)%type.

Definition NULL : OBJ := Some object.Null.
Definition TRUE : OBJ := Some (object.Boolean true).
Definition FALSE : OBJ := Some (object.Boolean false).

(** ** Environments and the interpreter state *)

(** Modelled from the spec: package [object]'s [Environment] is not among
    the sources.  A frame maps a name to a value and an immutable flag,
    has an optional parent, an optional permit set and the current
    arguments of the call that created it (spec, section 3.2). *)
Record Frame : Type := mkFrame {
  store : gmap string (OBJ * bool);
  outer : option ENV;
  permit : option (list string);
  CurrentArgs : list OBJ
}.

(** The process: the heap of environment frames, the evaluator's global
    [importCache] and [builtins], [searchPaths], the files of the host,
    the two output streams and the flag set by [utils.SetReplOrRun]. *)
Record State : Type := mkState {
  heap : list Frame;
  importCache : gmap string OBJ;
  builtins : gmap string object.BuiltinFunction;
  searchPaths : list string;
  files : gmap string (string + string);
  stdout : string;
  stderr : string;
  isRepl : bool
}.

Definition setHeap (h : list Frame) (st : State) : State :=
  mkState h (importCache st) (builtins st) (searchPaths st) (files st)
    (stdout st) (stderr st) (isRepl st).
Definition setImportCache (c : gmap string OBJ) (st : State) : State :=
  mkState (heap st) c (builtins st) (searchPaths st) (files st)
    (stdout st) (stderr st) (isRepl st).
Definition setStdout (s : string) (st : State) : State :=
  mkState (heap st) (importCache st) (builtins st) (searchPaths st) (files st)
    s (stderr st) (isRepl st).
Definition setStderr (s : string) (st : State) : State :=
  mkState (heap st) (importCache st) (builtins st) (searchPaths st) (files st)
    (stdout st) s (isRepl st).
Definition setFiles (f : gmap string (string + string)) (st : State) : State :=
  mkState (heap st) (importCache st) (builtins st) (searchPaths st) f
    (stdout st) (stderr st) (isRepl st).

(** ** The evaluation monad *)

Inductive Result (A : Type) : Type :=
| Ok (a : A) (st : State)
| Exit (code : Z) (st : State)
| GoPanic (msg : string) (st : State)
| OutOfFuel.
Arguments Ok {A} a st.
Arguments Exit {A} code st.
Arguments GoPanic {A} msg st.
Arguments OutOfFuel {A}.

Definition M (A : Type) : Type := State -> Result A.

Definition ret {A} (a : A) : M A := fun st => Ok a st.
Definition bind {A B} (m : M A) (k : A -> M B) : M B :=
  fun st =>
    match m st with
    | Ok a st' => k a st'
    | Exit c st' => Exit c st'
    | GoPanic msg st' => GoPanic msg st'
    | OutOfFuel => OutOfFuel
    end.

Notation "x <- c1 ;; c2" := (bind c1 (fun x => c2))
  (at level 100, c1 at next level, right associativity).
Notation "c1 ;; c2" := (bind c1 (fun _ => c2))
  (at level 100, right associativity).

Definition getState : M State := fun st => Ok st st.
Definition modify (f : State -> State) : M unit := fun st => Ok tt (f st).
Definition panic {A} (msg : string) : M A := fun st => GoPanic msg st.
Definition osExit {A} (code : Z) : M A := fun st => Exit code st.
Definition outOfFuel {A} : M A := fun _ => OutOfFuel.

(** [fmt.Print] to standard output and [fmt.Fprint(os.Stderr, ..)]. *)
Definition Print (s : string) : M unit :=
  modify (fun st => setStdout (stdout st +:+ s) st).
Definition quote : string := String.String (ascii_of_nat 34) EmptyString.
Definition newline : string := String.String (ascii_of_nat 10) EmptyString.
Definition Println (s : string) : M unit := Print (s +:+ newline).
Definition Eprint (s : string) : M unit :=
  modify (fun st => setStderr (stderr st +:+ s) st).

(** Modelled from the spec: [utils.ExitConditionally] is not among the
    sources.  A fatal error terminates the process with the code (spec,
    section 7); the REPL calls [utils.SetReplOrRun(true)] so that errors do
    not exit, and evaluation then goes on after the call. *)
Definition ExitConditionally (code : Z) : M unit :=
  fun st => if isRepl st then Ok tt st else Exit code st.

Definition nilDeref : string := "invalid memory address or nil pointer dereference".

(** A method call on an interface value, which panics on [nil]. *)
Definition deref (o : OBJ) : M object.Object :=
  match o with
  | Some v => ret v
  | None => panic nilDeref
  end.
Definition TypeOf (o : OBJ) : M object.ObjectType :=
  v <- deref o ;; ret (object.Type_ v).

(** *** Environment operations (spec, section 4.B) *)

(** Modelled from the spec: the constructors of [Environment], not among
    the sources.  A fresh scope frame, with the parent, the permit set and
    the current arguments given. *)
Definition newFrame (o : option ENV) (p : option (list string))
    (args : list OBJ) : M ENV :=
  fun st => Ok (length (heap st))
               (setHeap (heap st ++ [mkFrame ∅ o p args]) st).

Definition NewEnvironment : M ENV := newFrame None None [].
Definition NewEnclosedEnvironment (outer : ENV) (args : list OBJ) : M ENV :=
  newFrame (Some outer) None args.
Definition NewTemporaryScope (outer : ENV) (permit : list string) : M ENV :=
  newFrame (Some outer) (Some permit) [].

(** Modelled from the spec: [Environment.Get], not among the sources.
    [get(name)]: walk self, then the parent chain; return the first match.
    A parent is allocated before its children, so its index is smaller and
    [S e] steps reach the root. *)
Fixpoint lookupChain (n : nat) (h : list Frame) (e : ENV) (name : string)
    : option OBJ :=
  match n with
  | O => None
  | S n' =>
      match h !! e with
      | None => None
      | Some f =>
          match store f !! name with
          | Some (v, _) => Some v
          | None =>
              match outer f with
              | Some p => lookupChain n' h p name
              | None => None
              end
          end
      end
  end.

Definition envGet (h : list Frame) (e : ENV) (name : string) : option OBJ :=
  lookupChain (S e) h e name.

Definition Get (e : ENV) (name : string) : M (option OBJ) :=
  fun st => Ok (envGet (heap st) e name) st.

Definition currentArgs (e : ENV) : M (list OBJ) :=
  fun st => match heap st !! e with
            | Some f => Ok (CurrentArgs f) st
            | None => GoPanic nilDeref st
            end.

Definition permits (f : Frame) (name : string) : bool :=
  match permit f with
  | None => true
  | Some names => existsb (String.eqb name) names
  end.

Definition bindIn (f : Frame) (name : string) (val : OBJ) (immutable : bool)
    : Frame :=
  mkFrame (<[name := (val, immutable)]> (store f)) (outer f) (permit f)
    (CurrentArgs f).

(** The frame a write to [name] lands in: the nearest one, from [e]
    outwards, whose permit set (if any) holds [name]. *)
Fixpoint targetFrame (n : nat) (h : list Frame) (e : ENV) (name : string)
    : option (ENV * Frame) :=
  match n with
  | O => None
  | S n' =>
      match h !! e with
      | None => None
      | Some f =>
          if permits f name then Some (e, f)
          else match outer f with
               | Some p => targetFrame n' h p name
               | None => None
               end
      end
  end.

Definition isImmutableIn (f : Frame) (name : string) : bool :=
  match store f !! name with
  | Some (_, true) => true
  | _ => false
  end.

(** Modelled from the spec: [Environment.Set], not among the sources.
    [set(name, value)]: a name outside the permit set is delegated to the
    parent; a name that is immutable in the receiving frame fails, which
    is fatal with exit code 1 (spec, sections 4.B and 7); otherwise the
    name is bound, mutable, in the receiving frame.  The evaluator calls
    [Set] to introduce loop variables, parameters and [mutable] bindings
    (the spec's [set_mutable]), so an absent name is bound, not refused. *)
Definition Set_ (e : ENV) (name : string) (val : OBJ) : M unit :=
  fun st =>
    match targetFrame (S e) (heap st) e name with
    | None => GoPanic nilDeref st
    | Some (t, f) =>
        if isImmutableIn f name
        then (Println (quote +:+ name +:+ quote +:+ " is immutable") ;; osExit 1) st
        else Ok tt (setHeap (<[t := bindIn f name val false]> (heap st)) st)
    end.

(** Modelled from the spec: [Environment.SetLet], not among the sources.
    [set_let(name, value)]: an immutable binding in the nearest frame that
    permits the name. *)
Definition SetLet (e : ENV) (name : string) (val : OBJ) : M unit :=
  fun st =>
    match targetFrame (S e) (heap st) e name with
    | None => GoPanic nilDeref st
    | Some (t, f) =>
        Ok tt (setHeap (<[t := bindIn f name val true]> (heap st)) st)
    end.

Definition isPublic (name : string) : bool := negb (HasPrefix name "_").

(** Modelled from the spec: [Environment.ExportedHash], not among the
    sources.  [exported_hash()]: the bindings of the frame whose names do
    not start with an underscore, as a Hash keyed by the names. *)
Definition exportedPairs (f : Frame)
    : list (object.HashKey * HashPair) :=
  map (fun kv : string * (OBJ * bool) =>
         (object.KeyString kv.1, (Some (object.String kv.1), kv.2.1)))
      (filter (fun kv : string * (OBJ * bool) => isPublic kv.1 = true)
         (map_to_list (store f))).

Definition ExportedHash (e : ENV) : M OBJ :=
  fun st => match heap st !! e with
            | Some f => Ok (Some (object.Hash (exportedPairs f))) st
            | None => GoPanic nilDeref st
            end.

(** ** What the evaluator takes from code outside these sources

    The lexer and parser, the methods of the value types, and the Go
    library functions whose results are text or floating-point numbers. *)

Class Externals : Type := {
  (** [parser.New(lexer.New(src)).ParseProgram()] and [p.Errors()] *)
  ParseProgram : string -> ast.Node * list string;
  (** [String()] of a node that is neither a string literal nor a name *)
  renderNode : ast.Node -> string;
  (** [Inspect()], [JSON(pretty)] and [GetMethod(name)] of a value *)
  Inspect : object.Object -> string;
  JSON : object.Object -> bool -> string;
  GetMethod : object.Object -> string -> option object.BuiltinFunction;
  (** the text of a type tag and membership in [object.SystemTypesMap] *)
  TypeName : object.ObjectType -> string;
  SystemTypesMap : object.ObjectType -> bool;
  (** iteration of a value other than an Array, a Hash or a String *)
  iterOther : object.Object -> option (list (OBJ * OBJ));
  (** identity of two values of one reference type *)
  sameObject : object.Object -> object.Object -> bool;
  (** [math.Pow], [float64(i)] and [int64(f)] *)
  mathPow : float -> float -> float;
  float64 : Z -> float;
  int64 : float -> Z;
  (** [strconv.Unquote], [filepath.Join], [%s] of a value *)
  Unquote : string -> option string;
  filepathJoin : string -> string -> string;
  fmtValue : OBJ -> string;
  (** [NewError2], defined outside these sources *)
  NewError2 : string -> object.Object;
  (** a native function other than the ones embedded below *)
  callNative : string -> ENV -> list OBJ -> M OBJ
}.

(** Modelled from the spec: [String()] of a string literal is the literal
    text, the key of the module cache (spec, section 4.F); that of an
    identifier is its name. *)
Definition NodeString `{Externals} (n : ast.Node) : string :=
  match n with
  | ast.StringLiteral s => s
  | ast.Identifier s => s
  | _ => renderNode n
  end.

(** Modelled from the spec: the hashable tags are Null, Boolean, Integer
    and String (spec, section 3.1). *)
Definition HashKeyOf (o : object.Object) : option object.HashKey :=
  match o with
  | object.Null => Some object.KeyNull
  | object.Boolean b => Some (object.KeyBoolean b)
  | object.Integer z => Some (object.KeyInteger z)
  | object.String s => Some (object.KeyString s)
  | _ => None
  end.

Fixpoint lookupPair (k : object.HashKey)
    (pairs : list (object.HashKey * HashPair)) : option HashPair :=
  match pairs with
  | [] => None
  | (k', p) :: rest =>
      if object.HashKey_eqb k k' then Some p else lookupPair k rest
  end.

Fixpoint insertPair (k : object.HashKey) (p : HashPair)
    (pairs : list (object.HashKey * HashPair))
    : list (object.HashKey * HashPair) :=
  match pairs with
  | [] => [(k, p)]
  | (k', p') :: rest =>
      if object.HashKey_eqb k k' then (k, p) :: rest
      else (k', p') :: insertPair k p rest
  end.

Fixpoint withIndex {A} (i : Z) (l : list A) : list (A * Z) :=
  match l with
  | [] => []
  | x :: r => (x, i) :: withIndex (i + 1) r
  end.

(** Modelled from the spec: the iterator protocol of package [object]
    (spec, section 4.H).  The pairs (element, index) that [Reset()] and
    then [Next()], called until it reports no value, deliver. *)
Definition iterate `{Externals} (o : object.Object) : option (list (OBJ * OBJ)) :=
  match o with
  | object.Array els _ =>
      Some (map (fun p : OBJ * Z => (p.1, Some (object.Integer p.2)))
              (withIndex 0 els))
  | object.Hash pairs =>
      Some (map (fun kv : object.HashKey * HashPair => (kv.2.2, kv.2.1)) pairs)
  | object.String s =>
      Some (map (fun p : Z * Z =>
                   (Some (object.String (stringOfRune p.1)),
                    Some (object.Integer p.2)))
              (withIndex 0 (runesOf s)))
  | _ => iterOther o
  end.

(** ** The evaluator *)

Section Evaluator.

Context `{Externals}.

Definition NewError (message : string) : OBJ :=
  Some (object.Error message None "" false).

Definition typeText (t : object.ObjectType) : string := TypeName t.

Definition nativeBoolToBooleanObject (input : bool) : OBJ :=
  if input then TRUE else FALSE.

Definition isError (obj : OBJ) : bool :=
  match obj with
  | Some (object.Error _ _ _ _) => true
  | _ => false
  end.

Definition isTruthy (obj : OBJ) : bool :=
  match obj with
  | Some (object.Boolean true) => true
  | Some (object.Boolean false) => false
  | Some object.Null => false
  | _ => true
  end.

Definition objectToNativeBoolean (o : OBJ) : bool :=
  let o := match o with
           | Some (object.ReturnValue v) => v
           | _ => o
           end in
  match o with
  | Some (object.Boolean v) => v
  | Some (object.String v) => negb (String.eqb v "")
  | Some object.Null => false
  | Some (object.Integer v) => if v =? 0 then false else true
  | Some (object.Float v) => if PrimFloat.eqb v PrimFloat.zero then false else true
  | Some (object.Array els _) => if (length els =? 0)%nat then false else true
  | Some (object.Hash pairs) => if (length pairs =? 0)%nat then false else true
  | _ => true
  end.

Definition evalBangOperatorExpression (right : OBJ) : OBJ :=
  match right with
  | Some (object.Boolean true) => FALSE
  | Some (object.Boolean false) => TRUE
  | Some object.Null => TRUE
  | _ => FALSE
  end.

Definition evalMinusPrefixOperatorExpression (right : OBJ) : M OBJ :=
  match right with
  | Some (object.Integer v) => ret (Some (object.Integer (wrap64 (- v))))
  | Some (object.Float v) => ret (Some (object.Float (PrimFloat.opp v)))
  | _ => t <- TypeOf right ;; ret (NewError ("unknown operator: -" +:+ typeText t))
  end.

Definition evalNotPrefixOperatorExpression (right : OBJ) : M OBJ :=
  t <- TypeOf right ;;
  match right with
  | Some (object.Integer v) => ret (Some (object.Integer (Z.lnot v)))
  | _ => ret (NewError ("expected integer, got " +:+ typeText t))
  end.

Definition evalPrefixExpression (operator : string) (right : OBJ) : M OBJ :=
  if String.eqb operator "!" then ret (evalBangOperatorExpression right)
  else if String.eqb operator "-" then evalMinusPrefixOperatorExpression right
  else if String.eqb operator "~" then evalNotPrefixOperatorExpression right
  else t <- TypeOf right ;;
       ret (NewError ("unknown operator: " +:+ operator +:+ typeText t)).

Definition unknownOperator (l : object.Object) (operator : string)
    (r : object.Object) : OBJ :=
  NewError ("unknown operator: " +:+ typeText (object.Type_ l) +:+ " "
            +:+ operator +:+ " " +:+ typeText (object.Type_ r)).

(** A failed type assertion, which panics. *)
Definition badAssertion {A} : M A := panic "interface conversion".

Fixpoint rangeElements (n : nat) (leftVal : Z) : list OBJ :=
  match n with
  | O => []
  | S k => Some (object.Integer leftVal) :: rangeElements k (wrap64 (leftVal + 1))
  end.

(** [make([]OBJ, len)].  The run-time system panics for a negative
    length and for one whose elements, two words of eight bytes each,
    take more than [maxAlloc] bytes, 2^48 on the 64-bit platforms; the
    memory of the host is taken to suffice for every other length. *)
Definition maxAlloc : Z := 2 ^ 48.
Definition makesliceFails (len : Z) : bool :=
  (len <? 0) || (maxAlloc <? len * 16).

Definition one_of (operator : string) (ops : list string) : bool :=
  existsb (String.eqb operator) ops.

Definition evalIntegerInfixExpression (operator : string)
    (left right : object.Object) : M OBJ :=
  match left, right with
  | object.Integer leftVal, object.Integer rightVal =>
      let mkInt (z : Z) : M OBJ := ret (Some (object.Integer z)) in
      let mkBool (b : bool) : M OBJ := ret (nativeBoolToBooleanObject b) in
      if one_of operator ["+"; "+="] then mkInt (wrap64 (leftVal + rightVal))
      else if String.eqb operator "%" then
        if rightVal =? 0 then panic "integer divide by zero"
        else mkInt (Z.rem leftVal rightVal)
      else if String.eqb operator "**" then
        mkInt (int64 (mathPow (float64 leftVal) (float64 rightVal)))
      else if one_of operator ["-"; "-="] then mkInt (wrap64 (leftVal - rightVal))
      else if one_of operator ["*"; "*="] then mkInt (wrap64 (leftVal * rightVal))
      else if one_of operator ["/"; "/="] then
        if rightVal =? 0 then panic "integer divide by zero"
        else mkInt (wrap64 (Z.quot leftVal rightVal))
      else if String.eqb operator "<" then mkBool (leftVal <? rightVal)
      else if String.eqb operator "<=" then mkBool (leftVal <=? rightVal)
      else if String.eqb operator ">" then mkBool (leftVal >? rightVal)
      else if String.eqb operator ">=" then mkBool (leftVal >=? rightVal)
      else if String.eqb operator "==" then mkBool (leftVal =? rightVal)
      else if String.eqb operator "!=" then mkBool (negb (leftVal =? rightVal))
      else if String.eqb operator "|" then mkInt (Z.lor leftVal rightVal)
      else if String.eqb operator "^" then mkInt (Z.lxor leftVal rightVal)
      else if String.eqb operator "&" then mkInt (Z.land leftVal rightVal)
      else if String.eqb operator "<<" then
        mkInt (if 64 <=? uint64 rightVal then 0
             else wrap64 (Z.shiftl leftVal (uint64 rightVal)))
      else if String.eqb operator ">>" then
        mkInt (Z.shiftr leftVal (uint64 rightVal))
      else if String.eqb operator ".." then
        let len := wrap64 (wrap64 (rightVal - leftVal) + 1) in
        if makesliceFails len then panic "makeslice: len out of range"
        else ret (Some (object.Array (rangeElements (Z.to_nat len) leftVal) false))
      else ret (unknownOperator left operator right)
  | _, _ => badAssertion
  end.

Definition floatInfix (operator : string) (left right : object.Object)
    (leftVal rightVal : float) : M OBJ :=
  let mkFloat (f : float) : M OBJ := ret (Some (object.Float f)) in
  let mkBool (b : bool) : M OBJ := ret (nativeBoolToBooleanObject b) in
  if one_of operator ["+"; "+="] then mkFloat (PrimFloat.add leftVal rightVal)
  else if one_of operator ["-"; "-="] then mkFloat (PrimFloat.sub leftVal rightVal)
  else if one_of operator ["*"; "*="] then mkFloat (PrimFloat.mul leftVal rightVal)
  else if String.eqb operator "**" then mkFloat (mathPow leftVal rightVal)
  else if one_of operator ["/"; "/="] then mkFloat (PrimFloat.div leftVal rightVal)
  else if String.eqb operator "<" then mkBool (PrimFloat.ltb leftVal rightVal)
  else if String.eqb operator "<=" then mkBool (PrimFloat.leb leftVal rightVal)
  else if String.eqb operator ">" then mkBool (PrimFloat.ltb rightVal leftVal)
  else if String.eqb operator ">=" then mkBool (PrimFloat.leb rightVal leftVal)
  else if String.eqb operator "==" then mkBool (PrimFloat.eqb leftVal rightVal)
  else if String.eqb operator "!=" then mkBool (negb (PrimFloat.eqb leftVal rightVal))
  else ret (unknownOperator left operator right).

Definition evalFloatInfixExpression (operator : string)
    (left right : object.Object) : M OBJ :=
  match left, right with
  | object.Float l, object.Float r => floatInfix operator left right l r
  | _, _ => badAssertion
  end.

Definition evalFloatIntegerInfixExpression (operator : string)
    (left right : object.Object) : M OBJ :=
  match left, right with
  | object.Float l, object.Integer r =>
      floatInfix operator left right l (float64 r)
  | _, _ => badAssertion
  end.

Definition evalIntegerFloatInfixExpression (operator : string)
    (left right : object.Object) : M OBJ :=
  match left, right with
  | object.Integer l, object.Float r =>
      floatInfix operator left right (float64 l) r
  | _, _ => badAssertion
  end.

Definition evalStringInfixExpression (operator : string)
    (left right : object.Object) : M OBJ :=
  match left, right with
  | object.String l, object.String r =>
      let mkBool (b : bool) : M OBJ := ret (nativeBoolToBooleanObject b) in
      if String.eqb operator "==" then mkBool (String.eqb l r)
      else if String.eqb operator "!=" then mkBool (negb (String.eqb l r))
      else if String.eqb operator ">=" then mkBool (String.leb r l)
      else if String.eqb operator ">" then mkBool (String.ltb r l)
      else if String.eqb operator "<=" then mkBool (String.leb l r)
      else if String.eqb operator "<" then mkBool (String.ltb l r)
      else if one_of operator ["+"; "+="] then ret (Some (object.String (l +:+ r)))
      else ret (unknownOperator left operator right)
  | _, _ => badAssertion
  end.

Definition evalBooleanInfixExpression (operator : string)
    (left right : object.Object) : M OBJ :=
  let l := object.String (Inspect left) in
  let r := object.String (Inspect right) in
  if one_of operator ["<"; "<="; ">"; ">="]
  then evalStringInfixExpression operator l r
  else ret (unknownOperator left operator right).

(** [left == right] on two interface values: the same pointer.  The
    singletons are compared by value, two values of different types
    differ, and for the rest the embedding asks [sameObject]. *)
Definition samePointer (left right : OBJ) : bool :=
  match left, right with
  | None, None => true
  | Some object.Null, Some object.Null => true
  | Some (object.Boolean a), Some (object.Boolean b) => Bool.eqb a b
  | Some l, Some r =>
      object.ObjectType_eqb (object.Type_ l) (object.Type_ r) && sameObject l r
  | _, _ => false
  end.

Definition evalInfixExpression (operator : string) (left right : OBJ)
    (env : ENV) : M OBJ :=
  l <- deref left ;;
  let lt := object.Type_ l in
  let leftIs t := object.ObjectType_eqb lt t in
  let rest : M OBJ :=
    if String.eqb operator "&&" then
      ret (nativeBoolToBooleanObject
             (objectToNativeBoolean left && objectToNativeBoolean right))
    else if String.eqb operator "||" then
      ret (nativeBoolToBooleanObject
             (objectToNativeBoolean left || objectToNativeBoolean right))
    else if String.eqb operator "==" then
      ret (nativeBoolToBooleanObject (samePointer left right))
    else if String.eqb operator "!=" then
      ret (nativeBoolToBooleanObject (negb (samePointer left right)))
    else
      r <- deref right ;;
      let rt := object.Type_ r in
      if leftIs object.BOOLEAN_OBJ && object.ObjectType_eqb rt object.BOOLEAN_OBJ
      then evalBooleanInfixExpression operator l r
      else if negb (object.ObjectType_eqb lt rt)
      then ret (NewError ("type mismatch: " +:+ typeText lt +:+ " " +:+ operator
                          +:+ " " +:+ typeText rt))
      else ret (unknownOperator l operator r) in
  if leftIs object.INTEGER_OBJ || leftIs object.FLOAT_OBJ
     || leftIs object.STRING_OBJ then
    r <- deref right ;;
    match lt, object.Type_ r with
    | object.INTEGER_OBJ, object.INTEGER_OBJ =>
        evalIntegerInfixExpression operator l r
    | object.FLOAT_OBJ, object.FLOAT_OBJ =>
        evalFloatInfixExpression operator l r
    | object.FLOAT_OBJ, object.INTEGER_OBJ =>
        evalFloatIntegerInfixExpression operator l r
    | object.INTEGER_OBJ, object.FLOAT_OBJ =>
        evalIntegerFloatInfixExpression operator l r
    | object.STRING_OBJ, object.STRING_OBJ =>
        evalStringInfixExpression operator l r
    | _, _ => rest
    end
  else rest.

(** *** Lookups, indexing and method resolution *)

Definition evalIdentifier (name : string) (env : ENV) : M OBJ :=
  v <- Get env name ;;
  match v with
  | Some val => ret val
  | None =>
      st <- getState ;;
      match builtins st !! name with
      | Some builtin => ret (Some (object.Builtin builtin))
      | None =>
          Println ("identifier not found: " +:+ name) ;;
          ExitConditionally 1 ;;
          ret (Some (NewError2 ("identifier not found: " +:+ name)))
      end
  end.

(** The receiver's own method, else the binding of ["<type>.<name>"],
    else that of ["object.<name>"]; a Function found that way is copied
    with a fresh environment in which [self] is the receiver. *)
Fixpoint lookupAttempts (attempts : list string) (o : object.Object)
    (k : string) (env : ENV) : M (option OBJ) :=
  match attempts with
  | [] => ret None
  | prefix :: rest =>
      let name := prefix +:+ "." +:+ k in
      v <- Get env name ;;
      match v with
      | Some (Some (object.Function ps ds body fenv doc)) =>
          e <- NewEnclosedEnvironment fenv [] ;;
          Set_ e "self" (Some o) ;;
          ret (Some (Some (object.Function ps ds body e doc)))
      | Some val => ret (Some val)
      | None => lookupAttempts rest o k env
      end
  end.

Definition objectGetMethod (o : object.Object) (key : OBJ) (env : ENV)
    : M (option OBJ) :=
  match key with
  | Some (object.String k) =>
      match GetMethod o k with
      | Some fn => ret (Some (Some (object.Builtin fn)))
      | None =>
          let t := object.Type_ o in
          let first := if SystemTypesMap t then ToLower (typeText t)
                       else typeText t in
          lookupAttempts [first; "object"] o k env
      end
  | _ => ret None
  end.

Definition evalArrayIndexExpression (array : object.Object) (index : OBJ)
    (env : ENV) : M OBJ :=
  match array with
  | object.Array elements _ =>
      match index with
      | Some (object.Integer idx) =>
          let max := Z.of_nat (length elements) - 1 in
          if (idx <? 0) || (idx >? max) then ret NULL
          else match elements !! Z.to_nat idx with
               | Some el => ret el
               | None => panic "index out of range"
               end
      | _ =>
          fn <- objectGetMethod array index env ;;
          match fn with
          | Some f => ret f
          | None => ret NULL
          end
      end
  | _ => badAssertion
  end.

Definition evalHashIndexExpression (hash : OBJ) (index : OBJ) (env : ENV)
    : M OBJ :=
  match hash with
  | Some (object.Hash pairs as h) =>
      match index with
      | Some i =>
          match HashKeyOf i with
          | None =>
              ret (NewError ("unusable as hash key: "
                             +:+ typeText (object.Type_ i)))
          | Some key =>
              match lookupPair key pairs with
              | Some hp => ret hp.2
              | None =>
                  fn <- objectGetMethod h index env ;;
                  match fn with
                  | Some f => ret f
                  | None => ret NULL
                  end
              end
          end
      | None => panic nilDeref
      end
  | _ => badAssertion
  end.

Definition evalModuleIndexExpression (module : object.Object) (index : OBJ)
    (env : ENV) : M OBJ :=
  match module with
  | object.Module _ attrs => evalHashIndexExpression attrs index env
  | _ => badAssertion
  end.

Definition evalStringIndexExpression (input : object.Object) (index : OBJ)
    (env : ENV) : M OBJ :=
  match input with
  | object.String str =>
      match index with
      | Some (object.Integer idx) =>
          let max := len str in
          if (idx <? 0) || (idx >? max) then ret NULL
          else
            let chars := runesOf str in
            match chars !! Z.to_nat idx with
            | Some r => ret (Some (object.String (stringOfRune r)))
            | None => panic "index out of range"
            end
      | _ =>
          fn <- objectGetMethod input index env ;;
          match fn with
          | Some f => ret f
          | None => ret NULL
          end
      end
  | _ => badAssertion
  end.

Definition evalIndexExpression (left index : OBJ) (env : ENV) : M OBJ :=
  l <- deref left ;;
  match object.Type_ l with
  | object.ARRAY_OBJ => evalArrayIndexExpression l index env
  | object.HASH_OBJ => evalHashIndexExpression left index env
  | object.STRING_OBJ => evalStringIndexExpression l index env
  | object.MODULE_OBJ => evalModuleIndexExpression l index env
  | t =>
      fn <- objectGetMethod l index env ;;
      match fn with
      | Some f => ret f
      | None => ret (NewError ("index operator not support:" +:+ typeText t))
      end
  end.

Definition evalPostfixExpression (env : ENV) (operator : string)
    (tokenLiteral : string) : M OBJ :=
  let step (delta : Z) : M OBJ :=
    val <- Get env tokenLiteral ;;
    match val with
    | None => ret (NewError (tokenLiteral +:+ " is unknown"))
    | Some (Some (object.Integer v as arg)) =>
        Set_ env tokenLiteral (Some (object.Integer (wrap64 (v + delta)))) ;;
        ret (Some arg)
    | Some _ => ret (NewError (tokenLiteral +:+ " is not an int"))
    end in
  if String.eqb operator "++" then step 1
  else if String.eqb operator "--" then step (-1)
  else ret (NewError ("unknown operator: " +:+ operator)).

Definition evalSpread (right : string) (env : ENV) : M OBJ :=
  val <- Get env right ;;
  match val with
  | None => ret (NewError (right +:+ " is unknown"))
  | Some (Some (object.Array elements _)) =>
      ret (Some (object.Array elements true))
  | Some ao =>
      t <- TypeOf ao ;;
      ret (NewError ("spread expected an array, got " +:+ typeText t))
  end.

Definition upwrapReturnValue (obj : OBJ) : OBJ :=
  match obj with
  | Some (object.ReturnValue v) => v
  | _ => obj
  end.

(** *** The unscoped built-ins *)

Fixpoint printFn (args : list OBJ) : M OBJ :=
  match args with
  | [] => Println "" ;; ret NULL
  | arg :: rest =>
      a <- deref arg ;;
      let s := Inspect a in
      if object.ObjectType_eqb (object.Type_ a) object.STRING_OBJ
         && Contains s "\"
      then
        match Unquote (quote +:+ s +:+ quote) with
        | Some s' => Println (s' +:+ " ") ;; ret NULL
        | None => Print (s +:+ " ") ;; Println " " ;; ret NULL
        end
      else Print (s +:+ " ") ;; printFn rest
  end.

Definition pairValue (pairs : list (object.HashKey * HashPair)) (k : string)
    : OBJ :=
  match lookupPair (object.KeyString k) pairs with
  | Some hp => hp.2
  | None => None
  end.

Definition errorFn (args : list OBJ) : OBJ :=
  match args with
  | [arg] =>
      match arg with
      | Some (object.String t) => Some (object.Error t None "" true)
      | Some (object.Hash pairs) =>
          let msg := pairValue pairs "message" in
          let code := pairValue pairs "code" in
          let data := pairValue pairs "data" in
          let withData (message : string) (c : option Z) : OBJ :=
            Some (object.Error message c
                    match data with
                    | Some d => JSON d false
                    | None => ""
                    end true) in
          let withCode (message : string) : OBJ :=
            match code with
            | None => withData message None
            | Some (object.Integer c) => withData message (Some c)
            | Some _ => NewError "error.code should be integer!"
            end in
          match msg with
          | None => withCode ""
          | Some (object.String m) => withCode m
          | Some _ => NewError "error.message should be string!"
          end
      | _ => NewError "error() expected a string or hash!"
      end
  | _ =>
      NewError ("wrong number of arguments. got="
                +:+ itoa (Z.of_nat (length args)) +:+ ", want=1")
  end.

Definition panicFn (args : list OBJ) : M OBJ :=
  match args with
  | [] => panic "index out of range"
  | Some (object.Error message code _ _) :: _ =>
      Println message ;;
      ExitConditionally (match code with Some c => c | None => 1 end) ;;
      ret NULL
  | _ :: _ => ret (NewError "panic expected an error!")
  end.

Definition mathAbs (args : list OBJ) : M OBJ :=
  match args with
  | [arg] =>
      match arg with
      | Some (object.Integer v) =>
          ret (Some (object.Integer (if v <? 0 then wrap64 (v * -1) else v)))
      | Some (object.Float v) =>
          ret (Some (object.Float
                       (if PrimFloat.ltb v PrimFloat.zero
                        then PrimFloat.mul v (PrimFloat.opp PrimFloat.one)
                        else v)))
      | _ =>
          t <- TypeOf arg ;;
          ret (NewError ("argument to `math.abs` not supported, got="
                         +:+ typeText t))
      end
  | _ =>
      ret (NewError ("wrong number of arguments. got="
                     +:+ itoa (Z.of_nat (length args)) +:+ ", want=1"))
  end.

(** [rmFn], the built-in [fs.rm]: [os.Remove] of the path the argument
    inspects to, which fails when the host has no such file. *)
Definition rmFn (args : list OBJ) : M OBJ :=
  match args with
  | [arg] =>
      a <- deref arg ;;
      let path := Inspect a in
      st <- getState ;;
      match files st !! path with
      | Some _ =>
          modify (fun st => setFiles (delete path (files st)) st) ;;
          ret TRUE
      | None => ret FALSE
      end
  | _ =>
      ret (NewError ("wrong number of arguments. got="
                     +:+ itoa (Z.of_nat (length args)) +:+ ", want=1"))
  end.

End Evaluator.

(** *** The walkers, over the evaluation function of their sub-nodes

    [Eval] is the evaluator itself, one unit of fuel lower. *)

Section Walk.

Context `{Externals}.
Variable Eval : ast.Node -> ENV -> M OBJ.

Fixpoint evalProgramFrom (result : OBJ) (statements : list ast.Node)
    (env : ENV) : M OBJ :=
  match statements with
  | [] => ret result
  | statement :: rest =>
      result <- Eval statement env ;;
      match result with
      | Some (object.ReturnValue v) => ret v
      | _ => evalProgramFrom result rest env
      end
  end.

Definition evalProgram (statements : list ast.Node) (env : ENV) : M OBJ :=
  evalProgramFrom None statements env.

Fixpoint evalBlockFrom (result : OBJ) (statements : list ast.Node)
    (env : ENV) : M OBJ :=
  match statements with
  | [] => ret result
  | statement :: rest =>
      result <- Eval statement env ;;
      match result with
      | Some (object.ReturnValue _) => ret result
      | _ => evalBlockFrom result rest env
      end
  end.

Definition evalBlockStatement (statements : list ast.Node) (env : ENV)
    : M OBJ :=
  evalBlockFrom None statements env.

Definition evalIfExpression (cond cons : ast.Node) (alt : option ast.Node)
    (env : ENV) : M OBJ :=
  condition <- Eval cond env ;;
  if isError condition then ret condition
  else if isTruthy condition then Eval cons env
  else match alt with
       | Some a => Eval a env
       | None => ret NULL
       end.

(** [evalExpression]: the values of the expressions, or the first Error
    alone. *)
Fixpoint evalExpressionFrom (result : list OBJ) (exps : list ast.Node)
    (env : ENV) : M (list OBJ) :=
  match exps with
  | [] => ret result
  | e :: rest =>
      evaluated <- Eval e env ;;
      if isError evaluated then ret [evaluated]
      else evalExpressionFrom (result ++ [evaluated]) rest env
  end.

Definition evalExpression (exps : list ast.Node) (env : ENV) : M (list OBJ) :=
  evalExpressionFrom [] exps env.

(** *** String interpolation *)

(** The text up to the first ["}}"] and the text after it. *)
Fixpoint splitClose (s : string) : option (string * string) :=
  match s with
  | EmptyString => None
  | String.String "}" (String.String "}" rest) => Some (EmptyString, rest)
  | String.String c s' =>
      match splitClose s' with
      | Some (inner, rest) => Some (String.String c inner, rest)
      | None => None
      end
  end.

(** A match of the pattern
    [(\\)?(\{\{)(.*?)(\}\})] at the head of [s]: the matched text and
    what follows it. *)
Definition matchAt (s : string) : option (string * string) :=
  match s with
  | String.String "\" (String.String "{" (String.String "{" r)) =>
      match splitClose r with
      | Some (inner, rest) => Some ("\{{" +:+ inner +:+ "}}", rest)
      | None => None
      end
  | String.String "{" (String.String "{" r) =>
      match splitClose r with
      | Some (inner, rest) => Some ("{{" +:+ inner +:+ "}}", rest)
      | None => None
      end
  | _ => None
  end.

(** [re.ReplaceAllStringFunc]: the matches, leftmost first and without
    overlap, are replaced by what [repl] returns for them, in order. *)
Fixpoint ReplaceAllStringFunc (n : nat) (s : string)
    (repl : string -> M string) : M string :=
  match n with
  | O => ret s
  | S n' =>
      match s with
      | EmptyString => ret EmptyString
      | String.String c s' =>
          match matchAt s with
          | Some (m, rest) =>
              r <- repl m ;;
              t <- ReplaceAllStringFunc n' rest repl ;;
              ret (r +:+ t)
          | None =>
              t <- ReplaceAllStringFunc n' s' repl ;;
              ret (String.String c t)
          end
      end
  end.

Definition byteAt (m : string) (i : nat) : option ascii := String.get i m.

(** The function [Interpolate] hands to [ReplaceAllStringFunc]. *)
Definition interpolateMatch (env : ENV) (m : string) : M string :=
  let n := String.length m in
  if String.prefix "\" m then ret (String.substring 1 (n - 1) m)
  else if negb (match byteAt m (n - 1), byteAt m (n - 2) with
                | Some "}"%char, Some "}"%char => true
                | _, _ => false
                end)
  then ret m
  else
    let varName := String.substring 2 (n - 4) m in
    v <- Get env varName ;;
    match v with
    | None =>
        let program := (ParseProgram varName).1 in
        evaluated <- Eval program env ;;
        match evaluated with
        | Some e => ret (Inspect e)
        | None => ret EmptyString
        end
    | Some val => o <- deref val ;; ret (Inspect o)
    end.

Definition Interpolate (str : string) (env : ENV) : M string :=
  ReplaceAllStringFunc (S (String.length str)) str (interpolateMatch env).

(** *** Modules *)

Definition exists_ (path : string) : M bool :=
  fun st => Ok (bool_decide (is_Some (files st !! path))) st.

Fixpoint findIn (paths : list string) (basename : string) : M string :=
  match paths with
  | [] => ret EmptyString
  | p :: rest =>
      let filename := filepathJoin p basename in
      found <- exists_ filename ;;
      if found then ret filename else findIn rest basename
  end.

Definition FindModule (name : string) : M string :=
  st <- getState ;;
  findIn (searchPaths st) (name +:+ ".keai").

Definition ReadFile (filename : string) : M (string + string) :=
  fun st => match files st !! filename with
            | Some r => Ok r st
            | None =>
                Ok (inr ("open " +:+ filename +:+ ": no such file or directory"))
                  st
            end.

(** [templateFn], the built-in [fs.tmpl]: the file named by the first
    argument, interpolated in the caller's environment. *)
Definition templateFn (env : ENV) (args : list OBJ) : M OBJ :=
  match args with
  | [] => panic "index out of range"
  | Some (object.String a) :: _ =>
      b <- ReadFile a ;;
      match b with
      | inr err => ret (NewError ("Error reading template file: " +:+ err))
      | inl s =>
          res <- Interpolate s env ;;
          ret (Some (object.String res))
      end
  | _ :: _ => ret (NewError "fs.tmpl expected string arg!")
  end.

(** [fn.Fn(env, args...)] of a Builtin: the function registered under
    its name. *)
Definition callBuiltin (fn : object.BuiltinFunction) (env : ENV)
    (args : list OBJ) : M OBJ :=
  match fn with
  | object.printFn => printFn args
  | object.errorFn => ret (errorFn args)
  | object.panicFn => panicFn args
  | object.mathAbs => mathAbs args
  | object.rmFn => rmFn args
  | object.templateFn => templateFn env args
  | object.native name => callNative name env args
  end.

Definition EvalModule (name : string) : M OBJ :=
  filename <- FindModule name ;;
  if String.eqb filename "" then
    ret (NewError ("ImportError: no module named '" +:+ name +:+ "'"))
  else
    b <- ReadFile filename ;;
    match b with
    | inr err =>
        ret (NewError ("IOError: error reading module '" +:+ name +:+ "': "
                       +:+ err))
    | inl src =>
        let parsed := ParseProgram src in
        if negb (length parsed.2 =? 0)%nat then
          ret (NewError ("ParseError: [" +:+ joinWith " " parsed.2 +:+ "]"))
        else
          env <- NewEnvironment ;;
          Eval parsed.1 env ;;
          ExportedHash env
    end.

Definition evalImportExpression (name : ast.Node) (env : ENV) : M OBJ :=
  st <- getState ;;
  match importCache st !! NodeString name with
  | Some ev => ret ev
  | None =>
      n <- Eval name env ;;
      if isError n then ret n
      else match n with
           | Some (object.String s) =>
               attrs <- EvalModule s ;;
               if isError attrs then ret attrs
               else
                 let m := Some (object.Module s attrs) in
                 modify (fun st => setImportCache
                                     (<[NodeString name := m]> (importCache st)) st) ;;
                 ret m
           | _ =>
               ret (NewError ("ImportError: invalid import path '"
                              +:+ fmtValue n +:+ "'"))
           end
  end.

(** *** Assignment *)

Definition compoundAssign (operator name : string) (evaluated : OBJ)
    (env : ENV) : M OBJ :=
  current <- Get env name ;;
  match current with
  | None => ret (NewError (name +:+ " is unknown"))
  | Some cur =>
      res <- evalInfixExpression operator cur evaluated env ;;
      if isError res then
        r <- deref res ;;
        Print ("Error handling " +:+ operator +:+ " " +:+ Inspect r +:+ newline) ;;
        ret res
      else Set_ env name res ;; ret res
  end.

Definition evalAssignStatement (name operator : string) (value : ast.Node)
    (env : ENV) : M OBJ :=
  evaluated <- Eval value env ;;
  if isError evaluated then ret evaluated
  else if one_of operator ["+="; "-="; "*="; "/="]
  then compoundAssign operator name evaluated env
  else if String.eqb operator "=" then
    known <- Get env name ;;
    match known with
    | Some _ => ret tt
    | None =>
        Print ("Setting unknown variable '" +:+ name +:+ "' is an error!"
               +:+ newline) ;;
        ExitConditionally 1
    end ;;
    Set_ env name evaluated ;;
    ret evaluated
  else ret evaluated.

(** *** Loops *)

(** The test both loops apply to the value of their body:
    [!isError(rt) && (rt.Type() == RETURN_VALUE_OBJ || rt.Type() == ERROR_OBJ)]. *)
Definition loopReturns (rt : OBJ) : M bool :=
  if negb (isError rt) then
    t <- TypeOf rt ;;
    ret (object.ObjectType_eqb t object.RETURN_VALUE_OBJ
         || object.ObjectType_eqb t object.ERROR_OBJ)
  else ret false.

Fixpoint forLoop (n : nat) (cond cons : ast.Node) (env : ENV) : M OBJ :=
  match n with
  | O => outOfFuel
  | S n' =>
      condition <- Eval cond env ;;
      if isError condition then ret condition
      else if isTruthy condition then
        rt <- Eval cons env ;;
        stop <- loopReturns rt ;;
        if stop then ret rt else forLoop n' cond cons env
      else ret TRUE
  end.

Fixpoint foreachLoop (items : list (OBJ * OBJ)) (ident index : string)
    (body : ast.Node) (child : ENV) : M OBJ :=
  match items with
  | [] => ret NULL
  | (ret_, idx) :: rest =>
      Set_ child ident ret_ ;;
      (if negb (String.eqb index "") then Set_ child index idx else ret tt) ;;
      rt <- Eval body child ;;
      stop <- loopReturns rt ;;
      if stop then ret rt else foreachLoop rest ident index body child
  end.

Definition evalForeachExpression (ident index : string) (value body : ast.Node)
    (env : ENV) : M OBJ :=
  val <- Eval value env ;;
  match val ≫= iterate with
  | None =>
      t <- TypeOf val ;;
      ret (NewError (typeText t
                     +:+ " object doesn't implement the Iterable interface"))
  | Some items =>
      let permit := ident :: (if String.eqb index "" then [] else [index]) in
      child <- NewTemporaryScope env permit ;;
      foreachLoop items ident index body child
  end.

(** *** Hash literals and calls *)

Fixpoint evalHashPairs (pairs : list (object.HashKey * HashPair))
    (nodes : list (ast.Node * ast.Node)) (env : ENV) : M OBJ :=
  match nodes with
  | [] => ret (Some (object.Hash pairs))
  | (keyNode, valueNode) :: rest =>
      key <- Eval keyNode env ;;
      if isError key then ret key
      else match key ≫= HashKeyOf with
           | None =>
               t <- TypeOf key ;;
               ret (NewError ("unusable as hash key: " +:+ typeText t))
           | Some hashed =>
               value <- Eval valueNode env ;;
               if isError value then ret value
               else evalHashPairs (insertPair hashed (key, value) pairs) rest env
           end
  end.

Definition evalHashLiteral (nodes : list (ast.Node * ast.Node)) (env : ENV)
    : M OBJ :=
  evalHashPairs [] nodes env.

Fixpoint setDefaults (defaults : list (string * ast.Node)) (env : ENV)
    : M unit :=
  match defaults with
  | [] => ret tt
  | (key, val) :: rest =>
      v <- Eval val env ;;
      Set_ env key v ;;
      setDefaults rest env
  end.

Fixpoint setParameters (params : list string) (args : list OBJ) (env : ENV)
    : M unit :=
  match params, args with
  | param :: ps, arg :: rest => Set_ env param arg ;; setParameters ps rest env
  | _, _ => ret tt
  end.

Definition extendFunctionEnv (params : list string)
    (defaults : list (string * ast.Node)) (fenv : ENV) (args : list OBJ)
    : M ENV :=
  env <- NewEnclosedEnvironment fenv args ;;
  setDefaults defaults env ;;
  setParameters params args env ;;
  ret env.

Definition ApplyFunction (env : ENV) (fn : OBJ) (args : list OBJ) : M OBJ :=
  match fn with
  | Some (object.Function params defaults body fenv _) =>
      extendEnv <- extendFunctionEnv params defaults fenv args ;;
      evaluated <- Eval body extendEnv ;;
      ret (upwrapReturnValue evaluated)
  | Some (object.Builtin f) => callBuiltin f env args
  | _ =>
      t <- TypeOf fn ;;
      ret (NewError ("not a function: " +:+ typeText t))
  end.

(** A first argument that is the current-arguments Array is replaced by
    the current arguments of the caller's environment. *)
Definition spliceCurrentArgs (env : ENV) (args : list OBJ) : M (list OBJ) :=
  match args with
  | Some (object.Array _ true) :: rest =>
      newArgs <- currentArgs env ;;
      ret (newArgs ++ rest)
  | _ => ret args
  end.

(** The call site: the callee, the arguments, the splice of the current
    arguments, the application and the check of its result. *)
Definition evalCall (function : ast.Node) (arguments : list ast.Node)
    (env : ENV) : M OBJ :=
  fn <- Eval function env ;;
  if isError fn then ret fn
  else
    args <- evalExpression arguments env ;;
    args <- spliceCurrentArgs env args ;;
    res <- ApplyFunction env fn args ;;
    match res with
    | Some (object.Error _ code _ builtinCall as t) =>
        let c := match code with Some c => c | None => 1 end in
        if negb builtinCall then
          Eprint ("Error calling `" +:+ NodeString function +:+ "` : "
                  +:+ Inspect t +:+ newline) ;;
          ExitConditionally c ;;
          ret res
        else ret res
    | _ => ret res
    end.

End Walk.

(** *** The core function

    [ctx] is the cancellation state of the context handed to
    [evalContext]: the reason when it is done.  [Eval] always passes
    [context.Background()], which is never done.  The fuel bounds the
    depth of the walk and the number of rounds of a [for] loop. *)

Section Core.

Context `{Externals}.

Fixpoint evalContext (fuel : nat) (ctx : option string) (node : ast.Node)
    (env : ENV) {struct fuel} : M OBJ :=
  match fuel with
  | O => outOfFuel
  | S fuel' =>
      let Eval := evalContext fuel' None in
      match ctx with
      | Some reason => ret (Some (object.Error reason None "" false))
      | None =>
          match node with
          | ast.Program statements => evalProgram Eval statements env
          | ast.ExpressionStatement e => Eval e env
          | ast.IntegerLiteral v => ret (Some (object.Integer v))
          | ast.FloatLiteral v => ret (Some (object.Float v))
          | ast.Boolean v => ret (nativeBoolToBooleanObject v)
          | ast.NullLiteral => ret NULL
          | ast.PrefixExpression operator r =>
              right <- Eval r env ;;
              if isError right then ret right
              else evalPrefixExpression operator right
          | ast.PostfixExpression tokenLiteral operator =>
              evalPostfixExpression env operator tokenLiteral
          | ast.InfixExpression l operator r =>
              left <- Eval l env ;;
              if isError left then ret left
              else
                right <- Eval r env ;;
                if isError right then ret right
                else
                  res <- evalInfixExpression operator left right env ;;
                  match res with
                  | Some (object.Error _ _ _ _ as e) =>
                      Print ("Error: " +:+ Inspect e +:+ newline) ;;
                      ExitConditionally 1 ;;
                      ret res
                  | _ => ret res
                  end
          | ast.BlockStatement statements =>
              evalBlockStatement Eval statements env
          | ast.IfExpression condition consequence alternative =>
              evalIfExpression Eval condition consequence alternative env
          | ast.ImportExpression name => evalImportExpression Eval name env
          | ast.ForLoopExpression condition consequence =>
              forLoop Eval fuel' condition consequence env
          | ast.ForeachStatement ident index value body =>
              evalForeachExpression Eval ident index value body env
          | ast.ReturnStatement v =>
              val <- Eval v env ;;
              ret (Some (object.ReturnValue val))
          | ast.MutableStatement name v =>
              val <- Eval v env ;;
              Set_ env name val ;;
              ret val
          | ast.LetStatement name v =>
              val <- Eval v env ;;
              SetLet env name val ;;
              ret val
          | ast.Identifier name => evalIdentifier name env
          | ast.FunctionLiteral params defaults body docstring =>
              ret (Some (object.Function params defaults body env docstring))
          | ast.CallExpression function arguments =>
              evalCall Eval function arguments env
          | ast.ArrayLiteral els =>
              elements <- evalExpression Eval els env ;;
              match elements with
              | [Some (object.Error _ _ _ _) as e] => ret e
              | _ => ret (Some (object.Array elements false))
              end
          | ast.StringLiteral v =>
              s <- Interpolate Eval v env ;;
              ret (Some (object.String s))
          | ast.SpreadLiteral operand => evalSpread operand env
          | ast.CurrentArgsLiteral =>
              args <- currentArgs env ;;
              ret (Some (object.Array args true))
          | ast.IndexExpression l i =>
              left <- Eval l env ;;
              if isError left then ret left
              else
                index <- Eval i env ;;
                if isError index then ret index
                else evalIndexExpression left index env
          | ast.AssignStatement name operator value =>
              evalAssignStatement Eval name operator value env
          | ast.HashLiteral pairs => evalHashLiteral Eval pairs env
          | ast.Other _ => ret None
          end
      end
  end.

(** [Eval(node, env)]. *)
Definition Eval (fuel : nat) (node : ast.Node) (env : ENV) : M OBJ :=
  evalContext fuel None node env.

(** [Execute(input)] of the command, on the parsed standard library and
    the parsed program: both are evaluated in one fresh environment and
    the exit status is 0. *)
Definition Execute (fuel : nat) (stdlib program : ast.Node) : M Z :=
  env <- NewEnvironment ;;
  Eval fuel stdlib env ;;
  Eval fuel program env ;;
  ret 0.

End Core.

(** ** A concrete process, for the examples

    One choice of the outside code, in which the examples below are
    run: the renderings of the spec (section 4.A and scenario 2), a parser
    given by a table of the sources the examples use, and the built-ins
    the [init] functions of the sources register. *)

Module Sample.

Definition typeTag (t : object.ObjectType) : string :=
  match t with
  | object.INTEGER_OBJ => "INTEGER"
  | object.FLOAT_OBJ => "FLOAT"
  | object.BOOLEAN_OBJ => "BOOLEAN"
  | object.NULL_OBJ => "NULL"
  | object.STRING_OBJ => "STRING"
  | object.ARRAY_OBJ => "ARRAY"
  | object.HASH_OBJ => "HASH"
  | object.FUNCTION_OBJ => "FUNCTION"
  | object.BUILTIN_OBJ => "BUILTIN"
  | object.MODULE_OBJ => "MODULE"
  | object.ERROR_OBJ => "ERROR"
  | object.RETURN_VALUE_OBJ => "RETURN_VALUE"
  | object.FILE_OBJ => "FILE"
  end.

Fixpoint inspect (o : object.Object) : string :=
  match o with
  | object.Null => "null"
  | object.Boolean true => "true"
  | object.Boolean false => "false"
  | object.Integer v => itoa v
  | object.String v => v
  | object.Array els _ =>
      "[" +:+ joinWith ", "
                (map (fun e : OBJ => match e with
                                     | Some v => inspect v
                                     | None => "nil"
                                     end) els) +:+ "]"
  | object.Error message _ _ _ => "ERROR: " +:+ message
  | object.ReturnValue (Some v) => inspect v
  | other => typeTag (object.Type_ other)
  end.

Definition toFloat (z : Z) : float :=
  SF2Prim (binary_normalize 53 1024 z 0 false).

(** [int64(f)] as the conversion instruction of the 64-bit platforms
    gives it: the value truncated toward zero, and the most negative
    integer for a value out of range, an infinity or a NaN. *)
Definition toInt (f : float) : Z :=
  match Prim2SF f with
  | S754_zero _ => 0
  | S754_finite s m e =>
      let mag := if 0 <=? e then Z.pos m * 2 ^ e else Z.pos m / 2 ^ (- e) in
      let z := if s then - mag else mag in
      if (MinInt64 <=? z) && (z <=? MaxInt64) then z else MinInt64
  | _ => MinInt64
  end.

(** [x ** n] for a whole exponent, by repeated multiplication, the
    reciprocal for a negative one: [math.Pow] whenever the products are
    exact.  The examples raise to no other exponent. *)
Definition pow (x y : float) : float :=
  let n := toInt y in
  if PrimFloat.eqb (toFloat n) y then
    let p := Nat.iter (Z.to_nat (Z.abs n)) (PrimFloat.mul x) PrimFloat.one in
    if 0 <=? n then p else PrimFloat.div PrimFloat.one p
  else PrimFloat.nan.

(** [strconv.Unquote] of a double-quoted string: the escapes of one
    letter, [\x] with two hexadecimal digits, three octal digits, [\u]
    and [\U] with a valid rune; a syntax error for any other escape, a
    quote or a newline inside, or a missing quote. *)
Definition unhex (c : Z) : option Z :=
  if between 48 57 c then Some (c - 48)
  else if between 97 102 c then Some (c - 97 + 10)
  else if between 65 70 c then Some (c - 65 + 10)
  else None.

Fixpoint hexValue (acc : Z) (digits : list Z) : option Z :=
  match digits with
  | [] => Some acc
  | d :: rest =>
      match unhex d with
      | Some x => hexValue (acc * 16 + x) rest
      | None => None
      end
  end.

Definition validRune (r : Z) : bool :=
  (0 <=? r) && (r <=? 1114111) && negb (between 55296 57343 r).

Fixpoint unquoteRunes (l : list Z) : option (list Z) :=
  match l with
  | [] => Some []
  | c :: t =>
      if (c =? 34) || (c =? 10) then None
      else if negb (c =? 92) then
        option_map (app (if c <? 128 then [c] else encodeRune c))
          (unquoteRunes t)
      else
        match t with
        | [] => None
        | e :: t1 =>
            if e =? 97 then option_map (cons 7) (unquoteRunes t1)
            else if e =? 98 then option_map (cons 8) (unquoteRunes t1)
            else if e =? 102 then option_map (cons 12) (unquoteRunes t1)
            else if e =? 110 then option_map (cons 10) (unquoteRunes t1)
            else if e =? 114 then option_map (cons 13) (unquoteRunes t1)
            else if e =? 116 then option_map (cons 9) (unquoteRunes t1)
            else if e =? 118 then option_map (cons 11) (unquoteRunes t1)
            else if e =? 92 then option_map (cons 92) (unquoteRunes t1)
            else if e =? 34 then option_map (cons 34) (unquoteRunes t1)
            else if e =? 120 then
              match t1 with
              | h1 :: h2 :: t2 =>
                  match hexValue 0 [h1; h2] with
                  | Some v => option_map (cons v) (unquoteRunes t2)
                  | None => None
                  end
              | _ => None
              end
            else if e =? 117 then
              match t1 with
              | h1 :: h2 :: h3 :: h4 :: t2 =>
                  match hexValue 0 [h1; h2; h3; h4] with
                  | Some v =>
                      if validRune v
                      then option_map (app (encodeRune v)) (unquoteRunes t2)
                      else None
                  | None => None
                  end
              | _ => None
              end
            else if e =? 85 then
              match t1 with
              | h1 :: h2 :: h3 :: h4 :: h5 :: h6 :: h7 :: h8 :: t2 =>
                  match hexValue 0 [h1; h2; h3; h4; h5; h6; h7; h8] with
                  | Some v =>
                      if validRune v
                      then option_map (app (encodeRune v)) (unquoteRunes t2)
                      else None
                  | None => None
                  end
              | _ => None
              end
            else if between 48 55 e then
              match t1 with
              | d1 :: d2 :: t2 =>
                  if between 48 55 d1 && between 48 55 d2 then
                    let v := ((e - 48) * 8 + (d1 - 48)) * 8 + (d2 - 48) in
                    if 255 <? v then None
                    else option_map (cons v) (unquoteRunes t2)
                  else None
              | _ => None
              end
            else None
        end
  end.

Definition unquote (s : string) : option string :=
  match bytesOf s with
  | first :: rest =>
      if (first =? 34) && (List.last rest 0 =? 34)
      then option_map ofBytes (unquoteRunes (toRunes (removelast rest)))
      else None
  | [] => None
  end.

(** The source of a module that imports itself as long as the file
    [/once] is there to be removed:
    [let again = fs.rm("/once"); print(again); if (again) { import "m" }]. *)
Definition reentrantSource : string :=
  "let again = fs.rm(" +:+ quote +:+ "/once" +:+ quote
  +:+ "); print(again); if (again) { import " +:+ quote +:+ "m" +:+ quote
  +:+ " }".

Definition reentrantProgram : ast.Node :=
  ast.Program
    [ast.LetStatement "again"
       (ast.CallExpression (ast.Identifier "fs.rm") [ast.StringLiteral "/once"]);
     ast.ExpressionStatement
       (ast.CallExpression (ast.Identifier "print") [ast.Identifier "again"]);
     ast.ExpressionStatement
       (ast.IfExpression (ast.Identifier "again")
          (ast.BlockStatement
             [ast.ExpressionStatement
                (ast.ImportExpression (ast.StringLiteral "m"))])
          None)].

(** The sources the examples parse, with their programs. *)
Definition sources : list (string * ast.Node) :=
  [ ("", ast.Program []);
    (reentrantSource, reentrantProgram);
    ("y", ast.Program [ast.ExpressionStatement (ast.Identifier "y")]);
    ("n++", ast.Program [ast.ExpressionStatement (ast.PostfixExpression "n" "++")]);
    ("1+2", ast.Program
              [ast.ExpressionStatement
                 (ast.InfixExpression (ast.IntegerLiteral 1) "+"
                    (ast.IntegerLiteral 2))]);
    ("let answer = 42; print(answer)",
     ast.Program
       [ast.LetStatement "answer" (ast.IntegerLiteral 42);
        ast.ExpressionStatement
          (ast.CallExpression (ast.Identifier "print")
             [ast.Identifier "answer"])]) ].

Definition parse (src : string) : ast.Node * list string :=
  match list_find (fun p : string * ast.Node => p.1 = src) sources with
  | Some (_, (_, program)) => (program, [])
  | None => (ast.Program [], ["no parse"])
  end.

#[local] Instance externals : Externals := {|
  ParseProgram := parse;
  renderNode := fun _ => "expression";
  Inspect := inspect;
  JSON := fun o _ => inspect o;
  GetMethod := fun _ _ => None;
  TypeName := typeTag;
  SystemTypesMap := fun _ => true;
  iterOther := fun _ => None;
  sameObject := fun _ _ => false;
  mathPow := pow;
  float64 := toFloat;
  int64 := toInt;
  Unquote := unquote;
  filepathJoin := fun dir base => dir +:+ "/" +:+ base;
  fmtValue := fun o => match o with Some v => inspect v | None => "nil" end;
  NewError2 := fun message => object.Error message None "" false;
  callNative := fun _ _ _ => ret NULL
|}.

(** The registry after the [init] functions of the sources have run. *)
Definition registered : gmap string object.BuiltinFunction :=
  list_to_map
    [ ("print", object.printFn); ("error", object.errorFn);
      ("panic", object.panicFn); ("math.abs", object.mathAbs);
      ("math.rand", object.native "math.rand");
      ("math.sqrt", object.native "math.sqrt");
      ("fs.glob", object.native "fs.glob");
      ("fs.chmod", object.native "fs.chmod");
      ("fs.mkdir", object.native "fs.mkdir");
      ("fs.open", object.native "fs.open");
      ("fs.stat", object.native "fs.stat");
      ("fs.rm", object.rmFn);
      ("fs.mv", object.native "fs.mv");
      ("fs.cp", object.native "fs.cp");
      ("fs.tmpl", object.templateFn);
      ("http.create_client", object.native "http.create_client") ].

(** A process started on a program (not the REPL), with one global
    environment and the files given. *)
Definition process (globals : list (string * (OBJ * bool)))
    (disk : list (string * (string + string))) : State :=
  mkState [mkFrame (list_to_map globals) None None []] ∅ registered
    ["/lib"] (list_to_map disk) "" "" false.

Definition global : ENV := 0%nat.

(** A process whose only global is the mutable [n]. *)
Definition counter (n : Z) : State :=
  process [("n", (Some (object.Integer n), false))] [].

Definition call (name : string) (arguments : list ast.Node) : ast.Node :=
  ast.CallExpression (ast.Identifier name) arguments.

Definition block (expressions : list ast.Node) : ast.Node :=
  ast.BlockStatement (map ast.ExpressionStatement expressions).

(** [if (c) { 1 } else { 2 }] *)
Definition ifOneElseTwo (c : ast.Node) : ast.Node :=
  ast.IfExpression c (block [ast.IntegerLiteral 1])
    (Some (block [ast.IntegerLiteral 2])).

(** A process with no global and the module [m] on its search path. *)
Definition library : State :=
  process [] [("/lib/m.keai", inl "let answer = 42; print(answer)")].

(** What the module exports, the state once it has been evaluated (its
    environment is the second frame and its output is on standard output)
    and the Module value the import builds. *)
Definition answerAttrs : OBJ :=
  Some (object.Hash
          [(object.KeyString "answer",
            (Some (object.String "answer"), Some (object.Integer 42)))]).

Definition evaluated : State :=
  mkState
    [mkFrame ∅ None None [];
     mkFrame {["answer" := (Some (object.Integer 42), true)]} None None []]
    ∅ registered ["/lib"] (files library) ("42 " +:+ newline) "" false.

Definition moduleM : OBJ := Some (object.Module "m" answerAttrs).

Definition loaded : State :=
  setImportCache (<["m" := moduleM]> (importCache evaluated)) evaluated.

(** A process with no global, the module [m] that imports itself on
    its search path, and the file [/once]. *)
Definition reentrant : State :=
  process [] [("/lib/m.keai", inl reentrantSource); ("/once", inl "")].

(** What that module exports when it has removed the file. *)
Definition againAttrs (removed : bool) : OBJ :=
  Some (object.Hash
          [(object.KeyString "again",
            (Some (object.String "again"), Some (object.Boolean removed)))]).

(** A process whose globals are [integer.n], an Integer, and [object.f],
    the function [fn() { self }]. *)
Definition selfBody : ast.Node := block [ast.Identifier "self"].
Definition methods : State :=
  process
    [("integer.n", (Some (object.Integer 7), false));
     ("object.f", (Some (object.Function [] [] selfBody global ""), false))]
    [].

(** A process whose only global is the immutable [k]. *)
Definition constant (k : Z) : State :=
  process [("k", (Some (object.Integer k), true))] [].

(** [foreach x in [1, 2] { n++; error("boom") }] *)
Definition failingBody : ast.Node :=
  block [ast.PostfixExpression "n" "++";
         call "error" [ast.StringLiteral "boom"]].
Definition failingLoop : ast.Node :=
  ast.ForeachStatement "x" ""
    (ast.ArrayLiteral [ast.IntegerLiteral 1; ast.IntegerLiteral 2]) failingBody.

End Sample.

(** ** Notions used in the statements *)

(** The pairs of operands [evalInfixExpression] hands to the helper of
    their type before it looks at the operator: two Integers, two Floats,
    an Integer and a Float, two Strings. *)
Definition typedOperands (l r : object.Object) : bool :=
  match object.Type_ l, object.Type_ r with
  | object.INTEGER_OBJ, object.INTEGER_OBJ
  | object.FLOAT_OBJ, object.FLOAT_OBJ
  | object.FLOAT_OBJ, object.INTEGER_OBJ
  | object.INTEGER_OBJ, object.FLOAT_OBJ
  | object.STRING_OBJ, object.STRING_OBJ => true
  | _, _ => false
  end.

(** The state a result carries, if any. *)
Definition finalState {A} (r : Result A) : option State :=
  match r with
  | Ok _ st | Exit _ st | GoPanic _ st => Some st
  | OutOfFuel => None
  end.

(** The arguments from which [errorFn] builds the Error asked for: one
    String, or one Hash whose [message], if any, is a String and whose
    [code], if any, is an Integer. *)
Definition wellFormedErrorHash (pairs : list (object.HashKey * HashPair))
    : bool :=
  match pairValue pairs "message" with
  | None | Some (object.String _) => true
  | Some _ => false
  end
  && match pairValue pairs "code" with
     | None | Some (object.Integer _) => true
     | Some _ => false
     end.

Definition buildsError (args : list OBJ) : bool :=
  match args with
  | [Some (object.String _)] => true
  | [Some (object.Hash pairs)] => wellFormedErrorHash pairs
  | _ => false
  end.

(** The exit code of an Error: its code, 1 without one. *)
Definition exitCode (code : option Z) : Z :=
  match code with
  | Some c => c
  | None => 1
  end.

(** A frame that does not permit a name does not bind it: writes to the
    name were all passed on to the parent. *)
Definition scopesWellFormed (h : list Frame) : Prop :=
  forall e f name,
    h !! e = Some f -> permits f name = false -> store f !! name = None.

(** A write to [name] from [e] is accepted: it reaches a frame, in which
    [name] is not immutable. *)
Definition assignable (h : list Frame) (e : ENV) (name : string) : bool :=
  match targetFrame (S e) h e name with
  | Some (_, f) => negb (isImmutableIn f name)
  | None => false
  end.

(** [s] has no byte [c]. *)
Fixpoint lacks (c : ascii) (s : string) : bool :=
  match s with
  | EmptyString => true
  | String.String a s' => negb (Ascii.eqb a c) && lacks c s'
  end.

(** A string literal with one interpolation fragment: text without a
    brace or a backslash, the fragment, text without an opening brace. *)
Definition oneFragment (pre name post : string) : string :=
  pre +:+ "{{" +:+ name +:+ "}}" +:+ post.

Definition fragmentShape (pre name post : string) : bool :=
  lacks "{" pre && lacks "\" pre && lacks "}" name && lacks "{" post.

(** Text that opens no fragment: it has no two opening braces in a row. *)
Fixpoint noOpening (t : string) : bool :=
  match t with
  | EmptyString => true
  | String.String c t' =>
      negb (Ascii.eqb c "{"
            && match t' with
               | String.String d _ => Ascii.eqb d "{"
               | EmptyString => false
               end)
      && noOpening t'
  end.

(** Text that may stand before a fragment: it opens none and ends
    neither in an opening brace nor in a backslash, which would make
    the fragment another one or an escaped one. *)
Fixpoint closedText (t : string) : bool :=
  match t with
  | EmptyString => true
  | String.String c t' =>
      match t' with
      | EmptyString => negb (Ascii.eqb c "{") && negb (Ascii.eqb c "\")
      | String.String d _ =>
          negb (Ascii.eqb c "{" && Ascii.eqb d "{") && closedText t'
      end
  end.

(** The result of a literal that is [prefix] followed by the rest of the
    literal, from the result of that rest: the String with [prefix]
    before it, and any other end as it is. *)
Definition prefixed (prefix : string) (r : Result OBJ) : Result OBJ :=
  match r with
  | Ok (Some (object.String x)) st =>
      Ok (Some (object.String (prefix +:+ x))) st
  | other => other
  end.

(** [k] full rounds of the loop [for (cond) { cons }], sub-nodes
    evaluated with [fuel], lead from one state to another: in each
    round the condition evaluates to a value that is no Error, not
    [false] and not Null, and the body to a value that is no
    ReturnValue. *)
Inductive forRounds `{Externals} (fuel : nat) (cond cons : ast.Node)
    (env : ENV) : nat -> State -> State -> Prop :=
| forRounds_none (st : State) : forRounds fuel cond cons env 0 st st
| forRounds_more (k : nat) (st : State) (c : OBJ) (st1 : State)
    (rt : object.Object) (st2 st3 : State) :
    Eval fuel cond env st = Ok c st1 ->
    (forall m code data flag, c <> Some (object.Error m code data flag)) ->
    c <> Some (object.Boolean false) ->
    c <> Some object.Null ->
    Eval fuel cons env st1 = Ok (Some rt) st2 ->
    (forall r, rt <> object.ReturnValue r) ->
    forRounds fuel cond cons env k st2 st3 ->
    forRounds fuel cond cons env (S k) st st3.

(** A computation keeps a property of the state when the state it
    leaves, however it ends, has the property whenever the state it starts
    in has it. *)
Definition keeps {A} (P : State -> Prop) (m : M A) : Prop :=
  forall st,
    P st ->
    match finalState (m st) with
    | Some st' => P st'
    | None => True
    end.

(** The module cache holds [module] under [key]. *)
Definition cached (key : string) (module : OBJ) (st : State) : Prop :=
  importCache st !! key = Some module.

(** The native functions that are not embedded here do not touch the
    module cache, a variable private to the evaluator that no function
    outside it can name.  The natives that re-enter the evaluator,
    [fs.tmpl] among them, are embedded and not covered by this. *)
Definition nativesKeepCache `{Externals} : Prop :=
  forall name env args st,
    match finalState (callNative name env args st) with
    | Some st' => importCache st' = importCache st
    | None => True
    end.

(** ** Notions used in the further properties *)

(** A String whose inspection holds a backslash, which [print] unquotes. *)
Definition escaped `{Externals} (a : object.Object) : bool :=
  object.ObjectType_eqb (object.Type_ a) object.STRING_OBJ
  && Contains (Inspect a) "\".

(** The inspections of the values, a space after each. *)
Definition printedText `{Externals} (objs : list object.Object) : string :=
  fold_right (fun a acc => Inspect a +:+ " " +:+ acc) EmptyString objs.

(** A computation that only reads: it ends normally or in a Go panic,
    and in the state it started in. *)
Definition readsOnly {A} (m : M A) : Prop :=
  forall st,
    (exists a, m st = Ok a st) \/ (exists msg, m st = GoPanic msg st).

(** [trimQuotes(in, c)]: the string without its first and last byte when
    both are [c]. *)
Definition trimQuotes (s : string) (c : ascii) : string :=
  let n := String.length s in
  if (2 <=? n)%nat then
    match String.get 0 s, String.get (n - 1) s with
    | Some a, Some b =>
        if Ascii.eqb a c && Ascii.eqb b c
        then String.substring 1 (n - 2) s
        else s
    | _, _ => s
    end
  else s.

(** [NewHash(x)]: the Hash that holds, for each name of the Go map, the
    String of the name and the value, under the key of that String. *)
Definition NewHash (x : gmap string OBJ) : object.Object :=
  object.Hash
    (map_fold
       (fun k v res => insertPair (object.KeyString k)
                         (Some (object.String k), v) res)
       [] x).

(** The bindings a call makes: each parameter that has an argument is
    bound to it, mutable, a later parameter of the same name over an
    earlier one. *)
Definition boundParameters (params : list string) (args : list OBJ)
    (store : gmap string (OBJ * bool)) : gmap string (OBJ * bool) :=
  fold_left (fun m (pa : string * OBJ) => <[pa.1 := (pa.2, false)]> m)
    (zip params args) store.

(** * Properties *)

(** [isError] holds of the Errors and of nothing else. *)
Lemma isError_spec (c : OBJ) :
  isError c = false
  <-> forall m code data flag, c <> Some (object.Error m code data flag).
Proof.
  split.
  - intros Hc m code data flag ->. discriminate Hc.
  - intros Hc. destruct c as [[] |]; try reflexivity. now edestruct Hc.
Qed.

Lemma isError_true (c : OBJ) :
  isError c = true
  <-> exists m code data flag, c = Some (object.Error m code data flag).
Proof.
  split.
  - destruct c as [[] |]; try discriminate. eauto.
  - intros (m & code & data & flag & ->). reflexivity.
Qed.

(** ** Unfolding the core function, one node kind at a time *)

Section Equations.

Context `{Externals}.

Lemma Eval_infix fuel l operator r env :
  Eval (S fuel) (ast.InfixExpression l operator r) env =
  (left <- Eval fuel l env ;;
   if isError left then ret left
   else
     right <- Eval fuel r env ;;
     if isError right then ret right
     else
       res <- evalInfixExpression operator left right env ;;
       match res with
       | Some (object.Error _ _ _ _ as e) =>
           Print ("Error: " +:+ Inspect e +:+ newline) ;;
           ExitConditionally 1 ;;
           ret res
       | _ => ret res
       end).
Proof. reflexivity. Qed.

Lemma Eval_if fuel cond cons alt env :
  Eval (S fuel) (ast.IfExpression cond cons alt) env =
  evalIfExpression (Eval fuel) cond cons alt env.
Proof. reflexivity. Qed.

Lemma Eval_call fuel function arguments env :
  Eval (S fuel) (ast.CallExpression function arguments) env =
  evalCall (Eval fuel) function arguments env.
Proof. reflexivity. Qed.

Lemma Eval_postfix fuel name operator env :
  Eval (S fuel) (ast.PostfixExpression name operator) env =
  evalPostfixExpression env operator name.
Proof. reflexivity. Qed.

Lemma Eval_import fuel name env :
  Eval (S fuel) (ast.ImportExpression name) env =
  evalImportExpression (Eval fuel) name env.
Proof. reflexivity. Qed.

Lemma Eval_string fuel v env :
  Eval (S fuel) (ast.StringLiteral v) env =
  (s <- Interpolate (Eval fuel) v env ;; ret (Some (object.String s))).
Proof. reflexivity. Qed.

Lemma Eval_integer fuel v env st :
  Eval (S fuel) (ast.IntegerLiteral v) env st = Ok (Some (object.Integer v)) st.
Proof. reflexivity. Qed.

Lemma Eval_index fuel l i env :
  Eval (S fuel) (ast.IndexExpression l i) env =
  (left <- Eval fuel l env ;;
   if isError left then ret left
   else
     index <- Eval fuel i env ;;
     if isError index then ret index
     else evalIndexExpression left index env).
Proof. reflexivity. Qed.

Lemma Eval_foreach fuel ident index value body env :
  Eval (S fuel) (ast.ForeachStatement ident index value body) env =
  evalForeachExpression (Eval fuel) ident index value body env.
Proof. reflexivity. Qed.

(** Running a computation whose first part is known. *)
Lemma bind_Ok {A B} (m : M A) (k : A -> M B) st a st' :
  m st = Ok a st' -> bind m k st = k a st'.
Proof. unfold bind. intros ->. reflexivity. Qed.

Lemma bind_Exit {A B} (m : M A) (k : A -> M B) st c st' :
  m st = Exit c st' -> bind m k st = Exit c st'.
Proof. unfold bind. intros ->. reflexivity. Qed.

Lemma bind_GoPanic {A B} (m : M A) (k : A -> M B) st msg st' :
  m st = GoPanic msg st' -> bind m k st = GoPanic msg st'.
Proof. unfold bind. intros ->. reflexivity. Qed.

End Equations.

(** ** Integer division *)

Section Division.

Context `{Externals}.

(** C9. [a / 0] and [a % 0] reach Go's integer division with no test of
    the divisor: the run-time panic, not an Error of the evaluator. *)
Theorem division_by_zero_panics (a : Z) (st : State) :
  evalIntegerInfixExpression "/" (object.Integer a) (object.Integer 0) st
    = GoPanic "integer divide by zero" st
  /\ evalIntegerInfixExpression "%" (object.Integer a) (object.Integer 0) st
    = GoPanic "integer divide by zero" st
  /\ forall fuel env,
      Eval (S (S fuel))
        (ast.InfixExpression (ast.IntegerLiteral a) "/" (ast.IntegerLiteral 0))
        env st
      = GoPanic "integer divide by zero" st.
Proof.
  split; [reflexivity | split; [reflexivity |]].
  intros fuel env. rewrite Eval_infix.
  rewrite (bind_Ok _ _ _ _ _ (Eval_integer fuel a env st)). cbn [isError].
  rewrite (bind_Ok _ _ _ _ _ (Eval_integer fuel 0 env st)). cbn [isError].
  reflexivity.
Qed.

(** With a divisor other than zero the quotient truncates towards zero
    and the remainder takes the sign of the dividend. *)
Lemma division_defined (a b : Z) (st : State) :
  b <> 0 ->
  evalIntegerInfixExpression "/" (object.Integer a) (object.Integer b) st
    = Ok (Some (object.Integer (wrap64 (Z.quot a b)))) st
  /\ evalIntegerInfixExpression "%" (object.Integer a) (object.Integer b) st
    = Ok (Some (object.Integer (Z.rem a b))) st.
Proof.
  intros Hb. unfold evalIntegerInfixExpression. cbn.
  destruct (Z.eqb_spec b 0) as [-> | _]; [contradiction | ].
  split; reflexivity.
Qed.

End Division.

(** ** Machine arithmetic and runes *)

Lemma wrap64_id (z : Z) : int64_range z -> wrap64 z = z.
Proof.
  unfold int64_range, MinInt64, MaxInt64, wrap64. intros Hz.
  rewrite Z.mod_small; lia.
Qed.

Lemma wrap64_range (z : Z) : int64_range (wrap64 z).
Proof.
  unfold int64_range, MinInt64, MaxInt64, wrap64.
  pose proof (Z.mod_pos_bound (z + 2 ^ 63) (2 ^ 64) eq_refl). lia.
Qed.

(** A rune takes at least one byte. *)
Lemma toRunes_length_le (n : nat) :
  forall s : list Z, (length s <= n)%nat -> (length (toRunes s) <= length s)%nat.
Proof.
  induction n as [| n IH]; intros s Hn.
  - destruct s; [simpl; lia | simpl in Hn; lia].
  - destruct s as [| b0 t]; [simpl; lia |].
    simpl in Hn.
    assert (Ht : (length (toRunes t) <= length t)%nat) by (apply IH; lia).
    cbn [toRunes].
    repeat match goal with
           | |- context [if ?c then _ else _] => destruct c
           | |- context [match ?l with [] => _ | _ :: _ => _ end] =>
               is_var l; destruct l
           end;
      cbn [length] in *;
      try lia;
      match goal with
      | |- (S (length (toRunes ?u)) <= _)%nat =>
          assert (length (toRunes u) <= length u)%nat
            by (apply IH; cbn [length] in *; lia);
          cbn [length] in *; lia
      end.
Qed.

Lemma bytesOf_length (s : string) : length (bytesOf s) = String.length s.
Proof.
  unfold bytesOf. rewrite length_map.
  induction s as [| c s IHs]; simpl; [reflexivity | now rewrite IHs].
Qed.

Lemma runeCount_le_len (s : string) :
  Z.of_nat (length (runesOf s)) <= len s.
Proof.
  unfold runesOf, len.
  pose proof (toRunes_length_le (length (bytesOf s)) (bytesOf s) (le_n _)) as Hle.
  rewrite bytesOf_length in Hle. lia.
Qed.

(** ** Indexing a String *)

Section StringIndex.

Context `{Externals}.

(** C10. The guard of [evalStringIndexExpression] compares the index with
    the length in bytes and lets an index equal to it through: indexing a
    String at its length is Go's index-out-of-range panic. *)
Theorem string_index_at_length_panics (s : string) (env : ENV) (st : State) :
  evalStringIndexExpression (object.String s)
    (Some (object.Integer (len s))) env st
  = GoPanic "index out of range" st.
Proof.
  unfold evalStringIndexExpression.
  assert (Hlen : 0 <= len s) by (unfold len; lia).
  destruct (Z.ltb_spec (len s) 0) as [? | _]; [lia |].
  destruct (Z.gtb_spec (len s) (len s)) as [? | _]; [lia |].
  cbn [orb].
  pose proof (runeCount_le_len s) as Hle.
  rewrite (proj2 (lookup_ge_None (runesOf s) (Z.to_nat (len s)))) by lia.
  reflexivity.
Qed.

(** The three ranges of an Integer index. *)
Lemma string_index_cases (s : string) (i : Z) (env : ENV) (st : State) :
  let count := Z.of_nat (length (runesOf s)) in
  (0 <= i < count ->
   exists r, runesOf s !! Z.to_nat i = Some r
     /\ evalStringIndexExpression (object.String s) (Some (object.Integer i)) env st
        = Ok (Some (object.String (stringOfRune r))) st)
  /\ (count <= i <= len s ->
      evalStringIndexExpression (object.String s) (Some (object.Integer i)) env st
      = GoPanic "index out of range" st)
  /\ (i < 0 \/ len s < i ->
      evalStringIndexExpression (object.String s) (Some (object.Integer i)) env st
      = Ok NULL st).
Proof.
  intros count. pose proof (runeCount_le_len s) as Hle. fold count in Hle.
  unfold evalStringIndexExpression. repeat split.
  - intros Hi.
    destruct (lookup_lt_is_Some_2 (runesOf s) (Z.to_nat i) ltac:(lia)) as [r Hr].
    exists r. split; [exact Hr |].
    destruct (Z.ltb_spec i 0); [lia |].
    destruct (Z.gtb_spec i (len s)); [lia |]. cbn [orb]. now rewrite Hr.
  - intros Hi.
    destruct (Z.ltb_spec i 0); [lia |].
    destruct (Z.gtb_spec i (len s)); [lia |]. cbn [orb].
    now rewrite (proj2 (lookup_ge_None (runesOf s) (Z.to_nat i))) by lia.
  - intros [Hi | Hi].
    + destruct (Z.ltb_spec i 0); [reflexivity | lia].
    + destruct (Z.gtb_spec i (len s)); [now rewrite orb_true_r | lia].
Qed.

End StringIndex.

(** ** The range operator *)

Lemma rangeElements_length (n : nat) (a : Z) : length (rangeElements n a) = n.
Proof.
  revert a. induction n as [| n IH]; intros a; simpl; [reflexivity |].
  now rewrite IH.
Qed.

Lemma rangeElements_lookup (n : nat) :
  forall (a : Z) (i : nat),
    (i < n)%nat -> MinInt64 <= a -> a + Z.of_nat n - 1 <= MaxInt64 ->
    rangeElements n a !! i = Some (Some (object.Integer (a + Z.of_nat i))).
Proof.
  induction n as [| n IH]; intros a i Hi Ha Hb; [lia |].
  destruct i as [| i]; simpl.
  - now rewrite Z.add_0_r.
  - rewrite wrap64_id by (unfold int64_range; lia).
    rewrite IH by lia. do 3 f_equal. lia.
Qed.

Section Range.

Context `{Externals}.

(** C5. [5..1]: the length handed to [make] is negative, and [make]
    panics. *)
Theorem range_descending_panics (st : State) :
  evalIntegerInfixExpression ".." (object.Integer 5) (object.Integer 1) st
    = GoPanic "makeslice: len out of range" st
  /\ forall fuel env,
      Eval (S (S fuel))
        (ast.InfixExpression (ast.IntegerLiteral 5) ".." (ast.IntegerLiteral 1))
        env st
      = GoPanic "makeslice: len out of range" st.
Proof.
  split; [reflexivity |].
  intros fuel env. rewrite Eval_infix.
  rewrite (bind_Ok _ _ _ _ _ (Eval_integer fuel 5 env st)). cbn [isError].
  rewrite (bind_Ok _ _ _ _ _ (Eval_integer fuel 1 env st)). cbn [isError].
  reflexivity.
Qed.

(** Whenever [b] is below [a - 1] (and the difference does not wrap), the
    length is negative. *)
Lemma range_below_panics (a b : Z) (st : State) :
  MinInt64 <= b - a < -1 ->
  evalIntegerInfixExpression ".." (object.Integer a) (object.Integer b) st
  = GoPanic "makeslice: len out of range" st.
Proof.
  intros Hab. unfold evalIntegerInfixExpression. cbn.
  rewrite (wrap64_id (b - a)) by (unfold int64_range, MinInt64, MaxInt64 in *; lia).
  rewrite wrap64_id by (unfold int64_range, MinInt64, MaxInt64 in *; lia).
  unfold makesliceFails.
  destruct (Z.ltb_spec (b - a + 1) 0); [reflexivity | lia].
Qed.

(** A length whose elements take more than [make] can allocate panics
    as well. *)
Lemma range_too_long_panics (a b : Z) (st : State) :
  int64_range a -> int64_range b -> -1 <= b - a < MaxInt64 ->
  maxAlloc < (b - a + 1) * 16 ->
  evalIntegerInfixExpression ".." (object.Integer a) (object.Integer b) st
  = GoPanic "makeslice: len out of range" st.
Proof.
  unfold int64_range, MinInt64, MaxInt64. intros Ha Hb Hab Hmake.
  unfold evalIntegerInfixExpression. cbn.
  rewrite (wrap64_id (b - a)) by (unfold int64_range, MinInt64, MaxInt64; lia).
  rewrite wrap64_id by (unfold int64_range, MinInt64, MaxInt64; lia).
  unfold makesliceFails.
  destruct (Z.ltb_spec maxAlloc ((b - a + 1) * 16)); [| lia].
  now rewrite orb_true_r.
Qed.

(** The ascending range that [make] accepts: [b - a + 1] elements, the
    one at [i] being [a + i]; and the empty Array for [b = a - 1]. *)
Lemma range_ascending (a b : Z) (st : State) :
  int64_range a -> int64_range b -> -1 <= b - a < MaxInt64 ->
  (b - a + 1) * 16 <= maxAlloc ->
  exists elements,
    evalIntegerInfixExpression ".." (object.Integer a) (object.Integer b) st
      = Ok (Some (object.Array elements false)) st
    /\ Z.of_nat (length elements) = b - a + 1
    /\ forall i, 0 <= i < b - a + 1 ->
         elements !! Z.to_nat i = Some (Some (object.Integer (a + i))).
Proof.
  unfold int64_range, MinInt64, MaxInt64. intros Ha Hb Hab Hmake.
  exists (rangeElements (Z.to_nat (b - a + 1)) a).
  unfold evalIntegerInfixExpression. cbn.
  rewrite (wrap64_id (b - a)) by (unfold int64_range, MinInt64, MaxInt64; lia).
  rewrite wrap64_id by (unfold int64_range, MinInt64, MaxInt64; lia).
  unfold makesliceFails.
  destruct (Z.ltb_spec (b - a + 1) 0); [lia |].
  destruct (Z.ltb_spec maxAlloc ((b - a + 1) * 16)); [lia |]. cbn [orb].
  split; [reflexivity |]. split.
  - rewrite rangeElements_length. lia.
  - intros i Hi.
    rewrite rangeElements_lookup by (unfold MinInt64, MaxInt64; lia).
    do 3 f_equal. lia.
Qed.

End Range.

(** ** Conditions *)

Section Truthiness.

Context `{Externals}.

(** C2, as the code has it.  An [if] takes its consequence unless the
    condition is False or Null: the empty String, the Integer 0, the Float
    0.0, the empty Array and the empty Hash select the consequence too. *)
Theorem if_selects_by_isTruthy fuel cond cons alt env st c st1 :
  Eval fuel cond env st = Ok c st1 ->
  isError c = false ->
  Eval (S fuel) (ast.IfExpression cond cons alt) env st
  = (if isTruthy c then Eval fuel cons env st1
     else match alt with
          | Some a => Eval fuel a env st1
          | None => Ok NULL st1
          end)
  /\ (isTruthy c = false <-> c = FALSE \/ c = NULL)
  /\ isTruthy (Some (object.String "")) = true
  /\ isTruthy (Some (object.Integer 0)) = true
  /\ isTruthy (Some (object.Float PrimFloat.zero)) = true
  /\ (forall b, isTruthy (Some (object.Array [] b)) = true)
  /\ isTruthy (Some (object.Hash [])) = true.
Proof.
  intros Hcond Herr. split; [| split].
  - rewrite Eval_if. unfold evalIfExpression.
    rewrite (bind_Ok _ _ _ _ _ Hcond), Herr.
    destruct (isTruthy c); [reflexivity |]. now destruct alt.
  - unfold FALSE, NULL. split.
    + destruct c as [[| [|] | | | | | | | | | | |] |]; cbn; intros; try discriminate; auto.
    + intros [-> | ->]; reflexivity.
  - repeat split.
Qed.

(** The wider notion of falsity is the one of [&&] and [||]. *)
Lemma objectToNativeBoolean_falsy :
  objectToNativeBoolean (Some (object.String "")) = false
  /\ objectToNativeBoolean (Some (object.Integer 0)) = false
  /\ objectToNativeBoolean (Some (object.Float PrimFloat.zero)) = false
  /\ (forall b, objectToNativeBoolean (Some (object.Array [] b)) = false)
  /\ objectToNativeBoolean (Some (object.Hash [])) = false
  /\ objectToNativeBoolean FALSE = false
  /\ objectToNativeBoolean NULL = false.
Proof. repeat split. Qed.

(** The notion of truth of [&&] and [||]: a value other than the
    wrapper of [return] is falsy exactly when it is False, Null, the
    empty String, the Integer 0, a Float equal to 0.0, an empty Array or
    an empty Hash. *)
Lemma objectToNativeBoolean_spec (o : object.Object) :
  (forall v, o <> object.ReturnValue v) ->
  objectToNativeBoolean (Some o) = false
  <-> o = object.Boolean false \/ o = object.Null \/ o = object.String ""
      \/ o = object.Integer 0
      \/ (exists f, o = object.Float f /\ PrimFloat.eqb f PrimFloat.zero = true)
      \/ (exists b, o = object.Array [] b)
      \/ o = object.Hash [].
Proof.
  intros Hwrap. destruct o; cbn.
  - intuition.
  - destruct Value; [split; [discriminate |] | intuition].
    intros [[=] | [[=] | [[=] | [[=] | [[? [[=] _]] | [[? [=]] | [=]]]]]]].
  - destruct (Z.eqb_spec Value 0) as [-> | Hne]; [intuition |].
    split; [discriminate |].
    intros [[=] | [[=] | [[=] | [[=] | [[? [[=] _]] | [[? [=]] | [=]]]]]]].
    congruence.
  - destruct (PrimFloat.eqb Value PrimFloat.zero) eqn:Hz.
    + split; [| reflexivity]. intros _. do 4 right. left. eauto.
    + split; [discriminate |].
      intros [[=] | [[=] | [[=] | [[=] | [[? [[=] Hf]] | [[? [=]] | [=]]]]]]].
      subst. congruence.
  - destruct (String.eqb_spec Value "") as [-> | Hne]; cbn; [intuition |].
    split; [discriminate |].
    intros [[=] | [[=] | [[=] | [[=] | [[? [[=] _]] | [[? [=]] | [=]]]]]]].
    congruence.
  - destruct Elements as [| e els]; cbn.
    + split; [| reflexivity]. intros _. do 5 right. left. eauto.
    + split; [discriminate |].
      intros [[=] | [[=] | [[=] | [[=] | [[? [[=] _]] | [[? [=]] | [=]]]]]]].
  - destruct Pairs as [| p ps]; cbn; [intuition |].
    split; [discriminate |].
    intros [[=] | [[=] | [[=] | [[=] | [[? [[=] _]] | [[? [=]] | [=]]]]]]].
  - split; [discriminate |].
    intros [[=] | [[=] | [[=] | [[=] | [[? [[=] _]] | [[? [=]] | [=]]]]]]].
  - split; [discriminate |].
    intros [[=] | [[=] | [[=] | [[=] | [[? [[=] _]] | [[? [=]] | [=]]]]]]].
  - split; [discriminate |].
    intros [[=] | [[=] | [[=] | [[=] | [[? [[=] _]] | [[? [=]] | [=]]]]]]].
  - split; [discriminate |].
    intros [[=] | [[=] | [[=] | [[=] | [[? [[=] _]] | [[? [=]] | [=]]]]]]].
  - now destruct (Hwrap Value).
  - split; [discriminate |].
    intros [[=] | [[=] | [[=] | [[=] | [[? [[=] _]] | [[? [=]] | [=]]]]]]].
Qed.

(** C1, as the code has it.  Both operands of [&&] and [||] are
    evaluated, the left one first; the right one is evaluated in the state
    the left one leaves, whatever the left value, and its exit or panic is
    that of the whole expression.  A right operand that yields an Error
    makes that Error the value of the expression.  Otherwise, for
    operands that are not handed to a typed helper, the result is the
    Boolean of the combined truthiness, in the state the right operand
    leaves; a value is falsy exactly when it is False, Null, the empty
    String, the Integer 0, a Float equal to 0.0, an empty Array or an
    empty Hash, the wrapper of [return] standing for the value it
    holds. *)
Theorem logical_operators_evaluate_both fuel l r env st vl st1 :
  Eval fuel l env st = Ok (Some vl) st1 ->
  (forall m code data flag, vl <> object.Error m code data flag) ->
  (forall vr st2,
      Eval fuel r env st1 = Ok (Some vr) st2 ->
      ((exists m code data flag, vr = object.Error m code data flag) ->
       forall operator,
         Eval (S fuel) (ast.InfixExpression l operator r) env st
         = Ok (Some vr) st2)
      /\ ((forall m code data flag, vr <> object.Error m code data flag) ->
          typedOperands vl vr = false ->
          Eval (S fuel) (ast.InfixExpression l "&&" r) env st
          = Ok (Some (object.Boolean
                        (objectToNativeBoolean (Some vl)
                         && objectToNativeBoolean (Some vr))))
              st2
          /\ Eval (S fuel) (ast.InfixExpression l "||" r) env st
             = Ok (Some (object.Boolean
                           (objectToNativeBoolean (Some vl)
                            || objectToNativeBoolean (Some vr))))
                 st2))
  /\ (forall operator c st2,
         Eval fuel r env st1 = Exit c st2 ->
         Eval (S fuel) (ast.InfixExpression l operator r) env st = Exit c st2)
  /\ (forall operator msg st2,
         Eval fuel r env st1 = GoPanic msg st2 ->
         Eval (S fuel) (ast.InfixExpression l operator r) env st = GoPanic msg st2)
  /\ (forall o,
         (forall v, o <> object.ReturnValue v) ->
         (objectToNativeBoolean (Some o) = false
          <-> o = object.Boolean false \/ o = object.Null
              \/ o = object.String "" \/ o = object.Integer 0
              \/ (exists f, o = object.Float f
                             /\ PrimFloat.eqb f PrimFloat.zero = true)
              \/ (exists b, o = object.Array [] b)
              \/ o = object.Hash [])
         /\ objectToNativeBoolean (Some (object.ReturnValue (Some o)))
            = objectToNativeBoolean (Some o))
  /\ objectToNativeBoolean (Some (object.ReturnValue None)) = true
  /\ (forall v,
         objectToNativeBoolean
           (Some (object.ReturnValue (Some (object.ReturnValue v)))) = true).
Proof.
  intros Hl Hle.
  assert (Hle' : isError (Some vl) = false).
  { apply isError_spec. intros m code data flag [= ->]. now eapply Hle. }
  clear Hle. rename Hle' into Hle.
  split; [| split; [| split; [| split; [| split]]]].
  - intros vr st2 Hr. split.
    + intros (m & code & data & flag & ->) operator.
      now rewrite Eval_infix, (bind_Ok _ _ _ _ _ Hl), Hle,
        (bind_Ok _ _ _ _ _ Hr).
    + intros Hre' Htyped.
      assert (Hre : isError (Some vr) = false).
      { apply isError_spec. intros m code data flag [= ->]. now eapply Hre'. }
      split;
        rewrite Eval_infix, (bind_Ok _ _ _ _ _ Hl), Hle, (bind_Ok _ _ _ _ _ Hr),
          Hre;
        destruct vl, vr; try discriminate; cbn;
        try match goal with
            | |- context [nativeBoolToBooleanObject ?b] => destruct b
            end; reflexivity.
  - intros operator c st2 Hr.
    now rewrite Eval_infix, (bind_Ok _ _ _ _ _ Hl), Hle, (bind_Exit _ _ _ _ _ Hr).
  - intros operator msg st2 Hr.
    now rewrite Eval_infix, (bind_Ok _ _ _ _ _ Hl), Hle, (bind_GoPanic _ _ _ _ _ Hr).
  - intros o Hwrap. split; [now apply objectToNativeBoolean_spec |].
    destruct o; try reflexivity. now destruct (Hwrap Value).
  - reflexivity.
  - reflexivity.
Qed.

End Truthiness.

(** ** Loops *)

Section Loops.

Context `{Externals}.
Variable EvalSub : ast.Node -> ENV -> M OBJ.

(** One round of a for-each loop whose body yields [rt]: a ReturnValue
    ends the loop and is its value; an Error does not, the loop goes on
    with the remaining items. *)
Lemma foreachLoop_round v i rest ident index body child st st1 rt st2 :
  (Set_ child ident v ;;
   if negb (String.eqb index "") then Set_ child index i else ret tt) st
    = Ok tt st1 ->
  EvalSub body child st1 = Ok rt st2 ->
  (forall x, rt = Some (object.ReturnValue x) ->
     foreachLoop EvalSub ((v, i) :: rest) ident index body child st = Ok rt st2)
  /\ (isError rt = true ->
      foreachLoop EvalSub ((v, i) :: rest) ident index body child st
      = foreachLoop EvalSub rest ident index body child st2).
Proof.
  intros Hbind Hbody.
  assert (Hstep : foreachLoop EvalSub ((v, i) :: rest) ident index body child st
                  = (stop <- loopReturns rt ;;
                     if stop then ret rt
                     else foreachLoop EvalSub rest ident index body child) st2).
  { cbn [foreachLoop]. revert Hbind. unfold bind.
    destruct (Set_ child ident v st) as [[] s1 | | |]; try discriminate.
    destruct (if negb (String.eqb index "") then Set_ child index i else ret tt)
      as [[] s2 | | |] eqn:Hidx; try discriminate.
    intros [= ->]. now rewrite Hbody. }
  split.
  - intros x ->. now rewrite Hstep.
  - intros Herr. rewrite Hstep. unfold loopReturns. now rewrite Herr.
Qed.

End Loops.

(** ** Runs of the sample process *)

#[local] Existing Instance Sample.externals.

(** C1, the claim as the spec words it, refuted: the left operand of
    [false && n++] is falsy and the right operand is evaluated all the
    same, [n] going from 0 to 1. *)
Lemma and_evaluates_right_operand :
  Eval 1 (ast.Boolean false) Sample.global (Sample.counter 0)
    = Ok FALSE (Sample.counter 0)
  /\ objectToNativeBoolean FALSE = false
  /\ Eval 2 (ast.InfixExpression (ast.Boolean false) "&&"
               (ast.PostfixExpression "n" "++"))
       Sample.global (Sample.counter 0)
     = Ok FALSE (Sample.counter 1)
  /\ Sample.counter 1 <> Sample.counter 0.
Proof.
  split; [reflexivity |]. split; [reflexivity |].
  split; [vm_compute; reflexivity |].
  intros Heq.
  assert (Hn : envGet (heap (Sample.counter 1)) Sample.global "n"
               = envGet (heap (Sample.counter 0)) Sample.global "n")
    by now rewrite Heq.
  vm_compute in Hn. discriminate Hn.
Qed.

(** [false || n++] is false and [true || n++] is true, [n] going from 0
    to 1 in both; [true && 7] is true; [true && error("x")] is the
    Error. *)
Lemma logical_operators_witness :
  Eval 3 (ast.Boolean false) Sample.global (Sample.counter 0)
    = Ok (Some (object.Boolean false)) (Sample.counter 0)
  /\ Eval 3 (ast.PostfixExpression "n" "++") Sample.global (Sample.counter 0)
     = Ok (Some (object.Integer 0)) (Sample.counter 1)
  /\ Eval 3 (Sample.call "error" [ast.StringLiteral "x"]) Sample.global
       (Sample.counter 0)
     = Ok (Some (object.Error "x" None "" true)) (Sample.counter 0)
  /\ Eval 4 (ast.InfixExpression (ast.Boolean false) "||"
               (ast.PostfixExpression "n" "++"))
       Sample.global (Sample.counter 0)
     = Ok (Some (object.Boolean false)) (Sample.counter 1)
  /\ Eval 4 (ast.InfixExpression (ast.Boolean true) "||"
               (ast.PostfixExpression "n" "++"))
       Sample.global (Sample.counter 0)
     = Ok (Some (object.Boolean true)) (Sample.counter 1)
  /\ Eval 4 (ast.InfixExpression (ast.Boolean true) "&&"
               (ast.IntegerLiteral 7))
       Sample.global (Sample.counter 0)
     = Ok (Some (object.Boolean true)) (Sample.counter 0)
  /\ Eval 4 (ast.InfixExpression (ast.Boolean true) "&&"
               (Sample.call "error" [ast.StringLiteral "x"]))
       Sample.global (Sample.counter 0)
     = Ok (Some (object.Error "x" None "" true)) (Sample.counter 0).
Proof.
  assert (Hl : Eval 3 (ast.Boolean false) Sample.global (Sample.counter 0)
               = Ok (Some (object.Boolean false)) (Sample.counter 0))
    by reflexivity.
  assert (Hr : Eval 3 (ast.PostfixExpression "n" "++") Sample.global
                 (Sample.counter 0)
               = Ok (Some (object.Integer 0)) (Sample.counter 1))
    by (vm_compute; reflexivity).
  assert (He : Eval 3 (Sample.call "error" [ast.StringLiteral "x"])
                 Sample.global (Sample.counter 0)
               = Ok (Some (object.Error "x" None "" true)) (Sample.counter 0))
    by (vm_compute; reflexivity).
  assert (Hb : forall b m code data flag,
             object.Boolean b <> object.Error m code data flag)
    by discriminate.
  assert (Hi : forall z m code data flag,
             object.Integer z <> object.Error m code data flag)
    by discriminate.
  split; [exact Hl |]. split; [exact Hr |]. split; [exact He |].
  split; [| split; [| split]].
  - exact (proj2 (proj2 (proj1 (logical_operators_evaluate_both 3
                                  (ast.Boolean false)
                                  (ast.PostfixExpression "n" "++") Sample.global
                                  (Sample.counter 0) (object.Boolean false)
                                  (Sample.counter 0) Hl (Hb false))
                           (object.Integer 0) (Sample.counter 1) Hr)
                    (Hi 0) eq_refl)).
  - exact (proj2 (proj2 (proj1 (logical_operators_evaluate_both 3
                                  (ast.Boolean true)
                                  (ast.PostfixExpression "n" "++") Sample.global
                                  (Sample.counter 0) (object.Boolean true)
                                  (Sample.counter 0) eq_refl (Hb true))
                           (object.Integer 0) (Sample.counter 1) Hr)
                    (Hi 0) eq_refl)).
  - exact (proj1 (proj2 (proj1 (logical_operators_evaluate_both 3
                                  (ast.Boolean true) (ast.IntegerLiteral 7)
                                  Sample.global (Sample.counter 0)
                                  (object.Boolean true) (Sample.counter 0)
                                  eq_refl (Hb true))
                           (object.Integer 7) (Sample.counter 0) eq_refl)
                    (Hi 7) eq_refl)).
  - exact (proj1 (proj1 (logical_operators_evaluate_both 3
                           (ast.Boolean true)
                           (Sample.call "error" [ast.StringLiteral "x"])
                           Sample.global (Sample.counter 0)
                           (object.Boolean true) (Sample.counter 0)
                           eq_refl (Hb true))
                    (object.Error "x" None "" true) (Sample.counter 0) He)
             (ex_intro _ "x" (ex_intro _ None (ex_intro _ EmptyString
                (ex_intro _ true eq_refl))))
             "&&").
Defined.

(** C2, the claim as the spec words it, refuted: with the empty String,
    0, 0.0, the empty Array or the empty Hash as its condition,
    [if (c) { 1 } else { 2 }] is 1. *)
Lemma if_zero_takes_consequence :
  Forall
    (fun c => Eval 4 (Sample.ifOneElseTwo c) Sample.global (Sample.counter 0)
              = Ok (Some (object.Integer 1)) (Sample.counter 0))
    [ast.StringLiteral ""; ast.IntegerLiteral 0; ast.FloatLiteral PrimFloat.zero;
     ast.ArrayLiteral []; ast.HashLiteral []].
Proof. repeat constructor. Qed.

Lemma if_selects_witness :
  Eval 3 (ast.IntegerLiteral 0) Sample.global (Sample.counter 0)
    = Ok (Some (object.Integer 0)) (Sample.counter 0)
  /\ isError (Some (object.Integer 0)) = false
  /\ Eval 4 (Sample.ifOneElseTwo (ast.IntegerLiteral 0)) Sample.global
       (Sample.counter 0)
     = Eval 3 (Sample.block [ast.IntegerLiteral 1]) Sample.global
         (Sample.counter 0).
Proof.
  split; [reflexivity |]. split; [reflexivity |].
  exact (proj1 (if_selects_by_isTruthy 3 (ast.IntegerLiteral 0)
                  (Sample.block [ast.IntegerLiteral 1])
                  (Some (Sample.block [ast.IntegerLiteral 2])) Sample.global
                  (Sample.counter 0) (Some (object.Integer 0))
                  (Sample.counter 0) eq_refl eq_refl)).
Defined.

(** C3. The test of the loops lets a ReturnValue through and never an
    Error: in [foreach x in [1, 2] { n++; error("boom") }] the body yields
    an Error in the first round, the second round runs ([n] ends at 2) and
    the loop yields Null. *)
Theorem foreach_continues_after_error :
  (forall message code data flag st,
      loopReturns (Some (object.Error message code data flag)) st = Ok false st)
  /\ (forall v st, loopReturns (Some (object.ReturnValue v)) st = Ok true st)
  /\ Eval 5 Sample.failingBody Sample.global (Sample.counter 0)
     = Ok (Some (object.Error "boom" None "" true)) (Sample.counter 1)
  /\ match Eval 6 Sample.failingLoop Sample.global (Sample.counter 0) with
     | Ok v st =>
         v = NULL
         /\ envGet (heap st) Sample.global "n" = Some (Some (object.Integer 2))
     | _ => False
     end.
Proof.
  split; [reflexivity |]. split; [reflexivity |].
  split; [vm_compute; reflexivity |].
  vm_compute. split; reflexivity.
Qed.

(** ** Call sites and the [error] built-in *)

Section CallSite.

Context `{Externals}.

Lemma errorFn_flag (args : list OBJ) :
  exists message code data,
    errorFn args = Some (object.Error message code data (buildsError args)).
Proof.
  destruct args as [| arg [| ? ?]]; [cbn; eauto | |];
    destruct arg as [[] |]; cbn; eauto.
  unfold wellFormedErrorHash.
  destruct (pairValue Pairs "message") as [[] |];
    destruct (pairValue Pairs "code") as [[] |]; cbn; eauto.
Qed.

(** C4, as the code has it.  A call whose callee evaluates to an Error
    is that Error: no argument is evaluated, nothing is printed and
    nothing exits, whatever the flag.  At a call site whose callee is no
    Error and whose application returns an Error, a program run exits with
    the Error's code (1 without one) after the diagnostic on standard
    error when the flag is unset, and returns the Error, untouched, when
    it is set.  The Error [error] returns has the flag set exactly when it
    is built from a String or a well-formed Hash; the Error it returns for
    any other arguments has it unset. *)
Theorem call_site_error_rule fuel function arguments env st fn st1 :
  Eval fuel function env st = Ok fn st1 ->
  ((exists m c d f, fn = Some (object.Error m c d f)) ->
   Eval (S fuel) (ast.CallExpression function arguments) env st = Ok fn st1)
  /\ ((forall m c d f, fn <> Some (object.Error m c d f)) ->
      forall args st2 args' st3 message code data flag st4,
        evalExpression (Eval fuel) arguments env st1 = Ok args st2 ->
        spliceCurrentArgs env args st2 = Ok args' st3 ->
        ApplyFunction (Eval fuel) env fn args' st3
          = Ok (Some (object.Error message code data flag)) st4 ->
        isRepl st4 = false ->
        Eval (S fuel) (ast.CallExpression function arguments) env st
        = (if flag then Ok (Some (object.Error message code data flag)) st4
           else Exit (match code with Some c => c | None => 1 end)
                  (setStderr
                     (stderr st4 +:+ "Error calling `" +:+ NodeString function
                      +:+ "` : "
                      +:+ Inspect (object.Error message code data flag)
                      +:+ newline) st4)))
  /\ (forall t, errorFn [Some (object.String t)]
                = Some (object.Error t None "" true))
  /\ (forall xs, exists m c d,
         errorFn xs = Some (object.Error m c d (buildsError xs))).
Proof.
  intros Hfn.
  split; [| split; [| split; [reflexivity | exact errorFn_flag]]].
  - intros Herr%isError_true. rewrite Eval_call. unfold evalCall.
    now rewrite (bind_Ok _ _ _ _ _ Hfn), Herr.
  - intros Hnoerr%isError_spec args st2 args' st3 message code data flag st4
      Hargs Hsplice Happly Hrun.
    rewrite Eval_call. unfold evalCall.
    rewrite (bind_Ok _ _ _ _ _ Hfn), Hnoerr.
    rewrite (bind_Ok _ _ _ _ _ Hargs), (bind_Ok _ _ _ _ _ Hsplice).
    rewrite (bind_Ok _ _ _ _ _ Happly).
    destruct flag; cbn [negb]; [reflexivity |].
    unfold bind, Eprint, modify, ExitConditionally. cbn.
    now rewrite Hrun.
Qed.

End CallSite.

(** ** Postfix operators *)

Lemma targetFrame_spec (n : nat) (h : list Frame) :
  forall e name t f,
    targetFrame n h e name = Some (t, f) ->
    h !! t = Some f /\ permits f name = true.
Proof.
  induction n as [| n IH]; intros e name t f; cbn [targetFrame];
    [discriminate |].
  destruct (h !! e) as [fe |] eqn:He; [| discriminate].
  destruct (permits fe name) eqn:Hp.
  - intros [= <- <-]. auto.
  - destruct (outer fe); [apply IH | discriminate].
Qed.

(** A write is read back: after binding [name] in the frame the write
    lands in, the lookup from the same environment finds the new value. *)
Lemma lookup_after_write (n : nat) (h : list Frame) :
  scopesWellFormed h ->
  forall e name t f v immutable,
    targetFrame n h e name = Some (t, f) ->
    lookupChain n (<[t := bindIn f name v immutable]> h) e name = Some v.
Proof.
  intros Hwf. induction n as [| n IH]; intros e name t f v imm;
    cbn [targetFrame lookupChain]; [discriminate |].
  destruct (h !! e) as [fe |] eqn:He; [| discriminate].
  destruct (permits fe name) eqn:Hp.
  - intros [= <- <-].
    rewrite list_lookup_insert_eq by (eapply lookup_lt_Some; eauto).
    cbn. now rewrite lookup_insert_eq.
  - destruct (outer fe) as [p |] eqn:Hout; [| discriminate].
    intros Ht. destruct (targetFrame_spec _ _ _ _ _ _ Ht) as [Hlt Hpt].
    assert (t <> e) by (intros ->; congruence).
    rewrite list_lookup_insert_ne by assumption.
    rewrite He, (Hwf _ _ _ He Hp), Hout. now apply IH.
Qed.

Lemma Set_assignable (e : ENV) (name : string) (v : OBJ) (st : State) :
  scopesWellFormed (heap st) ->
  assignable (heap st) e name = true ->
  exists st',
    Set_ e name v st = Ok tt st'
    /\ envGet (heap st') e name = Some v
    /\ importCache st' = importCache st
    /\ stdout st' = stdout st /\ stderr st' = stderr st.
Proof.
  unfold assignable, Set_, envGet. intros Hwf Hassign.
  destruct (targetFrame (S e) (heap st) e name) as [[t f] |] eqn:Ht;
    [| discriminate].
  apply negb_true_iff in Hassign. rewrite Hassign.
  eexists. split; [reflexivity |]. split; [| auto].
  cbn [heap setHeap]. now apply lookup_after_write.
Qed.

Section Postfix.

Context `{Externals}.

(** C7, as the code has it.  For [x] bound to the Integer [n] and
    assignable, [x++] yields [n] and rebinds [x] to [n + 1], [x--] yields
    [n] and rebinds [x] to [n - 1] (in 64-bit arithmetic); an unbound [x]
    and an [x] bound to another value yield an Error. *)
Theorem postfix_yields_old_value fuel env x st :
  scopesWellFormed (heap st) ->
  (forall n,
      envGet (heap st) env x = Some (Some (object.Integer n)) ->
      assignable (heap st) env x = true ->
      (exists st',
          Eval (S fuel) (ast.PostfixExpression x "++") env st
            = Ok (Some (object.Integer n)) st'
          /\ envGet (heap st') env x
             = Some (Some (object.Integer (wrap64 (n + 1)))))
      /\ (exists st',
             Eval (S fuel) (ast.PostfixExpression x "--") env st
               = Ok (Some (object.Integer n)) st'
             /\ envGet (heap st') env x
                = Some (Some (object.Integer (wrap64 (n - 1))))))
  /\ (envGet (heap st) env x = None ->
      Eval (S fuel) (ast.PostfixExpression x "++") env st
        = Ok (NewError (x +:+ " is unknown")) st
      /\ Eval (S fuel) (ast.PostfixExpression x "--") env st
         = Ok (NewError (x +:+ " is unknown")) st)
  /\ (forall v,
         envGet (heap st) env x = Some v ->
         (forall n, v <> Some (object.Integer n)) ->
         Eval (S fuel) (ast.PostfixExpression x "++") env st
           = Ok (NewError (x +:+ " is not an int")) st
         /\ Eval (S fuel) (ast.PostfixExpression x "--") env st
            = Ok (NewError (x +:+ " is not an int")) st).
Proof.
  intros Hwf. rewrite !Eval_postfix. unfold evalPostfixExpression, Get.
  cbn [String.eqb Ascii.eqb Bool.eqb]. unfold bind at 1 3 5 7 9 11.
  split; [| split].
  - intros n Hget Hassign. rewrite Hget. split.
    + destruct (Set_assignable env x (Some (object.Integer (wrap64 (n + 1)))) st
                  Hwf Hassign) as (st' & Hset & Hread & _).
      exists st'. now rewrite (bind_Ok _ _ _ _ _ Hset).
    + destruct (Set_assignable env x (Some (object.Integer (wrap64 (n + -1)))) st
                  Hwf Hassign) as (st' & Hset & Hread & _).
      exists st'. rewrite (bind_Ok _ _ _ _ _ Hset).
      now replace (n - 1) with (n + -1) by lia.
  - intros Hget. now rewrite Hget.
  - intros v Hget Hnot. rewrite Hget.
    destruct v as [[] |]; try (split; reflexivity).
    now destruct (Hnot Value).
Qed.

End Postfix.

(** C4, the claim as the spec words it, refuted: the Error that
    [error(1)] returns was built by the [error] built-in and has the flag
    unset, and the program exits at that call site; and the call [5[0]()],
    whose callee is an Error with the flag unset, is that Error, with no
    diagnostic and no exit. *)
Lemma error_of_integer_aborts :
  errorFn [Some (object.Integer 1)]
    = Some (object.Error "error() expected a string or hash!" None "" false)
  /\ Eval 3 (Sample.call "error" [ast.IntegerLiteral 1]) Sample.global
       (Sample.counter 0)
     = Exit 1
         (setStderr
            ("Error calling `error` : ERROR: error() expected a string or hash!"
             +:+ newline) (Sample.counter 0))
  /\ Eval 3
       (ast.CallExpression
          (ast.IndexExpression (ast.IntegerLiteral 5) (ast.IntegerLiteral 0)) [])
       Sample.global (Sample.counter 0)
     = Ok (Some (object.Error "index operator not support:INTEGER" None ""
                   false))
         (Sample.counter 0).
Proof. repeat split; vm_compute; reflexivity. Qed.

Lemma call_site_witness :
  Eval 2 (ast.Identifier "error") Sample.global (Sample.counter 0)
    = Ok (Some (object.Builtin object.errorFn)) (Sample.counter 0)
  /\ evalExpression (Eval 2) [ast.StringLiteral "boom"] Sample.global
       (Sample.counter 0)
     = Ok [Some (object.String "boom")] (Sample.counter 0)
  /\ ApplyFunction (Eval 2) Sample.global
       (Some (object.Builtin object.errorFn)) [Some (object.String "boom")]
       (Sample.counter 0)
     = Ok (Some (object.Error "boom" None "" true)) (Sample.counter 0)
  /\ isRepl (Sample.counter 0) = false
  /\ Eval 3 (Sample.call "error" [ast.StringLiteral "boom"]) Sample.global
       (Sample.counter 0)
     = Ok (Some (object.Error "boom" None "" true)) (Sample.counter 0)
  /\ Eval 3 (Sample.call "error" [ast.IntegerLiteral 1]) Sample.global
       (Sample.counter 0)
     = Exit 1
         (setStderr
            ("Error calling `error` : ERROR: error() expected a string or hash!"
             +:+ newline) (Sample.counter 0))
  /\ Eval 2 (ast.IndexExpression (ast.IntegerLiteral 5) (ast.IntegerLiteral 0))
       Sample.global (Sample.counter 0)
     = Ok (Some (object.Error "index operator not support:INTEGER" None ""
                   false))
         (Sample.counter 0)
  /\ Eval 3
       (ast.CallExpression
          (ast.IndexExpression (ast.IntegerLiteral 5) (ast.IntegerLiteral 0))
          [ast.PostfixExpression "n" "++"])
       Sample.global (Sample.counter 0)
     = Ok (Some (object.Error "index operator not support:INTEGER" None ""
                   false))
         (Sample.counter 0).
Proof.
  assert (Hfn : Eval 2 (ast.Identifier "error") Sample.global (Sample.counter 0)
                = Ok (Some (object.Builtin object.errorFn)) (Sample.counter 0))
    by (vm_compute; reflexivity).
  assert (Hargs : evalExpression (Eval 2) [ast.StringLiteral "boom"]
                    Sample.global (Sample.counter 0)
                  = Ok [Some (object.String "boom")] (Sample.counter 0))
    by (vm_compute; reflexivity).
  assert (Happly : ApplyFunction (Eval 2) Sample.global
                     (Some (object.Builtin object.errorFn))
                     [Some (object.String "boom")] (Sample.counter 0)
                   = Ok (Some (object.Error "boom" None "" true))
                       (Sample.counter 0))
    by reflexivity.
  assert (Hcallee : Eval 2
                      (ast.IndexExpression (ast.IntegerLiteral 5)
                         (ast.IntegerLiteral 0))
                      Sample.global (Sample.counter 0)
                    = Ok (Some (object.Error
                                  "index operator not support:INTEGER" None ""
                                  false))
                        (Sample.counter 0))
    by (vm_compute; reflexivity).
  assert (Hbuiltin : forall m c d f,
             Some (object.Builtin object.errorFn)
             <> Some (object.Error m c d f))
    by discriminate.
  split; [exact Hfn |]. split; [exact Hargs |]. split; [exact Happly |].
  split; [reflexivity |]. split; [| split].
  - exact (proj1 (proj2 (call_site_error_rule 2 (ast.Identifier "error")
                           [ast.StringLiteral "boom"] Sample.global
                           (Sample.counter 0) _ _ Hfn))
             Hbuiltin _ _ _ _ "boom" None "" true _
             Hargs eq_refl Happly eq_refl).
  - exact (proj1 (proj2 (call_site_error_rule 2 (ast.Identifier "error")
                           [ast.IntegerLiteral 1] Sample.global
                           (Sample.counter 0) _ _ Hfn))
             Hbuiltin [Some (object.Integer 1)] (Sample.counter 0)
             [Some (object.Integer 1)] (Sample.counter 0)
             "error() expected a string or hash!" None "" false
             (Sample.counter 0) eq_refl eq_refl eq_refl eq_refl).
  - split; [exact Hcallee |].
    exact (proj1 (call_site_error_rule 2
                    (ast.IndexExpression (ast.IntegerLiteral 5)
                       (ast.IntegerLiteral 0))
                    [ast.PostfixExpression "n" "++"] Sample.global
                    (Sample.counter 0) _ _ Hcallee)
             (ex_intro _ _ (ex_intro _ _ (ex_intro _ _
                (ex_intro _ _ eq_refl))))).
Defined.

(** C7, the claim as the spec words it, refuted: [k] is bound to the
    Integer 5 by [let]; [k++] is fatal and [k] is not rebound. *)
Lemma postfix_on_immutable_is_fatal :
  envGet (heap (Sample.constant 5)) Sample.global "k"
    = Some (Some (object.Integer 5))
  /\ Eval 1 (ast.PostfixExpression "k" "++") Sample.global (Sample.constant 5)
     = Exit 1
         (setStdout (quote +:+ "k" +:+ quote +:+ " is immutable" +:+ newline)
            (Sample.constant 5)).
Proof. split; vm_compute; reflexivity. Qed.

Lemma sample_scopesWellFormed globals disk :
  scopesWellFormed (heap (Sample.process globals disk)).
Proof.
  intros e f name He Hp. destruct e as [| e]; cbn in He; [| discriminate].
  injection He as <-. discriminate Hp.
Qed.

Lemma postfix_witness :
  scopesWellFormed (heap (Sample.counter 5))
  /\ envGet (heap (Sample.counter 5)) Sample.global "n"
     = Some (Some (object.Integer 5))
  /\ assignable (heap (Sample.counter 5)) Sample.global "n" = true
  /\ exists st',
      Eval 1 (ast.PostfixExpression "n" "++") Sample.global (Sample.counter 5)
        = Ok (Some (object.Integer 5)) st'
      /\ envGet (heap st') Sample.global "n"
         = Some (Some (object.Integer (wrap64 (5 + 1)))).
Proof.
  split; [apply sample_scopesWellFormed |].
  split; [vm_compute; reflexivity |].
  split; [vm_compute; reflexivity |].
  refine (proj1 (proj1 (postfix_yields_old_value 0 Sample.global "n"
                          (Sample.counter 5) (sample_scopesWellFormed _ _))
                   5 _ _)); vm_compute; reflexivity.
Defined.

(** ** String interpolation *)

Lemma append_nil (b : string) : EmptyString +:+ b = b.
Proof. reflexivity. Qed.

Lemma append_cons (c : ascii) (a b : string) :
  String.String c a +:+ b = String.String c (a +:+ b).
Proof. reflexivity. Qed.

Lemma length_append (a b : string) :
  String.length (a +:+ b) = (String.length a + String.length b)%nat.
Proof.
  induction a as [| c a IH]; [reflexivity |].
  rewrite append_cons. cbn [String.length Nat.add]. now rewrite IH.
Qed.

Lemma get_append_right (a b : string) (k : nat) :
  String.get (String.length a + k) (a +:+ b) = String.get k b.
Proof.
  induction a as [| c a IH]; [reflexivity |].
  rewrite append_cons. cbn [String.length Nat.add String.get]. exact IH.
Qed.

Lemma substring_append_left (a b : string) :
  String.substring 0 (String.length a) (a +:+ b) = a.
Proof.
  induction a as [| c a IH].
  - rewrite append_nil. now destruct b.
  - rewrite append_cons. cbn [String.length String.substring]. now rewrite IH.
Qed.

Lemma lacks_cons (c a : ascii) (s : string) :
  lacks c (String.String a s) = true -> a <> c /\ lacks c s = true.
Proof.
  cbn. intros [Ha Hs]%andb_true_iff. split; [| exact Hs].
  now apply Ascii.eqb_neq, negb_true_iff.
Qed.

Ltac each_byte c :=
  destruct c as [[] [] [] [] [] [] [] []]; try reflexivity; try congruence.

Lemma splitClose_step (c : ascii) (s : string) :
  c <> "}"%char ->
  splitClose (String.String c s)
  = match splitClose s with
    | Some (inner, rest) => Some (String.String c inner, rest)
    | None => None
    end.
Proof. intros Hc. each_byte c. Qed.

Lemma splitClose_fragment (name post : string) :
  lacks "}" name = true ->
  splitClose (name +:+ "}}" +:+ post) = Some (name, post).
Proof.
  induction name as [| c name IH]; [reflexivity |].
  intros [Hc Hname]%lacks_cons.
  change (String.String c name +:+ "}}" +:+ post)
    with (String.String c (name +:+ "}}" +:+ post)).
  now rewrite splitClose_step, IH.
Qed.

Lemma matchAt_plain (c : ascii) (s : string) :
  c <> "\"%char -> c <> "{"%char -> matchAt (String.String c s) = None.
Proof. intros Hb Ho. each_byte c. Qed.

Lemma matchAt_backslash (s : string) :
  lacks "{" s = true -> matchAt (String.String "\" s) = None.
Proof.
  destruct s as [| x s]; [reflexivity |].
  intros [Hx _]%lacks_cons. each_byte x.
Qed.

Lemma matchAt_lacks (s : string) : lacks "{" s = true -> matchAt s = None.
Proof.
  destruct s as [| c s]; [reflexivity |].
  intros Hs. destruct (lacks_cons _ _ _ Hs) as [Hc Hrest].
  destruct (Ascii.eqb_spec c "\"%char) as [-> | Hb].
  - now apply matchAt_backslash.
  - now apply matchAt_plain.
Qed.

Lemma matchAt_fragment (name post : string) :
  lacks "}" name = true ->
  matchAt ("{{" +:+ name +:+ "}}" +:+ post)
  = Some ("{{" +:+ name +:+ "}}", post).
Proof.
  intros Hname.
  change ("{{" +:+ name +:+ "}}" +:+ post)
    with (String.String "{" (String.String "{" (name +:+ "}}" +:+ post))).
  unfold matchAt. now rewrite (splitClose_fragment name post Hname).
Qed.

Lemma append_assoc (a b c : string) : (a +:+ b) +:+ c = a +:+ (b +:+ c).
Proof.
  induction a as [| x a IH]; [reflexivity |].
  rewrite !append_cons. now rewrite IH.
Qed.

Lemma append_nil_r (a : string) : a +:+ EmptyString = a.
Proof.
  induction a as [| x a IH]; [reflexivity |].
  rewrite append_cons. now rewrite IH.
Qed.

Lemma matchAt_open (c : ascii) (s : string) :
  c <> "{"%char -> matchAt (String.String "{" (String.String c s)) = None.
Proof. intros Hc. each_byte c. Qed.

Lemma matchAt_escape (c : ascii) (s : string) :
  c <> "{"%char -> matchAt (String.String "\" (String.String c s)) = None.
Proof. intros Hc. each_byte c. Qed.

Lemma matchAt_escape_open (c : ascii) (s : string) :
  c <> "{"%char ->
  matchAt (String.String "\" (String.String "{" (String.String c s))) = None.
Proof. intros Hc. each_byte c. Qed.

Lemma matchAt_escaped_fragment (name post : string) :
  lacks "}" name = true ->
  matchAt ("\{{" +:+ name +:+ "}}" +:+ post)
  = Some ("\{{" +:+ name +:+ "}}", post).
Proof.
  intros Hname.
  change ("\{{" +:+ name +:+ "}}" +:+ post)
    with (String.String "\" (String.String "{" (String.String "{"
            (name +:+ "}}" +:+ post)))).
  unfold matchAt. now rewrite (splitClose_fragment name post Hname).
Qed.

Lemma substring_all (s : string) :
  String.substring 0 (String.length s) s = s.
Proof.
  induction s as [| c s IH]; [reflexivity |].
  cbn [String.length String.substring]. now rewrite IH.
Qed.

Lemma splitClose_close (d : ascii) (s : string) :
  d <> "}"%char ->
  splitClose (String.String "}" (String.String d s))
  = match splitClose (String.String d s) with
    | Some (inner, rest) => Some (String.String "}" inner, rest)
    | None => None
    end.
Proof. intros Hd. each_byte d. Qed.

Lemma splitClose_shorter (s : string) :
  forall inner rest,
    splitClose s = Some (inner, rest) ->
    (String.length rest < String.length s)%nat.
Proof.
  induction s as [| c s IH]; intros inner rest; [discriminate |].
  destruct (ascii_dec c "}") as [-> | Hc].
  - destruct s as [| d s']; [discriminate |].
    destruct (ascii_dec d "}") as [-> | Hd].
    + intros [= _ <-]. cbn. lia.
    + rewrite (splitClose_close d s' Hd).
      destruct (splitClose (String.String d s')) as [[i r] |] eqn:Hs;
        [| discriminate].
      intros [= _ <-]. specialize (IH _ _ eq_refl). cbn in *. lia.
  - rewrite (splitClose_step c s Hc).
    destruct (splitClose s) as [[i r] |]; [| discriminate].
    intros [= _ <-]. specialize (IH _ _ eq_refl). cbn. lia.
Qed.

Lemma matchAt_shorter (s m rest : string) :
  matchAt s = Some (m, rest) -> (String.length rest < String.length s)%nat.
Proof.
  destruct s as [| c1 s1]; [discriminate |].
  destruct (ascii_dec c1 "{") as [-> | Ho].
  - destruct s1 as [| c2 s2]; [discriminate |].
    destruct (ascii_dec c2 "{") as [-> | Ho2];
      [| now rewrite matchAt_open].
    cbn [matchAt].
    destruct (splitClose s2) as [[i r] |] eqn:Hs; [| discriminate].
    intros [= _ <-]. apply splitClose_shorter in Hs. cbn. lia.
  - destruct (ascii_dec c1 "\") as [-> | Hb];
      [| now rewrite matchAt_plain].
    destruct s1 as [| c2 s2]; [discriminate |].
    destruct (ascii_dec c2 "{") as [-> | Ho2];
      [| now rewrite matchAt_escape].
    destruct s2 as [| c3 s3]; [discriminate |].
    destruct (ascii_dec c3 "{") as [-> | Ho3];
      [| now rewrite matchAt_escape_open].
    cbn [matchAt].
    destruct (splitClose s3) as [[i r] |] eqn:Hs; [| discriminate].
    intros [= _ <-]. apply splitClose_shorter in Hs. cbn. lia.
Qed.

Lemma noOpening_tail (c : ascii) (t : string) :
  noOpening (String.String c t) = true -> noOpening t = true.
Proof. cbn [noOpening]. now intros [_ Ht]%andb_true_iff. Qed.

Lemma noOpening_head (c d : ascii) (t : string) :
  noOpening (String.String c (String.String d t)) = true ->
  c <> "{"%char \/ d <> "{"%char.
Proof.
  cbn [noOpening]. intros [Hcd _]%andb_true_iff.
  apply negb_true_iff, andb_false_iff in Hcd as [Hc | Hd];
    [left | right]; now apply Ascii.eqb_neq.
Qed.

(** Text that opens no fragment holds no match. *)
Lemma matchAt_noOpening (s : string) : noOpening s = true -> matchAt s = None.
Proof.
  intros Hs. destruct s as [| c1 s1]; [reflexivity |].
  destruct (ascii_dec c1 "{") as [-> | Ho].
  - destruct s1 as [| c2 s2]; [reflexivity |].
    destruct (noOpening_head _ _ _ Hs) as [Hc | Hd]; [now destruct Hc |].
    now apply matchAt_open.
  - destruct (ascii_dec c1 "\") as [-> | Hb]; [| now apply matchAt_plain].
    destruct s1 as [| c2 s2]; [reflexivity |].
    destruct (ascii_dec c2 "{") as [-> | Ho2]; [| now apply matchAt_escape].
    destruct s2 as [| c3 s3]; [reflexivity |].
    destruct (noOpening_head _ _ _ (noOpening_tail _ _ Hs)) as [Hc | Hd];
      [now destruct Hc |].
    now apply matchAt_escape_open.
Qed.

Lemma closedText_tail (c : ascii) (t : string) :
  closedText (String.String c t) = true -> closedText t = true.
Proof.
  destruct t as [| d t']; [reflexivity |].
  cbn [closedText]. now intros [_ Ht]%andb_true_iff.
Qed.

(** Inside text that may stand before a fragment nothing matches,
    whatever follows the text. *)
Lemma matchAt_closedText (c : ascii) (t rest : string) :
  closedText (String.String c t) = true ->
  matchAt (String.String c (t +:+ rest)) = None.
Proof.
  intros Ht.
  destruct t as [| d t'].
  - cbn [closedText] in Ht. apply andb_true_iff in Ht as [Ho Hb].
    apply negb_true_iff, Ascii.eqb_neq in Ho, Hb.
    now apply matchAt_plain.
  - rewrite append_cons.
    assert (Hcd : c <> "{"%char \/ d <> "{"%char).
    { cbn [closedText] in Ht. apply andb_true_iff in Ht as [Hcd _].
      apply negb_true_iff, andb_false_iff in Hcd as [Hc | Hd];
        [left | right]; now apply Ascii.eqb_neq. }
    pose proof (closedText_tail _ _ Ht) as Ht'.
    destruct (ascii_dec c "{") as [-> | Ho].
    + destruct Hcd as [Hc | Hd]; [now destruct Hc |]. now apply matchAt_open.
    + destruct (ascii_dec c "\") as [-> | Hb]; [| now apply matchAt_plain].
      destruct (ascii_dec d "{") as [-> | Ho2]; [| now apply matchAt_escape].
      destruct t' as [| e t'']; [discriminate Ht' |].
      rewrite append_cons. apply matchAt_escape_open.
      cbn [closedText] in Ht'. apply andb_true_iff in Ht' as [Hde _].
      apply negb_true_iff, andb_false_iff in Hde as [Hd | He];
        [discriminate Hd | now apply Ascii.eqb_neq].
Qed.

Section Replace.

Variable repl : string -> M string.

Lemma Replace_plain (n : nat) :
  forall (s : string) (st : State),
    lacks "{" s = true -> ReplaceAllStringFunc n s repl st = Ok s st.
Proof.
  induction n as [| n IH]; intros s st Hs; [reflexivity |].
  destruct s as [| c s]; [reflexivity |].
  cbn [ReplaceAllStringFunc]. rewrite (matchAt_lacks _ Hs).
  destruct (lacks_cons _ _ _ Hs) as [_ Hrest].
  unfold bind. now rewrite (IH s st Hrest).
Qed.

Lemma Replace_prefix (pre : string) :
  forall (n : nat) (rest : string) (st : State),
    lacks "{" pre = true -> lacks "\" pre = true ->
    ReplaceAllStringFunc (String.length pre + n) (pre +:+ rest) repl st
    = (t <- ReplaceAllStringFunc n rest repl ;; ret (pre +:+ t)) st.
Proof.
  induction pre as [| c pre IH]; intros n rest st Ho Hb.
  - rewrite !append_nil. cbn [String.length Nat.add]. unfold bind.
    now destruct (ReplaceAllStringFunc n rest repl st).
  - destruct (lacks_cons _ _ _ Ho) as [Hco Ho'].
    destruct (lacks_cons _ _ _ Hb) as [Hcb Hb'].
    rewrite append_cons. cbn [String.length Nat.add ReplaceAllStringFunc].
    rewrite (matchAt_plain c _ Hcb Hco).
    unfold bind. rewrite (IH n rest st Ho' Hb'). unfold bind.
    now destruct (ReplaceAllStringFunc n rest repl st).
Qed.

Lemma Replace_match (n : nat) (s m rest : string) (st : State) :
  matchAt s = Some (m, rest) ->
  ReplaceAllStringFunc (S n) s repl st
  = (r <- repl m ;; t <- ReplaceAllStringFunc n rest repl ;; ret (r +:+ t)) st.
Proof.
  intros Hm. destruct s as [| c s]; [discriminate |].
  cbn [ReplaceAllStringFunc]. now rewrite Hm.
Qed.

(** The literal with one fragment: the text before it, what [repl]
    returns for the fragment, the text after it. *)
Lemma Replace_oneFragment (pre name post : string) (st : State) :
  fragmentShape pre name post = true ->
  ReplaceAllStringFunc (S (String.length (oneFragment pre name post)))
    (oneFragment pre name post) repl st
  = (r <- repl ("{{" +:+ name +:+ "}}") ;; ret (pre +:+ r +:+ post)) st.
Proof.
  unfold fragmentShape, oneFragment.
  intros [[[Ho Hb]%andb_true_iff Hname]%andb_true_iff Hpost]%andb_true_iff.
  rewrite length_append, <- Nat.add_succ_r, (Replace_prefix pre _ _ st Ho Hb).
  unfold bind at 1.
  rewrite (Replace_match _ _ _ _ st (matchAt_fragment name post Hname)).
  unfold bind. destruct (repl _ st) as [r st' | | |]; try reflexivity.
  now rewrite (Replace_plain _ post st' Hpost).
Qed.

(** Fuel beyond the length of the string changes nothing. *)
Lemma Replace_fuel (n : nat) :
  forall (m : nat) (s : string) (st : State),
    (String.length s <= n)%nat -> (String.length s <= m)%nat ->
    ReplaceAllStringFunc n s repl st = ReplaceAllStringFunc m s repl st.
Proof.
  induction n as [| n IH]; intros m s st Hn Hm.
  - destruct s; [| cbn in Hn; lia]. now destruct m.
  - destruct s as [| c s]; [now destruct m |].
    destruct m as [| m]; [cbn in Hm; lia |].
    cbn [ReplaceAllStringFunc String.length] in *.
    destruct (matchAt (String.String c s)) as [[mt rest] |] eqn:Hmatch.
    + apply matchAt_shorter in Hmatch. cbn [String.length] in Hmatch.
      unfold bind. destruct (repl mt st) as [r st' | | |]; try reflexivity.
      now rewrite (IH m rest st') by lia.
    + unfold bind. now rewrite (IH m s st) by lia.
Qed.

Lemma Replace_noOpening (n : nat) :
  forall (s : string) (st : State),
    noOpening s = true -> ReplaceAllStringFunc n s repl st = Ok s st.
Proof.
  induction n as [| n IH]; intros s st Hs; [reflexivity |].
  destruct s as [| c s]; [reflexivity |].
  cbn [ReplaceAllStringFunc]. rewrite (matchAt_noOpening _ Hs).
  unfold bind. now rewrite (IH s st (noOpening_tail _ _ Hs)).
Qed.

Lemma Replace_closedText (pre : string) :
  forall (n : nat) (rest : string) (st : State),
    closedText pre = true ->
    ReplaceAllStringFunc (String.length pre + n) (pre +:+ rest) repl st
    = (t <- ReplaceAllStringFunc n rest repl ;; ret (pre +:+ t)) st.
Proof.
  induction pre as [| c pre IH]; intros n rest st Hpre.
  - rewrite !append_nil. cbn [String.length Nat.add]. unfold bind.
    now destruct (ReplaceAllStringFunc n rest repl st).
  - rewrite append_cons. cbn [String.length Nat.add ReplaceAllStringFunc].
    rewrite (matchAt_closedText c pre rest Hpre).
    unfold bind. rewrite (IH n rest st (closedText_tail _ _ Hpre)).
    unfold bind. now destruct (ReplaceAllStringFunc n rest repl st).
Qed.

(** A match after text that may stand before it: the text, what [repl]
    returns for the match, and the replacement of what follows. *)
Lemma Replace_step (pre m rest : string) (n : nat) (st : State) :
  closedText pre = true ->
  matchAt (m +:+ rest) = Some (m, rest) ->
  (String.length (pre +:+ m +:+ rest) <= n)%nat ->
  ReplaceAllStringFunc n (pre +:+ m +:+ rest) repl st
  = (r <- repl m ;;
     t <- ReplaceAllStringFunc (S (String.length rest)) rest repl ;;
     ret (pre +:+ r +:+ t)) st.
Proof.
  intros Hpre Hm Hn.
  pose proof (matchAt_shorter _ _ _ Hm) as Hshort.
  rewrite !length_append in *.
  rewrite (Replace_fuel n (String.length pre
                           + S (String.length m + String.length rest))
             (pre +:+ m +:+ rest) st)
    by (rewrite !length_append; lia).
  rewrite (Replace_closedText pre _ _ st Hpre). unfold bind at 1.
  rewrite (Replace_match _ _ _ _ st Hm).
  unfold bind. destruct (repl m st) as [r st' | | |]; try reflexivity.
  rewrite (Replace_fuel _ (S (String.length rest)) rest st') by lia.
  now destruct (ReplaceAllStringFunc (S (String.length rest)) rest repl st').
Qed.

End Replace.

Section Interpolation.

Context `{Externals}.
Variable EvalSub : ast.Node -> ENV -> M OBJ.

(** What [Interpolate] does with an unescaped fragment. *)
Lemma interpolateMatch_fragment (env : ENV) (name : string) (st : State) :
  interpolateMatch EvalSub env ("{{" +:+ name +:+ "}}") st
  = (v <- Get env name ;;
     match v with
     | None =>
         evaluated <- EvalSub (ParseProgram name).1 env ;;
         match evaluated with
         | Some e => ret (Inspect e)
         | None => ret EmptyString
         end
     | Some val => o <- deref val ;; ret (Inspect o)
     end) st.
Proof.
  unfold interpolateMatch.
  change ("{{" +:+ name +:+ "}}")
    with (String.String "{" (String.String "{" (name +:+ "}}"))).
  cbn [String.prefix String.length]. rewrite length_append.
  cbn [String.length]. unfold byteAt.
  replace (S (S (String.length name + 2)) - 1)%nat
    with (S (S (String.length name + 1))) by lia.
  replace (S (S (String.length name + 2)) - 2)%nat
    with (S (S (String.length name + 0))) by lia.
  replace (S (S (String.length name + 2)) - 4)%nat
    with (String.length name) by lia.
  cbn [String.get String.substring]. rewrite !get_append_right.
  cbn [String.get negb]. rewrite substring_append_left.
  destruct (ascii_dec "\" "{"); [discriminate | reflexivity].
Qed.

Lemma Interpolate_oneFragment (pre name post : string) (env : ENV) (st : State) :
  fragmentShape pre name post = true ->
  Interpolate EvalSub (oneFragment pre name post) env st
  = (r <- interpolateMatch EvalSub env ("{{" +:+ name +:+ "}}") ;;
     ret (pre +:+ r +:+ post)) st.
Proof. intros Hshape. unfold Interpolate. now apply Replace_oneFragment. Qed.

Lemma interpolateMatch_escaped (env : ENV) (t : string) (st : State) :
  interpolateMatch EvalSub env (String.String "\" t) st = Ok t st.
Proof.
  unfold interpolateMatch. cbn [String.prefix String.length].
  destruct (ascii_dec "\" "\") as [_ | Hne]; [| now destruct Hne].
  replace (String.prefix EmptyString t) with true by now destruct t.
  cbn [Nat.sub String.substring]. rewrite Nat.sub_0_r.
  unfold ret. now rewrite substring_all.
Qed.

(** One match of a literal, after text that may stand before it: the
    literal is the text, the replacement of the match and the
    interpolation of what follows. *)
Lemma Interpolate_step (pre m rest : string) (env : ENV) (st : State) :
  closedText pre = true ->
  matchAt (m +:+ rest) = Some (m, rest) ->
  Interpolate EvalSub (pre +:+ m +:+ rest) env st
  = (r <- interpolateMatch EvalSub env m ;;
     t <- Interpolate EvalSub rest env ;;
     ret (pre +:+ r +:+ t)) st.
Proof.
  intros Hpre Hm. unfold Interpolate.
  now rewrite (Replace_step _ pre m rest _ st Hpre Hm) by lia.
Qed.

End Interpolation.

Section Fragments.

Context `{Externals}.

(** A literal that is text, one match and a rest: the replacement of
    the match before the value of the rest, which is evaluated in the
    state the replacement leaves. *)
Lemma literal_step f pre m rest env st :
  closedText pre = true ->
  matchAt (m +:+ rest) = Some (m, rest) ->
  Eval (S f) (ast.StringLiteral (pre +:+ m +:+ rest)) env st
  = match interpolateMatch (Eval f) env m st with
    | Ok r st' =>
        prefixed (pre +:+ r) (Eval (S f) (ast.StringLiteral rest) env st')
    | Exit c st' => Exit c st'
    | GoPanic msg st' => GoPanic msg st'
    | OutOfFuel => OutOfFuel
    end.
Proof.
  intros Hpre Hm. rewrite !Eval_string. unfold bind at 1.
  rewrite (Interpolate_step _ pre m rest env st Hpre Hm). unfold bind at 1.
  destruct (interpolateMatch (Eval f) env m st) as [r st' | | |];
    try reflexivity.
  unfold bind.
  destruct (Interpolate (Eval f) rest env st') as [t st'' | | |];
    try reflexivity.
  cbn. now rewrite append_assoc.
Qed.

(** C8, as the code has it.  In a literal, a fragment [{{name}}] that
    follows text which opens no fragment: a bound [name] is replaced by
    the value's inspection; an unbound one is parsed and evaluated in the
    current environment and replaced by the inspection of the result, by
    nothing when there is no result, and an exit of that evaluation is the
    exit of the literal; the rest of the literal, with the fragments it
    holds, is evaluated in the same way in the state this leaves.  So an
    unbound name that is no built-in either, evaluated as the identifier
    it parses to, ends a program run with exit code 1.  An escaped
    fragment is kept as text, without its backslash, and text that opens
    no fragment is its own value. *)
Theorem interpolation_of_fragment fuel pre name rest env st :
  closedText pre = true ->
  lacks "}" name = true ->
  (forall v,
      envGet (heap st) env name = Some (Some v) ->
      Eval (S fuel)
        (ast.StringLiteral (pre +:+ "{{" +:+ name +:+ "}}" +:+ rest)) env st
      = prefixed (pre +:+ Inspect v)
          (Eval (S fuel) (ast.StringLiteral rest) env st))
  /\ (envGet (heap st) env name = None ->
      (forall v st',
          Eval fuel (ParseProgram name).1 env st = Ok (Some v) st' ->
          Eval (S fuel)
            (ast.StringLiteral (pre +:+ "{{" +:+ name +:+ "}}" +:+ rest)) env st
          = prefixed (pre +:+ Inspect v)
              (Eval (S fuel) (ast.StringLiteral rest) env st'))
      /\ (forall st',
             Eval fuel (ParseProgram name).1 env st = Ok None st' ->
             Eval (S fuel)
               (ast.StringLiteral (pre +:+ "{{" +:+ name +:+ "}}" +:+ rest))
               env st
             = prefixed pre (Eval (S fuel) (ast.StringLiteral rest) env st'))
      /\ (forall c st',
             Eval fuel (ParseProgram name).1 env st = Exit c st' ->
             Eval (S fuel)
               (ast.StringLiteral (pre +:+ "{{" +:+ name +:+ "}}" +:+ rest))
               env st
             = Exit c st'))
  /\ (envGet (heap st) env name = None ->
      builtins st !! name = None ->
      isRepl st = false ->
      (ParseProgram name).1
        = ast.Program [ast.ExpressionStatement (ast.Identifier name)] ->
      Eval (S (S (S (S fuel))))
        (ast.StringLiteral (pre +:+ "{{" +:+ name +:+ "}}" +:+ rest)) env st
      = Exit 1
          (setStdout (stdout st +:+ "identifier not found: " +:+ name
                      +:+ newline) st))
  /\ Eval (S fuel)
       (ast.StringLiteral (pre +:+ "\" +:+ "{{" +:+ name +:+ "}}" +:+ rest))
       env st
     = prefixed (pre +:+ "{{" +:+ name +:+ "}}")
         (Eval (S fuel) (ast.StringLiteral rest) env st)
  /\ (forall text,
         noOpening text = true ->
         Eval (S fuel) (ast.StringLiteral text) env st
         = Ok (Some (object.String text)) st).
Proof.
  intros Hpre Hname.
  assert (Hlit : forall f,
             Eval (S f)
               (ast.StringLiteral (pre +:+ "{{" +:+ name +:+ "}}" +:+ rest))
               env st
             = match
                 (v <- Get env name ;;
                  match v with
                  | None =>
                      evaluated <- Eval f (ParseProgram name).1 env ;;
                      match evaluated with
                      | Some e => ret (Inspect e)
                      | None => ret EmptyString
                      end
                  | Some val => o <- deref val ;; ret (Inspect o)
                  end) st
               with
               | Ok r st' =>
                   prefixed (pre +:+ r)
                     (Eval (S f) (ast.StringLiteral rest) env st')
               | Exit c st' => Exit c st'
               | GoPanic msg st' => GoPanic msg st'
               | OutOfFuel => OutOfFuel
               end).
  { intros f.
    replace (pre +:+ "{{" +:+ name +:+ "}}" +:+ rest)
      with (pre +:+ ("{{" +:+ name +:+ "}}") +:+ rest)
      by (cbn; now rewrite !append_assoc).
    rewrite (literal_step f pre ("{{" +:+ name +:+ "}}") rest env st Hpre).
    - now rewrite interpolateMatch_fragment.
    - replace (("{{" +:+ name +:+ "}}") +:+ rest)
        with ("{{" +:+ name +:+ "}}" +:+ rest)
        by (cbn; now rewrite !append_assoc).
      now apply matchAt_fragment. }
  split; [| split; [| split; [| split]]].
  - intros v Hget. rewrite Hlit. unfold bind, Get. now rewrite Hget.
  - intros Hget. repeat split.
    + intros v st' Hev. rewrite Hlit. unfold bind, Get. now rewrite Hget, Hev.
    + intros st' Hev. rewrite Hlit. unfold bind, Get. rewrite Hget, Hev.
      cbn [ret]. now rewrite append_nil_r.
    + intros c st' Hev. rewrite Hlit. unfold bind, Get. now rewrite Hget, Hev.
  - intros Hget Hnob Hrun Hparse. rewrite Hlit, Hparse.
    unfold bind at 1. unfold Get at 1. rewrite Hget.
    assert (Hid : Eval (S (S (S fuel)))
                    (ast.Program [ast.ExpressionStatement (ast.Identifier name)])
                    env st
                  = Exit 1
                      (setStdout (stdout st +:+ "identifier not found: " +:+ name
                                  +:+ newline) st)).
    { cbn. unfold evalIdentifier, bind, Get, getState. rewrite Hget, Hnob.
      unfold Println, Print, modify, ExitConditionally. cbn. now rewrite Hrun. }
    unfold bind. now rewrite Hid.
  - replace (pre +:+ "\" +:+ "{{" +:+ name +:+ "}}" +:+ rest)
      with (pre +:+ ("\{{" +:+ name +:+ "}}") +:+ rest)
      by (cbn; now rewrite !append_assoc).
    rewrite (literal_step fuel pre ("\{{" +:+ name +:+ "}}") rest env st Hpre).
    + change ("\{{" +:+ name +:+ "}}")
        with (String.String "\" ("{{" +:+ name +:+ "}}")).
      now rewrite interpolateMatch_escaped.
    + replace (("\{{" +:+ name +:+ "}}") +:+ rest)
        with ("\{{" +:+ name +:+ "}}" +:+ rest)
        by (cbn; now rewrite !append_assoc).
      now apply matchAt_escaped_fragment.
  - intros text Htext. rewrite Eval_string. unfold bind, Interpolate.
    now rewrite Replace_noOpening.
Qed.

End Fragments.

(** C8, the claim as the spec words it, refuted: with no binding for
    [y], [print("x={{y}}")] prints the complaint about [y] and the program
    exits with code 1; it does not print [x=]. *)
Lemma unbound_fragment_aborts :
  envGet (heap (Sample.counter 0)) Sample.global "y" = None
  /\ Eval 6 (Sample.call "print" [ast.StringLiteral "x={{y}}"]) Sample.global
       (Sample.counter 0)
     = Exit 1
         (setStdout ("identifier not found: y" +:+ newline) (Sample.counter 0)).
Proof. split; vm_compute; reflexivity. Qed.

(** [x={{n}}!] is [x=7!] and [{{n}}-{{n}}] is [7-7]. *)
Lemma interpolation_witness :
  closedText "x=" = true
  /\ lacks "}" "n" = true
  /\ envGet (heap (Sample.counter 7)) Sample.global "n"
     = Some (Some (object.Integer 7))
  /\ Eval 1 (ast.StringLiteral "x={{n}}!") Sample.global (Sample.counter 7)
     = Ok (Some (object.String "x=7!")) (Sample.counter 7)
  /\ Eval 1 (ast.StringLiteral "{{n}}-{{n}}") Sample.global (Sample.counter 7)
     = Ok (Some (object.String "7-7")) (Sample.counter 7).
Proof.
  split; [reflexivity |]. split; [reflexivity |].
  split; [vm_compute; reflexivity |]. split.
  - exact (proj1 (interpolation_of_fragment 0 "x=" "n" "!" Sample.global
                    (Sample.counter 7) eq_refl eq_refl)
             (object.Integer 7) eq_refl).
  - exact (proj1 (interpolation_of_fragment 0 "" "n" "-{{n}}" Sample.global
                    (Sample.counter 7) eq_refl eq_refl)
             (object.Integer 7) eq_refl).
Defined.

(** ** The module cache *)

Create HintDb keeps.

Section Keeps.

Context {A B : Type} (P : State -> Prop).

Lemma keeps_ret (a : A) : keeps P (ret a).
Proof. intros st HP. exact HP. Qed.

Lemma keeps_panic (msg : string) : keeps P (@panic A msg).
Proof. intros st HP. exact HP. Qed.

Lemma keeps_osExit (code : Z) : keeps P (@osExit A code).
Proof. intros st HP. exact HP. Qed.

Lemma keeps_outOfFuel : keeps P (@outOfFuel A).
Proof. intros st HP. exact I. Qed.

Lemma keeps_bind (m : M A) (k : A -> M B) :
  keeps P m -> (forall a, keeps P (k a)) -> keeps P (bind m k).
Proof.
  intros Hm Hk st HP. specialize (Hm st HP). unfold bind.
  destruct (m st) as [a st' | c st' | msg st' |]; cbn in *; try assumption.
  now apply Hk.
Qed.

End Keeps.

#[local] Hint Resolve keeps_ret keeps_panic keeps_osExit keeps_outOfFuel : keeps.

Ltac keeps_go :=
  repeat first
    [ assumption
    | solve [auto with keeps]
    | apply keeps_bind; [| intros ?]
    | match goal with
      | |- keeps _ (match ?x with _ => _ end) => destruct x
      end
    | progress cbv beta zeta ].

Section CacheKept.

Context `{Externals}.
Variables (key : string) (module : OBJ).

Let P : State -> Prop := cached key module.

(** A computation that leaves the cache as it is keeps its entries. *)
Lemma keeps_cache {A} (m : M A) :
  (forall st,
      match finalState (m st) with
      | Some st' => importCache st' = importCache st
      | None => True
      end) ->
  keeps P m.
Proof.
  intros Hm st HP. specialize (Hm st).
  destruct (finalState (m st)); [| exact I].
  unfold P, cached in *. now rewrite Hm.
Qed.

Lemma keeps_Print s : keeps P (Print s).
Proof. now apply keeps_cache. Qed.
Lemma keeps_Println s : keeps P (Println s).
Proof. now apply keeps_cache. Qed.
Lemma keeps_Eprint s : keeps P (Eprint s).
Proof. now apply keeps_cache. Qed.
Lemma keeps_ExitConditionally c : keeps P (ExitConditionally c).
Proof.
  apply keeps_cache. intros st. unfold ExitConditionally. now destruct (isRepl st).
Qed.
Lemma keeps_getState : keeps P getState.
Proof. now apply keeps_cache. Qed.
Lemma keeps_Get e name : keeps P (Get e name).
Proof. now apply keeps_cache. Qed.
Lemma keeps_currentArgs e : keeps P (currentArgs e).
Proof.
  apply keeps_cache. intros st. unfold currentArgs. now destruct (heap st !! e).
Qed.
Lemma keeps_newFrame o p args : keeps P (newFrame o p args).
Proof. now apply keeps_cache. Qed.
Lemma keeps_Set e name v : keeps P (Set_ e name v).
Proof.
  apply keeps_cache. intros st. unfold Set_.
  destruct (targetFrame _ _ _ _) as [[t f] |]; [| reflexivity].
  now destruct (isImmutableIn f name).
Qed.
Lemma keeps_SetLet e name v : keeps P (SetLet e name v).
Proof.
  apply keeps_cache. intros st. unfold SetLet.
  now destruct (targetFrame _ _ _ _) as [[t f] |].
Qed.
Lemma keeps_ExportedHash e : keeps P (ExportedHash e).
Proof.
  apply keeps_cache. intros st. unfold ExportedHash. now destruct (heap st !! e).
Qed.
Lemma keeps_deref o : keeps P (deref o).
Proof. now destruct o; apply keeps_cache. Qed.
Lemma keeps_TypeOf o : keeps P (TypeOf o).
Proof. now destruct o; apply keeps_cache. Qed.
Lemma keeps_badAssertion {A} : keeps P (@badAssertion A).
Proof. now apply keeps_cache. Qed.
Lemma keeps_exists path : keeps P (exists_ path).
Proof. now apply keeps_cache. Qed.
Lemma keeps_ReadFile path : keeps P (ReadFile path).
Proof.
  apply keeps_cache. intros st. unfold ReadFile. now destruct (files st !! path).
Qed.

Hint Resolve keeps_Print keeps_Println keeps_Eprint keeps_ExitConditionally
  keeps_getState keeps_Get keeps_currentArgs keeps_newFrame keeps_Set
  keeps_SetLet keeps_ExportedHash keeps_deref keeps_TypeOf keeps_badAssertion
  keeps_exists keeps_ReadFile : keeps.

(** The operators and the lookups do not write to the cache. *)
Lemma keeps_evalPrefixExpression operator right :
  keeps P (evalPrefixExpression operator right).
Proof.
  unfold evalPrefixExpression, evalMinusPrefixOperatorExpression,
    evalNotPrefixOperatorExpression. keeps_go.
Qed.

Lemma keeps_evalIntegerInfixExpression operator l r :
  keeps P (evalIntegerInfixExpression operator l r).
Proof. unfold evalIntegerInfixExpression. keeps_go. Qed.

Lemma keeps_floatInfix operator l r x y : keeps P (floatInfix operator l r x y).
Proof. unfold floatInfix. keeps_go. Qed.

Lemma keeps_evalStringInfixExpression operator l r :
  keeps P (evalStringInfixExpression operator l r).
Proof. unfold evalStringInfixExpression. keeps_go. Qed.

Hint Resolve keeps_evalPrefixExpression keeps_evalIntegerInfixExpression
  keeps_floatInfix keeps_evalStringInfixExpression : keeps.

Lemma keeps_evalInfixExpression operator left right env :
  keeps P (evalInfixExpression operator left right env).
Proof.
  unfold evalInfixExpression, evalFloatInfixExpression,
    evalFloatIntegerInfixExpression, evalIntegerFloatInfixExpression,
    evalBooleanInfixExpression.
  keeps_go.
Qed.

Lemma keeps_evalIdentifier name env : keeps P (evalIdentifier name env).
Proof. unfold evalIdentifier. keeps_go. Qed.

Lemma keeps_lookupAttempts attempts o k env :
  keeps P (lookupAttempts attempts o k env).
Proof.
  induction attempts as [| prefix rest IH]; cbn [lookupAttempts];
    unfold NewEnclosedEnvironment; keeps_go.
Qed.

Hint Resolve keeps_evalInfixExpression keeps_evalIdentifier
  keeps_lookupAttempts : keeps.

Lemma keeps_objectGetMethod o k env : keeps P (objectGetMethod o k env).
Proof. unfold objectGetMethod. keeps_go. Qed.

Hint Resolve keeps_objectGetMethod : keeps.

Lemma keeps_evalHashIndexExpression hash index env :
  keeps P (evalHashIndexExpression hash index env).
Proof. unfold evalHashIndexExpression. keeps_go. Qed.

Hint Resolve keeps_evalHashIndexExpression : keeps.

Lemma keeps_evalIndexExpression left index env :
  keeps P (evalIndexExpression left index env).
Proof.
  unfold evalIndexExpression, evalArrayIndexExpression,
    evalStringIndexExpression, evalModuleIndexExpression.
  keeps_go.
Qed.

Lemma keeps_evalPostfixExpression env operator name :
  keeps P (evalPostfixExpression env operator name).
Proof. unfold evalPostfixExpression. keeps_go. Qed.

Lemma keeps_evalSpread name env : keeps P (evalSpread name env).
Proof. unfold evalSpread. keeps_go. Qed.

Lemma keeps_printFn args : keeps P (printFn args).
Proof. induction args as [| arg rest IH]; cbn [printFn]; keeps_go. Qed.

Lemma keeps_panicFn args : keeps P (panicFn args).
Proof. unfold panicFn. keeps_go. Qed.

Lemma keeps_mathAbs args : keeps P (mathAbs args).
Proof. unfold mathAbs. keeps_go. Qed.

Hint Resolve keeps_evalIndexExpression keeps_evalPostfixExpression
  keeps_evalSpread keeps_printFn keeps_panicFn keeps_mathAbs : keeps.

Lemma keeps_rmFn args : keeps P (rmFn args).
Proof.
  assert (Hrm : forall path,
             keeps P (modify (fun st => setFiles (delete path (files st)) st)))
    by (intros path; now apply keeps_cache).
  unfold rmFn. keeps_go.
Qed.

Hint Resolve keeps_rmFn : keeps.

Hypothesis natives : nativesKeepCache.

Lemma keeps_callNative name env args : keeps P (callNative name env args).
Proof. apply keeps_cache. intros st. apply natives. Qed.

Hint Resolve keeps_callNative : keeps.

(** The walkers keep the entry when the evaluation of their sub-nodes
    does. *)
Section OverEval.

Variable EvalSub : ast.Node -> ENV -> M OBJ.
Hypothesis keeps_EvalSub : forall node env, keeps P (EvalSub node env).

Hint Resolve keeps_EvalSub : keeps.

Lemma keeps_evalProgramFrom statements :
  forall result env, keeps P (evalProgramFrom EvalSub result statements env).
Proof.
  induction statements as [| s rest IH]; intros result env;
    cbn [evalProgramFrom]; keeps_go.
Qed.

Lemma keeps_evalBlockFrom statements :
  forall result env, keeps P (evalBlockFrom EvalSub result statements env).
Proof.
  induction statements as [| s rest IH]; intros result env;
    cbn [evalBlockFrom]; keeps_go.
Qed.

Lemma keeps_evalIfExpression cond cons alt env :
  keeps P (evalIfExpression EvalSub cond cons alt env).
Proof. unfold evalIfExpression. keeps_go. Qed.

Lemma keeps_evalExpressionFrom exps :
  forall result env, keeps P (evalExpressionFrom EvalSub result exps env).
Proof.
  induction exps as [| e rest IH]; intros result env;
    cbn [evalExpressionFrom]; keeps_go.
Qed.

Lemma keeps_ReplaceAllStringFunc repl n :
  (forall m, keeps P (repl m)) ->
  forall s, keeps P (ReplaceAllStringFunc n s repl).
Proof.
  intros Hrepl. induction n as [| n IH]; intros s;
    cbn [ReplaceAllStringFunc]; keeps_go.
Qed.

Lemma keeps_Interpolate str env : keeps P (Interpolate EvalSub str env).
Proof.
  unfold Interpolate. apply keeps_ReplaceAllStringFunc.
  intros m. unfold interpolateMatch. keeps_go.
Qed.

Lemma keeps_findIn paths basename : keeps P (findIn paths basename).
Proof. induction paths as [| p rest IH]; cbn [findIn]; keeps_go. Qed.

Hint Resolve keeps_evalProgramFrom keeps_evalBlockFrom keeps_evalIfExpression
  keeps_evalExpressionFrom keeps_Interpolate keeps_findIn : keeps.

Lemma keeps_EvalModule name : keeps P (EvalModule EvalSub name).
Proof. unfold EvalModule, FindModule, NewEnvironment. keeps_go. Qed.

Lemma keeps_templateFn env args : keeps P (templateFn EvalSub env args).
Proof. unfold templateFn. keeps_go. Qed.

Hint Resolve keeps_EvalModule keeps_templateFn : keeps.

Lemma keeps_callBuiltin fn env args :
  keeps P (callBuiltin EvalSub fn env args).
Proof. destruct fn; cbn [callBuiltin]; keeps_go. Qed.

Hint Resolve keeps_callBuiltin : keeps.

(** An import writes under its own key only, and only when the key is
    absent. *)
Lemma keeps_evalImportExpression name env :
  keeps P (evalImportExpression EvalSub name env).
Proof.
  intros st HP. unfold evalImportExpression, bind at 1, getState.
  destruct (importCache st !! NodeString name) as [ev |] eqn:Hmiss;
    [exact HP |].
  assert (Hkey : NodeString name <> key).
  { intros Heq. unfold P, cached in HP. rewrite Heq in Hmiss. congruence. }
  revert st HP Hmiss.
  change (forall st, P st -> importCache st !! NodeString name = None ->
            match finalState
                    ((n <- EvalSub name env ;;
                      if isError n then ret n
                      else match n with
                           | Some (object.String s) =>
                               attrs <- EvalModule EvalSub s ;;
                               if isError attrs then ret attrs
                               else
                                 modify (fun st0 =>
                                           setImportCache
                                             (<[NodeString name :=
                                                  Some (object.Module s attrs)]>
                                                (importCache st0)) st0) ;;
                                 ret (Some (object.Module s attrs))
                           | _ =>
                               ret (NewError
                                      ("ImportError: invalid import path '"
                                       +:+ fmtValue n +:+ "'"))
                           end) st)
            with
            | Some st' => P st'
            | None => True
            end).
  intros st HP _. revert st HP.
  change (keeps P
            (n <- EvalSub name env ;;
             if isError n then ret n
             else match n with
                  | Some (object.String s) =>
                      attrs <- EvalModule EvalSub s ;;
                      if isError attrs then ret attrs
                      else
                        modify (fun st0 =>
                                  setImportCache
                                    (<[NodeString name :=
                                         Some (object.Module s attrs)]>
                                       (importCache st0)) st0) ;;
                        ret (Some (object.Module s attrs))
                  | _ =>
                      ret (NewError
                             ("ImportError: invalid import path '"
                              +:+ fmtValue n +:+ "'"))
                  end)).
  assert (Hwrite : forall v,
             keeps P (modify (fun st0 =>
                                setImportCache
                                  (<[NodeString name := v]> (importCache st0))
                                  st0))).
  { intros v st HP. unfold P, cached in *. cbn.
    now rewrite lookup_insert_ne. }
  keeps_go.
Qed.

Lemma keeps_loopReturns rt : keeps P (loopReturns rt).
Proof. unfold loopReturns. keeps_go. Qed.

Hint Resolve keeps_evalImportExpression keeps_loopReturns : keeps.

Lemma keeps_evalAssignStatement name operator value env :
  keeps P (evalAssignStatement EvalSub name operator value env).
Proof. unfold evalAssignStatement, compoundAssign. keeps_go. Qed.

Lemma keeps_forLoop n cond cons env : keeps P (forLoop EvalSub n cond cons env).
Proof. induction n as [| n IH]; cbn [forLoop]; keeps_go. Qed.

Lemma keeps_foreachLoop items ident index body child :
  keeps P (foreachLoop EvalSub items ident index body child).
Proof.
  induction items as [| [v i] rest IH]; cbn [foreachLoop]; keeps_go.
Qed.

Hint Resolve keeps_evalAssignStatement keeps_forLoop keeps_foreachLoop : keeps.

Lemma keeps_evalForeachExpression ident index value body env :
  keeps P (evalForeachExpression EvalSub ident index value body env).
Proof. unfold evalForeachExpression, NewTemporaryScope. keeps_go. Qed.

Lemma keeps_evalHashPairs nodes :
  forall pairs env, keeps P (evalHashPairs EvalSub pairs nodes env).
Proof.
  induction nodes as [| [k v] rest IH]; intros pairs env;
    cbn [evalHashPairs]; keeps_go.
Qed.

Lemma keeps_setDefaults defaults env :
  keeps P (setDefaults EvalSub defaults env).
Proof.
  induction defaults as [| [k v] rest IH]; cbn [setDefaults]; keeps_go.
Qed.

Lemma keeps_setParameters params :
  forall args env, keeps P (setParameters params args env).
Proof.
  induction params as [| p ps IH]; intros [| a args] env;
    cbn [setParameters]; keeps_go.
Qed.

Hint Resolve keeps_evalForeachExpression keeps_evalHashPairs
  keeps_setDefaults keeps_setParameters : keeps.

Lemma keeps_ApplyFunction env fn args :
  keeps P (ApplyFunction EvalSub env fn args).
Proof.
  unfold ApplyFunction, extendFunctionEnv, NewEnclosedEnvironment. keeps_go.
Qed.

Hint Resolve keeps_ApplyFunction : keeps.

Lemma keeps_evalCall function arguments env :
  keeps P (evalCall EvalSub function arguments env).
Proof.
  unfold evalCall, evalExpression, spliceCurrentArgs. keeps_go.
Qed.

End OverEval.

(** No evaluation removes or replaces an entry of the module cache. *)
Lemma keeps_evalContext fuel :
  forall ctx node env, keeps P (evalContext fuel ctx node env).
Proof.
  induction fuel as [| fuel IH]; intros ctx node env;
    [apply keeps_outOfFuel |].
  cbn [evalContext]. destruct ctx as [reason |]; [apply keeps_ret |].
  pose proof (IH None) as IHEval.
  destruct node;
    auto using keeps_evalProgramFrom, keeps_evalBlockFrom,
      keeps_evalIfExpression, keeps_evalImportExpression, keeps_forLoop,
      keeps_evalForeachExpression, keeps_evalCall, keeps_evalAssignStatement,
      keeps_evalHashPairs with keeps;
    pose proof (keeps_evalExpressionFrom _ IHEval) as Hexps;
    pose proof (keeps_Interpolate _ IHEval) as Hinterp;
    pose proof (keeps_evalProgramFrom _ IHEval) as Hprogram;
    pose proof (keeps_evalBlockFrom _ IHEval) as Hblock;
    pose proof (keeps_evalHashPairs _ IHEval) as Hpairs;
    unfold evalExpression, evalProgram, evalBlockStatement, evalHashLiteral;
    keeps_go.
Qed.

End CacheKept.

Section Imports.

Context `{Externals}.

(** What a module exports: the bindings of its frame whose names do not
    start with an underscore, each under the key of its name. *)
Lemma exportedPairs_lookup (f : Frame) (k : string) :
  lookupPair (object.KeyString k) (exportedPairs f)
  = match store f !! k with
    | Some (v, _) =>
        match k with
        | String.String "_" _ => None
        | _ => Some (Some (object.String k), v)
        end
    | None => None
    end.
Proof.
  unfold exportedPairs.
  set (g := fun kv : string * (OBJ * bool) =>
              (object.KeyString kv.1, (Some (object.String kv.1), kv.2.1))).
  set (l := filter (fun kv : string * (OBJ * bool) => isPublic kv.1 = true)
              (map_to_list (store f))).
  assert (Hfirst : forall l0 hp,
             lookupPair (object.KeyString k) (map g l0) = Some hp ->
             exists vb, (k, vb) ∈ l0 /\ hp = (Some (object.String k), vb.1)).
  { induction l0 as [| [k0 vb0] l0 IH]; intros hp; [discriminate |].
    cbn [map lookupPair g fst snd object.HashKey_eqb].
    destruct (String.eqb_spec k k0) as [<- | Hne].
    - intros [= <-]. exists vb0. split; [left | reflexivity].
    - intros Hhp. destruct (IH _ Hhp) as (vb & Hin & ->).
      exists vb. split; [now right | reflexivity]. }
  assert (Hsome : forall l0 vb,
             (k, vb) ∈ l0 ->
             exists hp, lookupPair (object.KeyString k) (map g l0) = Some hp).
  { induction l0 as [| [k0 vb0] l0 IH]; intros vb Hin;
      [now apply elem_of_nil in Hin |].
    cbn [map lookupPair g fst snd object.HashKey_eqb].
    destruct (String.eqb_spec k k0) as [<- | Hne]; [eauto |].
    apply elem_of_cons in Hin as [[= -> _] | Hin]; [now destruct Hne |].
    eauto. }
  assert (Hin : forall vb,
             (k, vb) ∈ l <-> isPublic k = true /\ store f !! k = Some vb).
  { intros vb. unfold l. rewrite list_elem_of_filter, elem_of_map_to_list.
    reflexivity. }
  assert (Hpublic : isPublic k
                    = match k with
                      | String.String "_" _ => false
                      | _ => true
                      end).
  { unfold isPublic. destruct k as [| c k']; [reflexivity |].
    cbn [HasPrefix]. destruct (Ascii.eqb_spec "_" c) as [<- | Hc];
      [now destruct k' |].
    each_byte c. }
  destruct (lookupPair (object.KeyString k) (map g l)) as [hp |] eqn:Hlook.
  - destruct (Hfirst _ _ Hlook) as (vb & Hvb & ->).
    apply Hin in Hvb as [Hpub Hstore]. rewrite Hstore. destruct vb as [v b].
    rewrite Hpublic in Hpub.
    destruct k as [| c k']; [reflexivity |].
    destruct (ascii_dec c "_") as [-> | Hc]; [discriminate Hpub |].
    each_byte c.
  - destruct (store f !! k) as [[v b] |] eqn:Hstore; [| reflexivity].
    destruct (isPublic k) eqn:Hpub.
    + destruct (Hsome l (v, b)) as [hp Hhp]; [now apply Hin |]. congruence.
    + rewrite Hpublic in Hpub.
      destruct k as [| c k']; [discriminate |].
      destruct (ascii_dec c "_") as [-> | Hc]; [reflexivity |].
      exfalso. revert Hpub. each_byte c.
Qed.

(** A literal that opens no fragment is its own value, so the module
    named by the literal is the one cached under it. *)
Lemma plain_literal fuel p env st :
  lacks "{" p = true ->
  Eval (S fuel) (ast.StringLiteral p) env st = Ok (Some (object.String p)) st.
Proof.
  intros Hp. rewrite Eval_string. unfold bind, Interpolate.
  now rewrite Replace_plain.
Qed.

Lemma literal_noOpening fuel p env st :
  noOpening p = true ->
  Eval (S fuel) (ast.StringLiteral p) env st = Ok (Some (object.String p)) st.
Proof.
  intros Hp. rewrite Eval_string. unfold bind, Interpolate.
  now rewrite Replace_noOpening.
Qed.


End Imports.

Lemma sample_nativesKeepCache : nativesKeepCache.
Proof. intros name env args st. reflexivity. Qed.



(** * Further properties of the evaluator *)

(** ** Integer arithmetic in 64 bits *)

Lemma wrap64_mod (z : Z) : wrap64 z mod 2 ^ 64 = z mod 2 ^ 64.
Proof.
  unfold wrap64. rewrite Zminus_mod_idemp_l. f_equal. lia.
Qed.

Lemma wrap64_congruent (a b : Z) :
  a mod 2 ^ 64 = b mod 2 ^ 64 -> wrap64 a = wrap64 b.
Proof.
  intros Hab. unfold wrap64.
  rewrite <- (Zplus_mod_idemp_l a), <- (Zplus_mod_idemp_l b), Hab.
  reflexivity.
Qed.

Section Arithmetic.

Context `{Externals}.

Lemma evalInfix_integers operator x y env st :
  evalInfixExpression operator (Some (object.Integer x))
    (Some (object.Integer y)) env st
  = evalIntegerInfixExpression operator (object.Integer x) (object.Integer y) st.
Proof. reflexivity. Qed.

(** An infix node over two sub-nodes with values, when the operator
    gives a value that is no Error. *)
Lemma Eval_infix_value fuel l operator r env st vl st1 vr st2 res :
  Eval fuel l env st = Ok vl st1 ->
  isError vl = false ->
  Eval fuel r env st1 = Ok vr st2 ->
  isError vr = false ->
  evalInfixExpression operator vl vr env st2 = Ok res st2 ->
  isError res = false ->
  Eval (S fuel) (ast.InfixExpression l operator r) env st = Ok res st2.
Proof.
  intros Hl Hle Hr Hre Hop Hres.
  rewrite Eval_infix, (bind_Ok _ _ _ _ _ Hl), Hle, (bind_Ok _ _ _ _ _ Hr), Hre.
  rewrite (bind_Ok _ _ _ _ _ Hop).
  destruct res as [[] |]; try reflexivity. discriminate Hres.
Qed.

(** An Integer quotient is in range, but for the most negative Integer
    divided by minus one. *)
Lemma quot_in_range (a b : Z) :
  int64_range a -> b <> 0 ->
  wrap64 (Z.quot a b)
  = if (a =? - 2 ^ 63) && (b =? -1) then - 2 ^ 63 else Z.quot a b.
Proof.
  intros Ha Hb.
  destruct (Z.eqb_spec b (-1)) as [-> | Hb1].
  - change (-1) with (- (1)). rewrite Z.quot_opp_r, Z.quot_1_r by lia.
    destruct (Z.eqb_spec a (- 2 ^ 63)) as [-> | Ha1]; [reflexivity |].
    cbn [andb]. apply wrap64_id.
    unfold int64_range, MinInt64, MaxInt64 in *. lia.
  - rewrite andb_false_r. apply wrap64_id.
    destruct (Z.eq_dec b 1) as [-> | Hb2].
    + now rewrite Z.quot_1_r.
    + assert (Hq : Z.abs (Z.quot a b) <= 2 ^ 62).
      { rewrite <- Z.quot_abs by exact Hb.
        rewrite Z.quot_div_nonneg by lia.
        apply Z.div_le_upper_bound; [lia |].
        unfold int64_range, MinInt64, MaxInt64 in Ha. lia. }
      unfold int64_range, MinInt64, MaxInt64. lia.
Qed.

(** X1: quotient and remainder.  For every Integer [a] and every [b]
    other than zero, [a / b] evaluates to the quotient truncated towards
    zero (the most negative Integer divided by minus one wraps to
    itself), [a % b] to the remainder of that division, which is smaller
    than [b] in absolute value and has the sign of [a]; and
    [(a / b) * b + (a % b)] evaluates to [a]. *)
Theorem quotient_remainder_recompose fuel (a b : Z) env st :
  int64_range a ->
  b <> 0 ->
  Eval (S (S fuel))
    (ast.InfixExpression (ast.IntegerLiteral a) "/" (ast.IntegerLiteral b))
    env st
  = Ok (Some (object.Integer
                (if (a =? - 2 ^ 63) && (b =? -1) then - 2 ^ 63
                 else Z.quot a b)))
      st
  /\ Eval (S (S fuel))
       (ast.InfixExpression (ast.IntegerLiteral a) "%" (ast.IntegerLiteral b))
       env st
     = Ok (Some (object.Integer (a - b * Z.quot a b))) st
  /\ (Z.abs (Z.quot a b) * Z.abs b <= Z.abs a
      /\ Z.abs a < (Z.abs (Z.quot a b) + 1) * Z.abs b
      /\ (0 <= a * b -> 0 <= Z.quot a b)
      /\ (a * b <= 0 -> Z.quot a b <= 0))
  /\ Eval (S (S (S (S fuel))))
       (ast.InfixExpression
          (ast.InfixExpression
             (ast.InfixExpression (ast.IntegerLiteral a) "/"
                (ast.IntegerLiteral b))
             "*" (ast.IntegerLiteral b))
          "+"
          (ast.InfixExpression (ast.IntegerLiteral a) "%"
             (ast.IntegerLiteral b)))
       env st
     = Ok (Some (object.Integer a)) st.
Proof.
  intros Ha Hb.
  assert (Hq : forall f,
             Eval (S (S f))
               (ast.InfixExpression (ast.IntegerLiteral a) "/" (ast.IntegerLiteral b))
               env st
             = Ok (Some (object.Integer (wrap64 (Z.quot a b)))) st).
  { intros f. eapply Eval_infix_value; try apply Eval_integer; try reflexivity.
    rewrite evalInfix_integers. now apply division_defined. }
  assert (Hr : forall f,
             Eval (S (S f))
               (ast.InfixExpression (ast.IntegerLiteral a) "%" (ast.IntegerLiteral b))
               env st
             = Ok (Some (object.Integer (Z.rem a b))) st).
  { intros f. eapply Eval_infix_value; try apply Eval_integer; try reflexivity.
    rewrite evalInfix_integers. now apply division_defined. }
  assert (Hm : forall f,
             Eval (S (S (S f)))
               (ast.InfixExpression
                  (ast.InfixExpression (ast.IntegerLiteral a) "/"
                     (ast.IntegerLiteral b))
                  "*" (ast.IntegerLiteral b))
               env st
             = Ok (Some (object.Integer (wrap64 (wrap64 (Z.quot a b) * b)))) st).
  { intros f. eapply Eval_infix_value;
      [apply Hq | reflexivity | apply Eval_integer | reflexivity
      | reflexivity | reflexivity]. }
  split; [rewrite Hq; now rewrite quot_in_range | split; [| split]].
  - rewrite Hr. do 3 f_equal. pose proof (Z.quot_rem' a b). lia.
  - pose proof (Z.quot_rem' a b) as Hqr.
    pose proof (Z.rem_bound_abs a b Hb) as Hbound.
    pose proof (Z.rem_sign_mul a b Hb) as Hsign.
    assert (Habs : Z.abs a = Z.abs (Z.quot a b) * Z.abs b + Z.abs (Z.rem a b)).
    { rewrite <- Z.abs_mul.
      destruct (Z.eq_dec (Z.rem a b) 0) as [H0 | H0].
      - rewrite H0 in *. rewrite Z.abs_0. rewrite Hqr at 1. f_equal. lia.
      - pose proof (Z.rem_sign_nz a b Hb H0) as Hsgn.
        pose proof (Z.quot_rem' a b).
        assert (Hqs : 0 <= Z.quot a b * b * a).
        { destruct (Z.eq_dec (Z.quot a b) 0) as [-> | Hq0]; [lia |].
          pose proof (Z.quot_rem' a b). nia. }
        nia. }
    repeat split.
    + lia.
    + lia.
    + intros Hab. destruct (Z.le_gt_cases 0 (Z.quot a b)); [assumption |].
      exfalso. nia.
    + intros Hab. destruct (Z.le_gt_cases (Z.quot a b) 0); [assumption |].
      exfalso. nia.
  - eapply Eval_infix_value;
      [apply Hm | reflexivity | apply Hr | reflexivity | | reflexivity].
    rewrite evalInfix_integers. cbn. do 3 f_equal.
    rewrite <- (wrap64_id a Ha) at 3. apply wrap64_congruent.
    rewrite <- Zplus_mod_idemp_l, wrap64_mod, Zplus_mod_idemp_l.
    rewrite <- Zplus_mod_idemp_l, <- Zmult_mod_idemp_l, wrap64_mod.
    rewrite Zmult_mod_idemp_l, Zplus_mod_idemp_l. f_equal.
    rewrite (Z.quot_rem' a b) at 3. lia.
Qed.

(** X2: negation.  Negating an Integer twice gives it back; the most
    negative Integer is its own negation. *)
Theorem negation_twice fuel (v : Z) env st :
  int64_range v ->
  Eval (S (S (S fuel)))
    (ast.PrefixExpression "-" (ast.PrefixExpression "-" (ast.IntegerLiteral v)))
    env st
  = Ok (Some (object.Integer v)) st
  /\ Eval (S (S fuel)) (ast.PrefixExpression "-" (ast.IntegerLiteral MinInt64))
       env st
     = Ok (Some (object.Integer MinInt64)) st.
Proof.
  intros Hv. split; [| reflexivity].
  change (Ok (Some (object.Integer (wrap64 (- wrap64 (- v))))) st
          = Ok (Some (object.Integer v)) st).
  do 3 f_equal. rewrite <- (wrap64_id v Hv) at 2. apply wrap64_congruent.
  rewrite <- (Z.sub_0_l (wrap64 _)), <- Zminus_mod_idemp_r, wrap64_mod.
  rewrite Zminus_mod_idemp_r. f_equal. lia.
Qed.

End Arithmetic.

(** ** Operators and their errors *)

Section Operators.

Context `{Externals}.

Lemma Eval_prefix fuel operator r env :
  Eval (S fuel) (ast.PrefixExpression operator r) env =
  (right <- Eval fuel r env ;;
   if isError right then ret right else evalPrefixExpression operator right).
Proof. reflexivity. Qed.

(** X3: double negation.  [!!x] is the Boolean of [isTruthy x], the
    notion of truth of [if]: true for every value other than False and
    Null, the Integer 0 and the empty String included. *)
Theorem double_bang_is_isTruthy fuel e env st v st1 :
  Eval fuel e env st = Ok v st1 ->
  isError v = false ->
  Eval (S (S fuel)) (ast.PrefixExpression "!" (ast.PrefixExpression "!" e)) env st
  = Ok (nativeBoolToBooleanObject (isTruthy v)) st1.
Proof.
  intros He Hv. rewrite Eval_prefix.
  assert (Hinner : Eval (S fuel) (ast.PrefixExpression "!" e) env st
                   = Ok (evalBangOperatorExpression v) st1).
  { now rewrite Eval_prefix, (bind_Ok _ _ _ _ _ He), Hv. }
  rewrite (bind_Ok _ _ _ _ _ Hinner).
  now destruct v as [[| [|] | | | | | | | | | | |] |].
Qed.

(** X4: operands of different types.  For two values of different
    types that are not an Integer with a Float, [==] is false and [!=] is
    true without looking at the values, and every other operator except
    [&&] and [||] gives the type-mismatch Error. *)
Theorem mismatched_operands (l r : object.Object) env st :
  object.ObjectType_eqb (object.Type_ l) (object.Type_ r) = false ->
  typedOperands l r = false ->
  evalInfixExpression "==" (Some l) (Some r) env st = Ok FALSE st
  /\ evalInfixExpression "!=" (Some l) (Some r) env st = Ok TRUE st
  /\ forall operator,
      one_of operator ["&&"; "||"; "=="; "!="] = false ->
      evalInfixExpression operator (Some l) (Some r) env st
      = Ok (NewError ("type mismatch: " +:+ TypeName (object.Type_ l) +:+ " "
                      +:+ operator +:+ " " +:+ TypeName (object.Type_ r))) st.
Proof.
  intros Htypes Htyped.
  split; [| split].
  - destruct l, r; try discriminate; reflexivity.
  - destruct l, r; try discriminate; reflexivity.
  - intros operator Hop. unfold one_of in Hop. cbn [existsb] in Hop.
    apply orb_false_iff in Hop as [Hand Hop].
    apply orb_false_iff in Hop as [Hor Hop].
    apply orb_false_iff in Hop as [Heq Hop].
    apply orb_false_iff in Hop as [Hne _].
    destruct l, r; try discriminate; cbn;
      rewrite ?Hand, ?Hor, ?Heq, ?Hne; reflexivity.
Qed.

(** X5: an Error of an operator is fatal at the infix node.  When the
    operator applied to the two values gives an Error, a program run
    prints [Error: ...] on standard output and exits with code 1; under
    the REPL the line is printed and the Error is the value. *)
Theorem infix_error_is_fatal fuel l operator r env st vl st1 vr st2
    message code data flag :
  Eval fuel l env st = Ok vl st1 ->
  isError vl = false ->
  Eval fuel r env st1 = Ok vr st2 ->
  isError vr = false ->
  evalInfixExpression operator vl vr env st2
    = Ok (Some (object.Error message code data flag)) st2 ->
  Eval (S fuel) (ast.InfixExpression l operator r) env st
  = (let st3 := setStdout
                  (stdout st2 +:+ "Error: "
                   +:+ Inspect (object.Error message code data flag)
                   +:+ newline) st2 in
     if isRepl st2
     then Ok (Some (object.Error message code data flag)) st3
     else Exit 1 st3).
Proof.
  intros Hl Hle Hr Hre Hop.
  rewrite Eval_infix, (bind_Ok _ _ _ _ _ Hl), Hle, (bind_Ok _ _ _ _ _ Hr), Hre.
  rewrite (bind_Ok _ _ _ _ _ Hop).
  unfold bind, Print, modify, ExitConditionally. cbn.
  now destruct (isRepl st2).
Qed.

(** X6: Booleans are ordered as their texts.  The four order operators
    compare two Booleans by the byte order of their inspections; every
    other operator on two Booleans, the four that all values share
    apart, is the Error of an unknown operator, which is not fatal by
    itself. *)
Theorem booleans_compare_as_text (a b : bool) env st :
  let l := Inspect (object.Boolean a) in
  let r := Inspect (object.Boolean b) in
  let compare operator :=
    evalInfixExpression operator (Some (object.Boolean a))
      (Some (object.Boolean b)) env st in
  compare "<" = Ok (Some (object.Boolean (String.ltb l r))) st
  /\ compare "<=" = Ok (Some (object.Boolean (String.leb l r))) st
  /\ compare ">" = Ok (Some (object.Boolean (String.ltb r l))) st
  /\ compare ">=" = Ok (Some (object.Boolean (String.leb r l))) st
  /\ (forall operator,
         ~ In operator ["&&"; "||"; "=="; "!="; "<"; "<="; ">"; ">="] ->
         compare operator
         = Ok (Some (object.Error
                       ("unknown operator: " +:+ TypeName object.BOOLEAN_OBJ
                        +:+ " " +:+ operator +:+ " "
                        +:+ TypeName object.BOOLEAN_OBJ)
                       None "" false))
             st).
Proof.
  cbv zeta.
  assert (Hbool : forall x : bool,
             nativeBoolToBooleanObject x = Some (object.Boolean x))
    by now intros [].
  repeat split;
    try (unfold evalInfixExpression, bind; cbn [deref ret object.Type_];
         cbn [object.ObjectType_eqb orb andb negb];
         unfold evalBooleanInfixExpression, one_of; cbn;
         unfold ret; now rewrite Hbool).
  intros operator Hop.
  assert (Hne : forall x,
             In x ["&&"; "||"; "=="; "!="; "<"; "<="; ">"; ">="] ->
             String.eqb operator x = false).
  { intros x Hx. apply String.eqb_neq. now intros ->. }
  unfold evalInfixExpression, bind. cbn [deref ret object.Type_].
  cbn [object.ObjectType_eqb orb andb negb].
  unfold evalBooleanInfixExpression, one_of. cbn [existsb].
  rewrite !Hne by (cbn [In]; tauto).
  reflexivity.
Qed.

End Operators.

(** ** Blocks, argument lists and calls *)

Section Blocks.

Context `{Externals}.

Lemma Eval_block fuel statements env :
  Eval (S fuel) (ast.BlockStatement statements) env
  = evalBlockStatement (Eval fuel) statements env.
Proof. reflexivity. Qed.

Lemma Eval_program fuel statements env :
  Eval (S fuel) (ast.Program statements) env
  = evalProgram (Eval fuel) statements env.
Proof. reflexivity. Qed.

(** X7: [return] leaves every enclosing block.  When a statement of a
    block yields a ReturnValue, the statements after it are not evaluated,
    nor are those after the block in the enclosing block; the program
    yields the returned value, unwrapped. *)
Theorem return_leaves_nested_blocks fuel s inner outer more env st v st1 :
  Eval fuel s env st = Ok (Some (object.ReturnValue v)) st1 ->
  Eval (S (S fuel))
    (ast.BlockStatement (ast.BlockStatement (s :: inner) :: outer)) env st
  = Ok (Some (object.ReturnValue v)) st1
  /\ Eval (S (S (S fuel)))
       (ast.Program
          (ast.BlockStatement (ast.BlockStatement (s :: inner) :: outer) :: more))
       env st
     = Ok v st1.
Proof.
  intros Hs.
  assert (Hinner : Eval (S fuel) (ast.BlockStatement (s :: inner)) env st
                   = Ok (Some (object.ReturnValue v)) st1).
  { rewrite Eval_block. unfold evalBlockStatement. cbn [evalBlockFrom].
    now rewrite (bind_Ok _ _ _ _ _ Hs). }
  assert (Houter : Eval (S (S fuel))
                     (ast.BlockStatement (ast.BlockStatement (s :: inner) :: outer))
                     env st
                   = Ok (Some (object.ReturnValue v)) st1).
  { rewrite Eval_block. unfold evalBlockStatement. cbn [evalBlockFrom].
    now rewrite (bind_Ok _ _ _ _ _ Hinner). }
  split; [exact Houter |].
  rewrite Eval_program. unfold evalProgram. cbn [evalProgramFrom].
  now rewrite (bind_Ok _ _ _ _ _ Houter).
Qed.

End Blocks.

(** ** Argument lists and call sites *)

Section Arguments.

Context `{Externals}.
Variable EvalSub : ast.Node -> ENV -> M OBJ.

(** The values of a list of expressions none of which is an Error come
    back in order, after the ones already collected. *)
Lemma evalExpressionFrom_values pre :
  forall acc env st vals st1,
    evalExpressionFrom EvalSub acc pre env st = Ok vals st1 ->
    forallb (fun v => negb (isError v)) vals = true ->
    forall post,
      evalExpressionFrom EvalSub acc (pre ++ post) env st
      = evalExpressionFrom EvalSub vals post env st1.
Proof.
  induction pre as [| p pre IH]; intros acc env st vals st1 Hpre Hvals post.
  - cbn in Hpre. now injection Hpre as <- <-.
  - cbn [evalExpressionFrom app] in *. unfold bind in *.
    destruct (EvalSub p env st) as [v s1 | | |]; try discriminate.
    destruct (isError v) eqn:Hv.
    + injection Hpre as <- <-. cbn in Hvals. now rewrite Hv in Hvals.
    + now apply IH.
Qed.

(** The first Error ends a list of expressions.  When the expressions
    before [e] have values and [e] yields an Error, the list yields that
    Error alone: the values before it are dropped and the expressions
    after it are not evaluated. *)
Lemma evalExpression_stops pre e post env st vals st1 err st2 :
  evalExpression EvalSub pre env st = Ok vals st1 ->
  forallb (fun v => negb (isError v)) vals = true ->
  EvalSub e env st1 = Ok err st2 ->
  isError err = true ->
  evalExpression EvalSub (pre ++ e :: post) env st = Ok [err] st2.
Proof.
  intros Hpre Hvals He Herr. unfold evalExpression in *.
  rewrite (evalExpressionFrom_values _ _ _ _ _ _ Hpre Hvals).
  cbn [evalExpressionFrom]. now rewrite (bind_Ok _ _ _ _ _ He), Herr.
Qed.

End Arguments.

Section Calls.

Context `{Externals}.

Lemma Eval_array fuel els env :
  Eval (S fuel) (ast.ArrayLiteral els) env
  = (elements <- evalExpression (Eval fuel) els env ;;
     match elements with
     | [Some (object.Error _ _ _ _) as e] => ret e
     | _ => ret (Some (object.Array elements false))
     end).
Proof. reflexivity. Qed.

(** X8: an Array literal with a failing element is that Error.  The
    literal yields the first Error among its elements, not an Array. *)
Theorem array_literal_first_error fuel pre e post env st vals st1 err st2 :
  evalExpression (Eval fuel) pre env st = Ok vals st1 ->
  forallb (fun v => negb (isError v)) vals = true ->
  Eval fuel e env st1 = Ok err st2 ->
  isError err = true ->
  Eval (S fuel) (ast.ArrayLiteral (pre ++ e :: post)) env st = Ok err st2.
Proof.
  intros Hpre Hvals He Herr. rewrite Eval_array.
  rewrite (bind_Ok _ _ _ _ _
             (evalExpression_stops _ _ _ _ _ _ _ _ _ _ Hpre Hvals He Herr)).
  destruct err as [[] |]; try discriminate Herr. reflexivity.
Qed.

(** X9: a failing argument does not stop the call.  When an argument
    yields an Error, the callee is still applied, to that Error as its
    only argument, and a result of the callee that is no Error is the
    value of the call. *)
Theorem call_with_failing_argument fuel function pre e post env st fn st0
    vals st1 err st2 res st3 :
  Eval fuel function env st = Ok fn st0 ->
  isError fn = false ->
  evalExpression (Eval fuel) pre env st0 = Ok vals st1 ->
  forallb (fun v => negb (isError v)) vals = true ->
  Eval fuel e env st1 = Ok err st2 ->
  isError err = true ->
  ApplyFunction (Eval fuel) env fn [err] st2 = Ok res st3 ->
  isError res = false ->
  Eval (S fuel) (ast.CallExpression function (pre ++ e :: post)) env st
  = Ok res st3.
Proof.
  intros Hfn Hnoerr Hpre Hvals He Herr Happly Hres.
  rewrite Eval_call. unfold evalCall.
  rewrite (bind_Ok _ _ _ _ _ Hfn), Hnoerr.
  rewrite (bind_Ok _ _ _ _ _
             (evalExpression_stops _ _ _ _ _ _ _ _ _ _ Hpre Hvals He Herr)).
  assert (Hsplice : spliceCurrentArgs env [err] st2 = Ok [err] st2).
  { destruct err as [[] |]; try discriminate Herr. reflexivity. }
  rewrite (bind_Ok _ _ _ _ _ Hsplice), (bind_Ok _ _ _ _ _ Happly).
  destruct res as [[] |]; try reflexivity. discriminate Hres.
Qed.

(** X10: calling what is no function.  When the callee is a value that is
    neither a Function nor a Builtin, the call is the Error
    [not a function], whose flag is unset: a program run reports it on
    standard error and exits with code 1. *)
Theorem call_of_non_function fuel function arguments env st v st1 args st2
    args' st3 :
  Eval fuel function env st = Ok (Some v) st1 ->
  object.Type_ v <> object.FUNCTION_OBJ ->
  object.Type_ v <> object.BUILTIN_OBJ ->
  object.Type_ v <> object.ERROR_OBJ ->
  evalExpression (Eval fuel) arguments env st1 = Ok args st2 ->
  spliceCurrentArgs env args st2 = Ok args' st3 ->
  isRepl st3 = false ->
  Eval (S fuel) (ast.CallExpression function arguments) env st
  = Exit 1
      (setStderr
         (stderr st3 +:+ "Error calling `" +:+ NodeString function +:+ "` : "
          +:+ Inspect (object.Error
                         ("not a function: " +:+ TypeName (object.Type_ v))
                         None "" false)
          +:+ newline) st3).
Proof.
  intros Hfn Hnf Hnb Hne Hargs Hsplice Hrun.
  rewrite Eval_call. unfold evalCall.
  rewrite (bind_Ok _ _ _ _ _ Hfn).
  assert (Hv : isError (Some v) = false) by (destruct v; try reflexivity; now destruct Hne).
  rewrite Hv, (bind_Ok _ _ _ _ _ Hargs), (bind_Ok _ _ _ _ _ Hsplice).
  assert (Happly : ApplyFunction (Eval fuel) env (Some v) args' st3
                   = Ok (NewError ("not a function: " +:+ TypeName (object.Type_ v)))
                       st3).
  { destruct v; try reflexivity; [now destruct Hnf | now destruct Hnb]. }
  rewrite (bind_Ok _ _ _ _ _ Happly). unfold NewError. cbn [negb].
  unfold bind, Eprint, modify, ExitConditionally. cbn. now rewrite Hrun.
Qed.

(** ** Assignment *)

Lemma Eval_assign fuel name operator value env :
  Eval (S fuel) (ast.AssignStatement name operator value) env
  = evalAssignStatement (Eval fuel) name operator value env.
Proof. reflexivity. Qed.

(** X11: assignment to an unknown name.  With [name] bound nowhere, the
    plain assignment [name = e] prints its complaint and ends a program
    run with exit code 1 once [e] has its value, while [name += e] (and
    the other compound forms) yields the Error [name is unknown] as a
    value; neither binds the name. *)
Theorem assignment_to_unknown_name fuel name value env st v st1 :
  Eval fuel value env st = Ok v st1 ->
  isError v = false ->
  envGet (heap st1) env name = None ->
  isRepl st1 = false ->
  Eval (S fuel) (ast.AssignStatement name "=" value) env st
  = Exit 1
      (setStdout
         (stdout st1 +:+ "Setting unknown variable '" +:+ name
          +:+ "' is an error!" +:+ newline) st1)
  /\ forall operator,
      one_of operator ["+="; "-="; "*="; "/="] = true ->
      Eval (S fuel) (ast.AssignStatement name operator value) env st
      = Ok (NewError (name +:+ " is unknown")) st1.
Proof.
  intros Hv Hnoerr Hget Hrun. split.
  - rewrite Eval_assign. unfold evalAssignStatement.
    rewrite (bind_Ok _ _ _ _ _ Hv), Hnoerr. cbn [one_of existsb String.eqb
      Ascii.eqb Bool.eqb orb].
    unfold bind, Get, Print, modify, ExitConditionally. rewrite Hget. cbn.
    now rewrite Hrun.
  - intros operator Hop. rewrite Eval_assign. unfold evalAssignStatement.
    rewrite (bind_Ok _ _ _ _ _ Hv), Hnoerr, Hop.
    unfold compoundAssign, bind, Get. now rewrite Hget.
Qed.

End Calls.

(** ** Indexing Arrays and Hashes *)

Section Indexing.

Context `{Externals}.

(** X12: indexing an Array never panics.  An Integer index from 0 to the
    length less one yields the element at that place; every other
    Integer, the negative ones included, yields Null. *)
Theorem array_index_in_and_out_of_range els b idx env st :
  (0 <= idx < Z.of_nat (length els) ->
   exists el,
     els !! Z.to_nat idx = Some el
     /\ evalArrayIndexExpression (object.Array els b)
          (Some (object.Integer idx)) env st
        = Ok el st)
  /\ (idx < 0 \/ Z.of_nat (length els) <= idx ->
      evalArrayIndexExpression (object.Array els b)
        (Some (object.Integer idx)) env st
      = Ok NULL st).
Proof.
  unfold evalArrayIndexExpression. split.
  - intros Hidx.
    destruct (lookup_lt_is_Some_2 els (Z.to_nat idx) ltac:(lia)) as [el Hel].
    exists el. split; [exact Hel |].
    destruct (Z.ltb_spec idx 0); [lia |].
    destruct (Z.gtb_spec idx (Z.of_nat (length els) - 1)); [lia |].
    cbn [orb]. now rewrite Hel.
  - intros [Hidx | Hidx].
    + destruct (Z.ltb_spec idx 0); [reflexivity | lia].
    + destruct (Z.gtb_spec idx (Z.of_nat (length els) - 1));
        [now rewrite orb_true_r | lia].
Qed.

(** X13: indexing a Hash.  A key that is present yields its value; a key
    that cannot be hashed yields the Error [unusable as hash key]; an
    absent key that is no String yields Null. *)
Theorem hash_index_cases pairs (i : object.Object) env st :
  (forall key hp,
      HashKeyOf i = Some key ->
      lookupPair key pairs = Some hp ->
      evalHashIndexExpression (Some (object.Hash pairs)) (Some i) env st
      = Ok hp.2 st)
  /\ (HashKeyOf i = None ->
      evalHashIndexExpression (Some (object.Hash pairs)) (Some i) env st
      = Ok (NewError ("unusable as hash key: " +:+ TypeName (object.Type_ i))) st)
  /\ (forall key,
         HashKeyOf i = Some key ->
         lookupPair key pairs = None ->
         object.Type_ i <> object.STRING_OBJ ->
         evalHashIndexExpression (Some (object.Hash pairs)) (Some i) env st
         = Ok NULL st).
Proof.
  unfold evalHashIndexExpression. split; [| split].
  - intros key hp -> ->. reflexivity.
  - intros ->. reflexivity.
  - intros key -> -> Hns.
    destruct i; try reflexivity. now destruct Hns.
Qed.

End Indexing.

(** ** Writes to a fresh frame *)

(** A write to a name that the newest frame permits and does not hold
    as immutable binds the name in that frame. *)
Lemma Set_newest_frame (st : State) (f : Frame) (name : string) (v : OBJ) :
  permits f name = true ->
  isImmutableIn f name = false ->
  Set_ (length (heap st)) name v (setHeap (heap st ++ [f]) st)
  = Ok tt (setHeap (heap st ++ [bindIn f name v false]) st).
Proof.
  intros Hp Himm. unfold Set_. cbn [heap setHeap targetFrame].
  rewrite (list_lookup_middle (heap st) [] f (length (heap st)) eq_refl).
  rewrite Hp, Himm. unfold setHeap. cbn. do 2 f_equal.
  rewrite insert_app_r_alt by lia. now rewrite Nat.sub_diag.
Qed.

Lemma isImmutableIn_fresh o p a name :
  isImmutableIn (mkFrame ∅ o p a) name = false.
Proof. unfold isImmutableIn. cbn [store]. now rewrite lookup_empty. Qed.

(** [ToLower] byte by byte: an upper-case ASCII letter becomes the
    lower-case one, every other byte stays. *)
Lemma ToLower_spec (s : string) :
  String.length (ToLower s) = String.length s
  /\ forall i c,
      String.get i s = Some c ->
      String.get i (ToLower s)
      = Some (if (65 <=? Z.of_N (N_of_ascii c))
                 && (Z.of_N (N_of_ascii c) <=? 90)
              then ascii_of_N (N_of_ascii c + 32)
              else c).
Proof.
  assert (Hstep : forall c t,
             ToLower (String.String c t)
             = String.String (lowerAscii c) (ToLower t)) by reflexivity.
  assert (Hlower : forall c,
             lowerAscii c
             = if (65 <=? Z.of_N (N_of_ascii c))
                  && (Z.of_N (N_of_ascii c) <=? 90)
               then ascii_of_N (N_of_ascii c + 32)
               else c).
  { intros c. unfold lowerAscii, between, byteZ, asciiZ.
    destruct ((65 <=? Z.of_N (N_of_ascii c))
              && (Z.of_N (N_of_ascii c) <=? 90)); [| reflexivity].
    f_equal. lia. }
  induction s as [| c t [IHlen IHget]]; [split; [reflexivity | discriminate] |].
  rewrite Hstep. split; [cbn [String.length]; now rewrite IHlen |].
  intros [| i] c'; cbn [String.get].
  - intros [= <-]. now rewrite Hlower.
  - apply IHget.
Qed.

Section Methods.

Context `{Externals}.

(** X14: the order of method resolution.  For a String key [k]: the
    receiver's own method comes first; then the binding of
    ["<type>.k"], the name of a system type in lower case; then that of
    ["object.k"]; with none of them there is no method.  A Function
    found under either name is copied with a fresh environment, enclosed
    in the Function's own, in which [self] is the receiver; any other
    value found is the method as it is. *)
Theorem method_resolution_order (o : object.Object) (k : string) env st :
  let t := object.Type_ o in
  let typed :=
    (if SystemTypesMap t then ToLower (TypeName t) else TypeName t)
    +:+ "." +:+ k in
  let method := objectGetMethod o (Some (object.String k)) env st in
  let copied ps ds body fenv doc :=
    Ok (Some (Some (object.Function ps ds body (length (heap st)) doc)))
      (setHeap
         (heap st
          ++ [mkFrame {["self" := (Some o, false)]} (Some fenv) None []])
         st) in
  (forall fn,
      GetMethod o k = Some fn ->
      method = Ok (Some (Some (object.Builtin fn))) st)
  /\ (GetMethod o k = None ->
      (forall v,
          envGet (heap st) env typed = Some v ->
          (forall ps ds body fenv doc,
              v <> Some (object.Function ps ds body fenv doc)) ->
          method = Ok (Some v) st)
      /\ (forall v,
             envGet (heap st) env typed = None ->
             envGet (heap st) env ("object." +:+ k) = Some v ->
             (forall ps ds body fenv doc,
                 v <> Some (object.Function ps ds body fenv doc)) ->
             method = Ok (Some v) st)
      /\ (envGet (heap st) env typed = None ->
          envGet (heap st) env ("object." +:+ k) = None ->
          method = Ok None st)
      /\ (forall ps ds body fenv doc,
             envGet (heap st) env typed
               = Some (Some (object.Function ps ds body fenv doc)) ->
             method = copied ps ds body fenv doc)
      /\ (forall ps ds body fenv doc,
             envGet (heap st) env typed = None ->
             envGet (heap st) env ("object." +:+ k)
               = Some (Some (object.Function ps ds body fenv doc)) ->
             method = copied ps ds body fenv doc))
  /\ (forall s,
         String.length (ToLower s) = String.length s
         /\ forall i c,
             String.get i s = Some c ->
             String.get i (ToLower s)
             = Some (if (65 <=? Z.of_N (N_of_ascii c))
                        && (Z.of_N (N_of_ascii c) <=? 90)
                     then ascii_of_N (N_of_ascii c + 32)
                     else c)).
Proof.
  cbv zeta. unfold objectGetMethod. split; [| split; [| exact ToLower_spec]].
  - intros fn ->. reflexivity.
  - intros ->. cbv zeta. unfold typeText.
    set (typed := (if SystemTypesMap (object.Type_ o)
                   then ToLower (TypeName (object.Type_ o))
                   else TypeName (object.Type_ o))).
    cbn [lookupAttempts].
    assert (Hcopy : forall ps ds body fenv doc,
               (e <- NewEnclosedEnvironment fenv [] ;;
                Set_ e "self" (Some o) ;;
                ret (Some (Some (object.Function ps ds body e doc)))) st
               = Ok (Some (Some (object.Function ps ds body (length (heap st))
                                   doc)))
                   (setHeap
                      (heap st
                       ++ [mkFrame {["self" := (Some o, false)]} (Some fenv)
                             None []])
                      st)).
    { intros ps ds body fenv doc.
      unfold NewEnclosedEnvironment, newFrame, bind.
      rewrite (Set_newest_frame st (mkFrame ∅ (Some fenv) None []) "self"
                 (Some o) eq_refl (isImmutableIn_fresh _ _ _ _)).
      unfold bindIn. cbn [store outer permit CurrentArgs].
      now rewrite insert_empty. }
    repeat split.
    + intros v Hv Hnf. unfold bind at 1, Get at 1. rewrite Hv.
      destruct v as [[] |]; try reflexivity. now edestruct Hnf.
    + intros v Hnone Hv Hnf. unfold bind at 1, Get at 1. rewrite Hnone.
      unfold bind, Get.
      change ("object" +:+ "." +:+ k) with ("object." +:+ k). rewrite Hv.
      destruct v as [[] |]; try reflexivity. now edestruct Hnf.
    + intros Hnone Hnone'. unfold bind at 1, Get at 1. rewrite Hnone.
      unfold bind, Get.
      change ("object" +:+ "." +:+ k) with ("object." +:+ k).
      now rewrite Hnone'.
    + intros ps ds body fenv doc Hv. unfold bind at 1, Get at 1. rewrite Hv.
      apply Hcopy.
    + intros ps ds body fenv doc Hnone Hv.
      unfold bind at 1, Get at 1. rewrite Hnone.
      unfold bind at 1, Get at 1.
      change ("object" +:+ "." +:+ k) with ("object." +:+ k). rewrite Hv.
      apply Hcopy.
Qed.

End Methods.

(** ** The unscoped built-ins *)

Lemma setStdout_twice (a b : string) (st : State) :
  setStdout a (setStdout b st) = setStdout a st.
Proof. reflexivity. Qed.

Section Builtins.

Context `{Externals}.

(** X15: [panic].  On the Error that [error] builds from a String the
    run prints the message and exits with code 1; on the one it builds
    from a Hash with a String message and an Integer code it exits with
    that code; in the REPL nothing exits and the call is Null.  For a
    first argument that is no Error, [panic] returns an Error value and
    leaves the process as it is; called with no argument at all it
    indexes an empty slice, a Go panic. *)
Theorem panic_of_error_exit_code (st : State) :
  (forall m,
      panicFn [errorFn [Some (object.String m)]] st
      = let st' := setStdout (stdout st +:+ m +:+ newline) st in
        if isRepl st then Ok NULL st' else Exit 1 st')
  /\ (forall pairs m c,
         pairValue pairs "message" = Some (object.String m) ->
         pairValue pairs "code" = Some (object.Integer c) ->
         panicFn [errorFn [Some (object.Hash pairs)]] st
         = let st' := setStdout (stdout st +:+ m +:+ newline) st in
           if isRepl st then Ok NULL st' else Exit c st')
  /\ (forall arg rest,
         isError arg = false ->
         panicFn (arg :: rest) st
         = Ok (NewError "panic expected an error!") st)
  /\ panicFn [] st = GoPanic "index out of range" st.
Proof.
  split; [| split; [| split; [| reflexivity]]].
  - intros m. cbn. unfold bind, Println, Print, modify, ExitConditionally.
    cbn. now destruct (isRepl st).
  - intros pairs m c Hm Hc. cbn [errorFn]. rewrite Hm, Hc. cbn.
    unfold bind, Println, Print, modify, ExitConditionally.
    cbn. now destruct (isRepl st).
  - intros arg rest Harg. now destruct arg as [[] |].
Qed.

Lemma printFn_plain (objs : list object.Object) :
  forall (rest : list OBJ) (st : State),
    existsb escaped objs = false ->
    printFn (map Some objs ++ rest) st
    = printFn rest (setStdout (stdout st +:+ printedText objs) st).
Proof.
  induction objs as [| a objs IH]; intros rest st Hplain.
  - cbn [map app printedText fold_right]. destruct st. unfold setStdout. cbn.
    now rewrite append_nil_r.
  - cbn [existsb] in Hplain. apply orb_false_iff in Hplain as [Ha Hobjs].
    cbn [map app printFn]. unfold bind at 1. cbn [deref ret].
    unfold escaped in Ha. rewrite Ha.
    unfold bind at 1. unfold Print at 1, modify at 1.
    rewrite (IH rest _ Hobjs). rewrite setStdout_twice.
    cbn [stdout setStdout printedText fold_right].
    now rewrite !append_assoc.
Qed.

(** X16: what [print] writes.  With no String holding a backslash among
    the arguments, it writes the inspection of each, a space after each
    one, and then a newline, and returns Null. *)
Theorem print_writes_inspections (objs : list object.Object) (st : State) :
  existsb escaped objs = false ->
  printFn (map Some objs) st
  = Ok NULL (setStdout (stdout st +:+ printedText objs +:+ newline) st).
Proof.
  intros Hplain.
  rewrite <- (app_nil_r (map Some objs)).
  rewrite (printFn_plain objs [] st Hplain).
  cbn. unfold bind, Println, Print, modify. cbn.
  now rewrite append_assoc.
Qed.

(** X17: [print] stops at the first String that holds a backslash.  It
    writes what precedes it, then the String unquoted (or, when it
    cannot be unquoted, the String as it is and one more space), then a
    newline, and returns: the arguments after it are never written. *)
Theorem print_stops_at_escaped_string (objs : list object.Object)
    (s : string) (rest : list OBJ) (st : State) :
  existsb escaped objs = false ->
  escaped (object.String s) = true ->
  let text := Inspect (object.String s) in
  printFn (map Some objs ++ Some (object.String s) :: rest) st
  = Ok NULL
      (setStdout
         (stdout st +:+ printedText objs
          +:+ match Unquote (quote +:+ text +:+ quote) with
              | Some s' => s' +:+ " "
              | None => text +:+ "  "
              end +:+ newline) st).
Proof.
  intros Hplain Hs text.
  rewrite (printFn_plain objs _ st Hplain).
  cbn [printFn]. unfold bind at 1. cbn [deref ret].
  unfold escaped in Hs. rewrite Hs. fold text.
  destruct (Unquote (quote +:+ text +:+ quote)) as [s' |].
  - unfold bind, Println, Print, modify. cbn.
    now rewrite !append_assoc.
  - unfold bind, Println, Print, modify. cbn.
    rewrite !append_assoc. reflexivity.
Qed.

(** X18: [math.abs] of an Integer is its absolute value, the least
    Integer apart, which is its own result; of any number of arguments
    other than one it is an Error. *)
Theorem mathAbs_of_integer (st : State) :
  (forall v,
      int64_range v -> v <> MinInt64 ->
      mathAbs [Some (object.Integer v)] st
      = Ok (Some (object.Integer (Z.abs v))) st)
  /\ mathAbs [Some (object.Integer MinInt64)] st
     = Ok (Some (object.Integer MinInt64)) st
  /\ (forall args,
         length args <> 1%nat ->
         mathAbs args st
         = Ok (NewError ("wrong number of arguments. got="
                         +:+ itoa (Z.of_nat (length args)) +:+ ", want=1")) st).
Proof.
  split; [| split].
  - intros v Hv Hmin. unfold mathAbs, ret.
    destruct (Z.ltb_spec v 0) as [Hneg | Hpos].
    + rewrite wrap64_id; [do 3 f_equal; lia |].
      unfold int64_range, MinInt64, MaxInt64 in *. lia.
    + do 3 f_equal. lia.
  - reflexivity.
  - intros [| a [| b args]] Hlen; try reflexivity. now destruct Hlen.
Qed.

End Builtins.

(** ** Literals that are not interpolated *)

Lemma splitClose_lacks (s : string) :
  lacks "}" s = true -> splitClose s = None.
Proof.
  induction s as [| c s IH]; [reflexivity |].
  intros [Hc Hs]%lacks_cons.
  now rewrite (splitClose_step c s Hc), (IH Hs).
Qed.

Lemma lacks_tail (c a : ascii) (s : string) :
  lacks c (String.String a s) = true -> lacks c s = true.
Proof. intros Hs. now destruct (lacks_cons _ _ _ Hs). Qed.

(** Without a closing brace nothing matches. *)
Lemma matchAt_unclosed (s : string) :
  lacks "}" s = true -> matchAt s = None.
Proof.
  intros Hs.
  destruct s as [| c1 s1]; [reflexivity |].
  destruct (ascii_dec c1 "{") as [-> | Ho].
  - destruct s1 as [| c2 s2]; [reflexivity |].
    destruct (ascii_dec c2 "{") as [-> | Ho2]; [| now apply matchAt_open].
    cbn [matchAt]. rewrite splitClose_lacks; [reflexivity |].
    now apply lacks_tail, lacks_tail in Hs.
  - destruct (ascii_dec c1 "\") as [-> | Hb]; [| now apply matchAt_plain].
    destruct s1 as [| c2 s2]; [reflexivity |].
    destruct (ascii_dec c2 "{") as [-> | Ho2]; [| now apply matchAt_escape].
    destruct s2 as [| c3 s3]; [reflexivity |].
    destruct (ascii_dec c3 "{") as [-> | Ho3];
      [| now apply matchAt_escape_open].
    cbn [matchAt]. rewrite splitClose_lacks; [reflexivity |].
    now apply lacks_tail, lacks_tail, lacks_tail in Hs.
Qed.

Lemma Replace_unclosed (repl : string -> M string) (n : nat) :
  forall (s : string) (st : State),
    lacks "}" s = true -> ReplaceAllStringFunc n s repl st = Ok s st.
Proof.
  induction n as [| n IH]; intros s st Hs; [reflexivity |].
  destruct s as [| c s]; [reflexivity |].
  cbn [ReplaceAllStringFunc]. rewrite (matchAt_unclosed _ Hs).
  unfold bind. now rewrite (IH s st (lacks_tail _ _ _ Hs)).
Qed.

Section Literals.

Context `{Externals}.

(** X19: a string literal without a closing brace is its own value: no
    fragment is looked up or evaluated, whatever the literal opens. *)
Theorem literal_without_closing_brace fuel (s : string) env st :
  lacks "}" s = true ->
  Eval (S fuel) (ast.StringLiteral s) env st = Ok (Some (object.String s)) st.
Proof.
  intros Hs. rewrite Eval_string. unfold bind, Interpolate.
  now rewrite Replace_unclosed.
Qed.

(** X20: an escaped fragment.  In a literal whose one fragment follows a
    backslash, the backslash is dropped and the fragment is kept as
    text: its name is neither looked up nor evaluated, and the state is
    as it was. *)
Theorem escaped_fragment_is_text fuel pre name post env st :
  fragmentShape pre name post = true ->
  Eval (S fuel) (ast.StringLiteral (pre +:+ "\" +:+ "{{" +:+ name +:+ "}}" +:+ post))
    env st
  = Ok (Some (object.String (pre +:+ "{{" +:+ name +:+ "}}" +:+ post))) st.
Proof.
  unfold fragmentShape.
  intros [[[Ho Hb]%andb_true_iff Hname]%andb_true_iff Hpost]%andb_true_iff.
  rewrite Eval_string. unfold bind at 1, Interpolate.
  rewrite length_append, <- Nat.add_succ_r.
  rewrite (Replace_prefix _ pre _ _ st Ho Hb). unfold bind at 1.
  change ("\" +:+ "{{" +:+ name +:+ "}}" +:+ post)
    with ("\{{" +:+ name +:+ "}}" +:+ post).
  rewrite (Replace_match _ _ _ _ _ st (matchAt_escaped_fragment name post Hname)).
  unfold bind at 1.
  change ("\{{" +:+ name +:+ "}}")
    with (String.String "\" ("{{" +:+ name +:+ "}}")).
  rewrite interpolateMatch_escaped. unfold bind.
  rewrite (Replace_plain _ _ post st Hpost). cbn [ret].
  now rewrite !append_assoc.
Qed.

End Literals.

(** ** Finding and loading modules *)

Section ModuleFiles.

Context `{Externals}.

Lemma findIn_none (basename : string) (st : State) (paths : list string) :
  Forall (fun q => files st !! filepathJoin q basename = None) paths ->
  findIn paths basename st = Ok EmptyString st.
Proof.
  induction 1 as [| q paths Hq _ IH]; [reflexivity |].
  cbn [findIn]. unfold bind, exists_. rewrite Hq.
  rewrite bool_decide_eq_false_2 by (intros [? [=]]). exact IH.
Qed.

Lemma findIn_first (basename : string) (st : State) (pre : list string)
    (p : string) (post : list string) :
  Forall (fun q => files st !! filepathJoin q basename = None) pre ->
  is_Some (files st !! filepathJoin p basename) ->
  findIn (pre ++ p :: post) basename st = Ok (filepathJoin p basename) st.
Proof.
  intros Hpre Hp. induction Hpre as [| q pre Hq _ IH].
  - cbn [app findIn]. unfold bind, exists_.
    now rewrite bool_decide_eq_true_2.
  - cbn [app findIn]. unfold bind, exists_. rewrite Hq.
    rewrite bool_decide_eq_false_2 by (intros [? [=]]). exact IH.
Qed.

(** X21: [FindModule] returns the file of the first search path that
    holds the module, whatever the later paths hold, and the empty name
    when none holds it; it changes nothing. *)
Theorem FindModule_first_match (name : string) (st : State) :
  (forall pre p post,
      searchPaths st = pre ++ p :: post ->
      Forall (fun q => files st !! filepathJoin q (name +:+ ".keai") = None)
        pre ->
      is_Some (files st !! filepathJoin p (name +:+ ".keai")) ->
      FindModule name st = Ok (filepathJoin p (name +:+ ".keai")) st)
  /\ (Forall (fun q => files st !! filepathJoin q (name +:+ ".keai") = None)
        (searchPaths st) ->
      FindModule name st = Ok EmptyString st).
Proof.
  split.
  - intros pre p post Hpaths Hpre Hp.
    unfold FindModule, bind, getState. rewrite Hpaths.
    now apply findIn_first.
  - intros Hnone. unfold FindModule, bind, getState. now apply findIn_none.
Qed.

(** X22: an import that fails is a value, and changes nothing.  With the
    module not in the cache and its name evaluated to a String: a
    module that no search path holds is an ImportError, a file that
    cannot be read an IOError, a file that does not parse a ParseError;
    in each case the Error is the value of the import, nothing is
    evaluated or cached, and the state is the one the name left. *)
Theorem import_failure_is_a_value fuel name env st s st1 :
  importCache st !! NodeString name = None ->
  Eval fuel name env st = Ok (Some (object.String s)) st1 ->
  (FindModule s st1 = Ok EmptyString st1 ->
   Eval (S fuel) (ast.ImportExpression name) env st
   = Ok (NewError ("ImportError: no module named '" +:+ s +:+ "'")) st1)
  /\ (forall filename,
         FindModule s st1 = Ok filename st1 ->
         filename <> EmptyString ->
         (forall err,
             files st1 !! filename = Some (inr err) ->
             Eval (S fuel) (ast.ImportExpression name) env st
             = Ok (NewError ("IOError: error reading module '" +:+ s +:+ "': "
                             +:+ err)) st1)
         /\ (forall src,
                files st1 !! filename = Some (inl src) ->
                (ParseProgram src).2 <> [] ->
                Eval (S fuel) (ast.ImportExpression name) env st
                = Ok (NewError ("ParseError: ["
                                +:+ joinWith " " (ParseProgram src).2 +:+ "]"))
                    st1)).
Proof.
  intros Hcache Hname.
  assert (Himport :
            Eval (S fuel) (ast.ImportExpression name) env st
            = (attrs <- EvalModule (Eval fuel) s ;;
               if isError attrs then ret attrs
               else
                 let m := Some (object.Module s attrs) in
                 modify (fun st => setImportCache
                                     (<[NodeString name := m]> (importCache st))
                                     st) ;;
                 ret m) st1).
  { rewrite Eval_import. unfold evalImportExpression.
    unfold bind at 1, getState at 1. rewrite Hcache.
    now rewrite (bind_Ok _ _ _ _ _ Hname). }
  split.
  - intros Hfind. rewrite Himport. unfold bind at 1, EvalModule.
    now rewrite (bind_Ok _ _ _ _ _ Hfind).
  - intros filename Hfind Hfile.
    apply String.eqb_neq in Hfile. split.
    + intros err Herr. rewrite Himport. unfold bind at 1, EvalModule.
      rewrite (bind_Ok _ _ _ _ _ Hfind), Hfile.
      unfold bind, ReadFile. now rewrite Herr.
    + intros src Hsrc Hparse. rewrite Himport. unfold bind at 1, EvalModule.
      rewrite (bind_Ok _ _ _ _ _ Hfind), Hfile.
      unfold bind, ReadFile. rewrite Hsrc.
      destruct (ParseProgram src).2 as [| e errs]; [now destruct Hparse |].
      reflexivity.
Qed.

End ModuleFiles.

(** ** Loops *)

Section LoopBodies.

Context `{Externals}.

(** A [for] loop whose body has no value.  When the condition holds
    and the body evaluates to no value at all, as an empty block does,
    the loop asks the missing value for its type and the process
    panics. *)
Lemma for_body_without_value fuel cond body env st c st1 st2 :
  Eval fuel cond env st = Ok c st1 ->
  isError c = false ->
  isTruthy c = true ->
  Eval fuel body env st1 = Ok None st2 ->
  Eval (S fuel) (ast.ForLoopExpression cond body) env st
  = GoPanic nilDeref st2.
Proof.
  intros Hc Herr Htrue Hbody.
  destruct fuel as [| fuel]; [discriminate Hc |].
  change (Eval (S (S fuel)) (ast.ForLoopExpression cond body) env st)
    with (forLoop (Eval (S fuel)) (S fuel) cond body env st).
  cbn [forLoop]. rewrite (bind_Ok _ _ _ _ _ Hc), Herr, Htrue.
  now rewrite (bind_Ok _ _ _ _ _ Hbody).
Qed.

(** A [foreach] loop whose body has no value.  Over a value with at
    least one element, with the loop variable bound to the first one in
    a fresh scope that permits that name only, a body that evaluates to
    no value at all makes the process panic in the first round. *)
Lemma foreach_body_without_value fuel ident value body env st v st1
    x i rest st3 :
  Eval fuel value env st = Ok (Some v) st1 ->
  iterate v = Some ((x, i) :: rest) ->
  Eval fuel body (length (heap st1))
    (setHeap
       (heap st1
        ++ [mkFrame {[ident := (x, false)]} (Some env) (Some [ident]) []])
       st1)
  = Ok None st3 ->
  Eval (S fuel) (ast.ForeachStatement ident EmptyString value body) env st
  = GoPanic nilDeref st3.
Proof.
  intros Hv Hit Hbody. rewrite Eval_foreach. unfold evalForeachExpression.
  rewrite (bind_Ok _ _ _ _ _ Hv). cbn [mbind option_bind]. rewrite Hit.
  cbn [String.eqb]. unfold bind at 1, NewTemporaryScope, newFrame.
  cbn [foreachLoop]. unfold bind at 1.
  assert (Hperm : permits (mkFrame ∅ (Some env) (Some [ident]) []) ident = true).
  { unfold permits. cbn. now rewrite String.eqb_refl. }
  rewrite (Set_newest_frame st1 _ ident x Hperm (isImmutableIn_fresh _ _ _ _)).
  unfold bindIn. cbn [store outer permit CurrentArgs negb].
  rewrite insert_empty. unfold bind at 1.
  change (negb (String.eqb EmptyString EmptyString)) with false.
  cbv iota. unfold ret at 1.
  now rewrite (bind_Ok _ _ _ _ _ Hbody).
Qed.

(** X23: a loop whose body has no value panics.  When the body of a
    [for] loop whose condition holds, or the body of a [foreach] loop
    over a value with at least one element, evaluates to no value at
    all, as an empty block does, the loop asks the missing value for
    its type and the process panics with a nil dereference. *)
Theorem loop_body_without_value_panics fuel body env st :
  (forall cond c st1 st2,
      Eval fuel cond env st = Ok c st1 ->
      isError c = false ->
      isTruthy c = true ->
      Eval fuel body env st1 = Ok None st2 ->
      Eval (S fuel) (ast.ForLoopExpression cond body) env st
      = GoPanic nilDeref st2)
  /\ (forall ident value v st1 x i rest st3,
         Eval fuel value env st = Ok (Some v) st1 ->
         iterate v = Some ((x, i) :: rest) ->
         Eval fuel body (length (heap st1))
           (setHeap
              (heap st1
               ++ [mkFrame {[ident := (x, false)]} (Some env) (Some [ident]) []])
              st1)
         = Ok None st3 ->
         Eval (S fuel) (ast.ForeachStatement ident EmptyString value body) env st
         = GoPanic nilDeref st3).
Proof.
  split.
  - intros cond c st1 st2. apply for_body_without_value.
  - intros ident value v st1 x i rest st3.
    apply foreach_body_without_value.
Qed.

End LoopBodies.

Section ForLoop.

Context `{Externals}.

Lemma isTruthy_spec (c : OBJ) :
  isTruthy c = true
  <-> c <> Some (object.Boolean false) /\ c <> Some object.Null.
Proof.
  split.
  - intros Hc. split; intros ->; discriminate Hc.
  - intros [Hf Hn]. destruct c as [x |]; [| reflexivity].
    destruct x; try reflexivity; try congruence.
    match goal with b : bool |- _ => destruct b end;
      [reflexivity | congruence].
Qed.

(** The test on the value of a body: no value at all panics, a
    ReturnValue stops the loop, every other value lets it go on. *)
Lemma loopReturns_spec (rt : OBJ) (st : State) (stop : bool) (st' : State) :
  loopReturns rt st = Ok stop st' ->
  st' = st
  /\ exists x,
      rt = Some x
      /\ (stop = true -> exists r, x = object.ReturnValue r)
      /\ (stop = false -> forall r, x <> object.ReturnValue r).
Proof.
  unfold loopReturns. destruct rt as [x |]; [| discriminate].
  destruct x; cbn; intros [= <- <-]; (split; [reflexivity |]);
    eexists; (split; [reflexivity |]); split; intros; eauto; discriminate.
Qed.

Lemma loopReturns_value (x : object.Object) (st : State) :
  (forall r, x <> object.ReturnValue r) ->
  loopReturns (Some x) st = Ok false st.
Proof.
  intros Hx. destruct x; try reflexivity. now edestruct Hx.
Qed.

(** The rounds of a loop, then what the loop does from the state they
    lead to. *)
Lemma forLoop_rounds fuel cond cons env k st st0 :
  forRounds fuel cond cons env k st st0 ->
  forall n,
    forLoop (Eval fuel) (k + n) cond cons env st
    = forLoop (Eval fuel) n cond cons env st0.
Proof.
  induction 1 as [| k st c st1 rt st2 st3 Hc Herr Hf Hn Hbody Hrt _ IH];
    intros n; [reflexivity |].
  cbn [Nat.add forLoop]. rewrite (bind_Ok _ _ _ _ _ Hc).
  rewrite (proj2 (isError_spec c) Herr).
  rewrite (proj2 (isTruthy_spec c) (conj Hf Hn)).
  rewrite (bind_Ok _ _ _ _ _ Hbody).
  rewrite (bind_Ok _ _ _ _ _ (loopReturns_value rt st2 Hrt)).
  apply IH.
Qed.

Lemma forLoop_ends fuel cond cons env (n : nat) :
  forall st v st',
    forLoop (Eval fuel) n cond cons env st = Ok v st' ->
    exists k st0 c stc,
      forRounds fuel cond cons env k st st0
      /\ Eval fuel cond env st0 = Ok c stc
      /\ ((exists m code data flag,
              c = Some (object.Error m code data flag)
              /\ v = c /\ st' = stc)
          \/ ((c = Some (object.Boolean false) \/ c = Some object.Null)
              /\ v = Some (object.Boolean true) /\ st' = stc)
          \/ ((forall m code data flag,
                  c <> Some (object.Error m code data flag))
              /\ c <> Some (object.Boolean false)
              /\ c <> Some object.Null
              /\ exists r,
                  Eval fuel cons env stc
                  = Ok (Some (object.ReturnValue r)) st'
                  /\ v = Some (object.ReturnValue r))).
Proof.
  induction n as [| n IH]; intros st v st'; [discriminate |].
  cbn [forLoop]. unfold bind at 1.
  destruct (Eval fuel cond env st) as [c st1 | | |] eqn:Hc; try discriminate.
  destruct (isError c) eqn:Herr.
  { intros [= <- <-]. exists 0%nat, st, c, st1.
    split; [constructor | split; [exact Hc |]]. left.
    destruct c as [[] |]; try discriminate Herr. eauto 10. }
  pose proof (proj1 (isError_spec c) Herr) as Herr'.
  destruct (isTruthy c) eqn:Htrue.
  2:{ intros [= <- <-]. exists 0%nat, st, c, st1.
      split; [constructor | split; [exact Hc |]]. right. left.
      split; [| split; reflexivity].
      destruct c as [x |]; [| discriminate Htrue].
      destruct x; try discriminate Htrue; auto.
      match goal with b : bool |- _ => destruct b end;
        [discriminate Htrue | auto]. }
  pose proof (proj1 (isTruthy_spec c) Htrue) as [Hf Hn].
  unfold bind at 1.
  destruct (Eval fuel cons env st1) as [rt st2 | | |] eqn:Hbody;
    try discriminate.
  unfold bind at 1.
  destruct (loopReturns rt st2) as [stop st3 | | |] eqn:Hstop;
    try discriminate.
  destruct (loopReturns_spec _ _ _ _ Hstop) as (-> & x & -> & Hyes & Hno).
  destruct stop.
  - intros [= <- <-]. destruct (Hyes eq_refl) as [r ->].
    exists 0%nat, st, c, st1.
    split; [constructor | split; [exact Hc |]]. right. right. eauto 10.
  - intros Hrest.
    destruct (IH _ _ _ Hrest) as (k & st0 & c' & stc & Hrounds & Hlast).
    exists (S k), st0, c', stc. split; [| exact Hlast].
    eapply forRounds_more; eauto.
Qed.

End ForLoop.

Section ForLoopValue.

Context `{Externals}.

(** X24: the value of a [for] loop.  After any number of rounds in which
    the condition held and the body gave a value that is no ReturnValue,
    an Error among them, the loop ends with the next evaluation of its
    condition or of its body: when the condition is an Error the loop
    is that Error; when it is [false] or Null the loop is [true]; when
    it holds and the body is a ReturnValue the loop is that ReturnValue.
    A loop that ends has ended in one of these three ways, so the value
    of a body that does not return, an Error included, is never the value
    of the loop. *)
Theorem for_loop_value fuel cond cons env st :
  let loop := Eval (S fuel) (ast.ForLoopExpression cond cons) env st in
  (forall k st0 c stc,
      (k < fuel)%nat ->
      forRounds fuel cond cons env k st st0 ->
      Eval fuel cond env st0 = Ok c stc ->
      ((exists m code data flag, c = Some (object.Error m code data flag)) ->
       loop = Ok c stc)
      /\ (c = Some (object.Boolean false) \/ c = Some object.Null ->
          loop = Ok (Some (object.Boolean true)) stc)
      /\ ((forall m code data flag,
              c <> Some (object.Error m code data flag)) ->
          c <> Some (object.Boolean false) ->
          c <> Some object.Null ->
          forall r st',
            Eval fuel cons env stc = Ok (Some (object.ReturnValue r)) st' ->
            loop = Ok (Some (object.ReturnValue r)) st'))
  /\ (forall v st',
         loop = Ok v st' ->
         exists k st0 c stc,
           forRounds fuel cond cons env k st st0
           /\ Eval fuel cond env st0 = Ok c stc
           /\ ((exists m code data flag,
                   c = Some (object.Error m code data flag)
                   /\ v = c /\ st' = stc)
               \/ ((c = Some (object.Boolean false) \/ c = Some object.Null)
                   /\ v = Some (object.Boolean true) /\ st' = stc)
               \/ ((forall m code data flag,
                       c <> Some (object.Error m code data flag))
                   /\ c <> Some (object.Boolean false)
                   /\ c <> Some object.Null
                   /\ exists r,
                       Eval fuel cons env stc
                       = Ok (Some (object.ReturnValue r)) st'
                       /\ v = Some (object.ReturnValue r)))).
Proof.
  cbv zeta.
  change (Eval (S fuel) (ast.ForLoopExpression cond cons) env st)
    with (forLoop (Eval fuel) fuel cond cons env st).
  split; [| apply forLoop_ends].
  intros k st0 c stc Hk Hrounds Hc.
  pose proof (forLoop_rounds _ _ _ _ _ _ _ Hrounds (S (fuel - S k))) as Hloop.
  replace (k + S (fuel - S k))%nat with fuel in Hloop by lia.
  rewrite Hloop. cbn [forLoop].
  rewrite (bind_Ok _ _ _ _ _ Hc).
  split; [| split].
  - intros (m & code & data & flag & ->). reflexivity.
  - intros [-> | ->]; reflexivity.
  - intros Herr Hf Hn r st' Hbody.
    rewrite (proj2 (isError_spec c) Herr).
    rewrite (proj2 (isTruthy_spec c) (conj Hf Hn)).
    now rewrite (bind_Ok _ _ _ _ _ Hbody).
Qed.

End ForLoopValue.

(** ** Operators only read *)

Section ReadsOnly.

Context {A B : Type}.

Lemma readsOnly_ret (a : A) : readsOnly (ret a).
Proof. intros st. left. now exists a. Qed.

Lemma readsOnly_panic (msg : string) : readsOnly (@panic A msg).
Proof. intros st. right. now exists msg. Qed.

Lemma readsOnly_bind (m : M A) (k : A -> M B) :
  readsOnly m -> (forall a, readsOnly (k a)) -> readsOnly (bind m k).
Proof.
  intros Hm Hk st. unfold bind.
  destruct (Hm st) as [[a ->] | [msg ->]]; [apply Hk |].
  right. now exists msg.
Qed.

End ReadsOnly.

Lemma readsOnly_badAssertion {A} : readsOnly (@badAssertion A).
Proof. apply readsOnly_panic. Qed.

Lemma readsOnly_deref (o : OBJ) : readsOnly (deref o).
Proof. destruct o; [apply readsOnly_ret | apply readsOnly_panic]. Qed.

Lemma readsOnly_TypeOf (o : OBJ) : readsOnly (TypeOf o).
Proof.
  apply readsOnly_bind; [apply readsOnly_deref | intros; apply readsOnly_ret].
Qed.

Create HintDb reads.

#[local] Hint Resolve readsOnly_ret readsOnly_panic readsOnly_badAssertion
  readsOnly_deref readsOnly_TypeOf : reads.

Ltac reads_go :=
  repeat first
    [ solve [auto with reads]
    | apply readsOnly_bind; [| intros ?]
    | match goal with
      | |- readsOnly (if ?b then _ else _) => destruct b
      | |- readsOnly (match ?x with _ => _ end) => destruct x
      end
    | progress cbv beta zeta ].

Section OperatorsRead.

Context `{Externals}.

Lemma readsOnly_integerInfix operator l r :
  readsOnly (evalIntegerInfixExpression operator l r).
Proof. unfold evalIntegerInfixExpression. reads_go. Qed.

Lemma readsOnly_floatInfix operator l r a b :
  readsOnly (floatInfix operator l r a b).
Proof. unfold floatInfix. reads_go. Qed.

Lemma readsOnly_stringInfix operator l r :
  readsOnly (evalStringInfixExpression operator l r).
Proof. unfold evalStringInfixExpression. reads_go. Qed.

#[local] Hint Resolve readsOnly_integerInfix readsOnly_floatInfix
  readsOnly_stringInfix : reads.

Lemma readsOnly_floatInfixExpression operator l r :
  readsOnly (evalFloatInfixExpression operator l r).
Proof. unfold evalFloatInfixExpression. reads_go. Qed.

Lemma readsOnly_floatIntegerInfix operator l r :
  readsOnly (evalFloatIntegerInfixExpression operator l r).
Proof. unfold evalFloatIntegerInfixExpression. reads_go. Qed.

Lemma readsOnly_integerFloatInfix operator l r :
  readsOnly (evalIntegerFloatInfixExpression operator l r).
Proof. unfold evalIntegerFloatInfixExpression. reads_go. Qed.

Lemma readsOnly_booleanInfix operator l r :
  readsOnly (evalBooleanInfixExpression operator l r).
Proof. unfold evalBooleanInfixExpression. reads_go. Qed.

#[local] Hint Resolve readsOnly_floatInfixExpression
  readsOnly_floatIntegerInfix readsOnly_integerFloatInfix
  readsOnly_booleanInfix : reads.

(** X25: operators only read.  Applying an infix or a prefix operator to
    two values ends with a value or in a Go panic, in the state it
    started in: it writes nothing, binds nothing and never exits. *)
Theorem operators_only_read operator (left right : OBJ) env :
  readsOnly (evalInfixExpression operator left right env)
  /\ readsOnly (evalPrefixExpression operator right).
Proof.
  split.
  - unfold evalInfixExpression. reads_go.
  - unfold evalPrefixExpression, evalMinusPrefixOperatorExpression,
      evalNotPrefixOperatorExpression. reads_go.
Qed.

End OperatorsRead.

(** ** Shifts *)

Lemma uint64_out_of_range (b : Z) :
  int64_range b -> b < 0 \/ 64 <= b -> 64 <= uint64 b.
Proof.
  unfold int64_range, MinInt64, MaxInt64, uint64. intros Hb [Hneg | Hbig].
  - rewrite <- (Z_mod_plus_full b 1 (2 ^ 64)). rewrite Z.mod_small; lia.
  - rewrite Z.mod_small; lia.
Qed.

Lemma shiftr_out_of_range (a k : Z) :
  int64_range a -> 64 <= k ->
  Z.shiftr a k = if a <? 0 then -1 else 0.
Proof.
  unfold int64_range, MinInt64, MaxInt64. intros Ha Hk.
  rewrite Z.shiftr_div_pow2 by lia.
  assert (Hpow : 2 ^ 64 <= 2 ^ k) by (apply Z.pow_le_mono_r; lia).
  destruct (Z.ltb_spec a 0) as [Hneg | Hpos].
  - symmetry. apply (Z.div_unique a (2 ^ k) (-1) (a + 2 ^ k)); lia.
  - apply Z.div_small. lia.
Qed.

Section Shifts.

Context `{Externals}.

(** X26: a shift by a count that is negative or at least 64.  The count is
    taken as an unsigned number, so [<<] gives zero, and [>>] gives
    zero for a left operand that is not negative and minus one for a
    negative one. *)
Theorem shift_count_out_of_range (a b : Z) env st :
  int64_range a ->
  int64_range b ->
  b < 0 \/ 64 <= b ->
  evalInfixExpression "<<" (Some (object.Integer a)) (Some (object.Integer b))
    env st
  = Ok (Some (object.Integer 0)) st
  /\ evalInfixExpression ">>" (Some (object.Integer a))
       (Some (object.Integer b)) env st
     = Ok (Some (object.Integer (if a <? 0 then -1 else 0))) st.
Proof.
  intros Ha Hb Hcount.
  pose proof (uint64_out_of_range b Hb Hcount) as Hk.
  split.
  - change (evalInfixExpression "<<" (Some (object.Integer a))
              (Some (object.Integer b)) env st)
      with (Ok (Some (object.Integer
                        (if 64 <=? uint64 b then 0
                         else wrap64 (Z.shiftl a (uint64 b))))) st).
    now destruct (Z.leb_spec 64 (uint64 b)); [| lia].
  - change (evalInfixExpression ">>" (Some (object.Integer a))
              (Some (object.Integer b)) env st)
      with (Ok (Some (object.Integer (Z.shiftr a (uint64 b)))) st).
    now rewrite (shiftr_out_of_range a _ Ha Hk).
Qed.

End Shifts.

(** ** Trimming a balanced pair of bytes *)

Lemma string_last_split (s : string) (b : ascii) :
  (1 <= String.length s)%nat ->
  String.get (String.length s - 1) s = Some b ->
  s = String.substring 0 (String.length s - 1) s +:+ String.String b EmptyString.
Proof.
  induction s as [| a s IH]; [cbn; lia |].
  intros _. cbn [String.length]. rewrite Nat.sub_succ, Nat.sub_0_r.
  destruct s as [| a' s'].
  - cbn. now intros [= ->].
  - cbn [String.length String.get]. intros Hget.
    cbn [String.substring]. rewrite append_cons. f_equal.
    cbn [String.length] in IH. rewrite Nat.sub_succ, Nat.sub_0_r in IH.
    apply IH; [lia | exact Hget].
Qed.

(** X27: [trimQuotes] removes one balanced pair.  A string enclosed in two
    bytes [c] loses them and nothing else; a string shorter than two
    bytes is returned as it is; and whatever the string, the result is
    the string itself or the string without a first and a last byte
    [c]. *)
Theorem trimQuotes_balanced_pair (c : ascii) :
  (forall s,
      trimQuotes (String.String c (s +:+ String.String c EmptyString)) c = s)
  /\ (forall t, (String.length t < 2)%nat -> trimQuotes t c = t)
  /\ (forall t,
         trimQuotes t c = t
         \/ t = String.String c
                  (trimQuotes t c +:+ String.String c EmptyString)).
Proof.
  split; [| split].
  - intros s. unfold trimQuotes.
    cbn [String.length String.get]. rewrite length_append.
    cbn [String.length]. rewrite Nat.add_1_r.
    cbn [Nat.leb Nat.sub]. rewrite Nat.sub_0_r.
    rewrite <- (Nat.add_0_r (String.length s)) at 1.
    rewrite get_append_right. cbn [String.get].
    rewrite Ascii.eqb_refl. cbn [andb String.substring].
    now rewrite substring_append_left.
  - intros t Ht. unfold trimQuotes.
    destruct (Nat.leb_spec 2 (String.length t)); [lia | reflexivity].
  - intros t. unfold trimQuotes.
    destruct (Nat.leb_spec 2 (String.length t)) as [Hlen |]; [| now left].
    destruct t as [| a t]; [now left |].
    cbn [String.length] in *.
    replace (S (String.length t) - 1)%nat with (S (String.length t - 1))
      by lia.
    replace (S (String.length t) - 2)%nat with (String.length t - 1)%nat
      by lia.
    cbn [String.get String.substring].
    destruct (String.get (String.length t - 1) t) as [b |] eqn:Hb;
      [| now left].
    destruct (Ascii.eqb_spec a c) as [-> | _]; [| now left].
    destruct (Ascii.eqb_spec b c) as [-> | _]; [| now left].
    cbn [andb]. right. f_equal.
    apply string_last_split; [lia | exact Hb].
Qed.

(** ** Hashes built from Go maps *)

Lemma HashKey_eqb_eq (a b : object.HashKey) :
  object.HashKey_eqb a b = true <-> a = b.
Proof.
  destruct a, b; cbn; try (split; [discriminate | congruence]).
  - tauto.
  - rewrite Bool.eqb_true_iff. split; congruence.
  - rewrite Z.eqb_eq. split; congruence.
  - rewrite String.eqb_eq. split; congruence.
Qed.

Lemma lookupPair_insertPair (k k' : object.HashKey) (p : HashPair)
    (pairs : list (object.HashKey * HashPair)) :
  lookupPair k (insertPair k' p pairs)
  = if object.HashKey_eqb k k' then Some p else lookupPair k pairs.
Proof.
  induction pairs as [| [k0 p0] pairs IH].
  - cbn. now destruct (object.HashKey_eqb k k').
  - cbn [insertPair lookupPair].
    destruct (object.HashKey_eqb k' k0) eqn:H0; cbn [lookupPair].
    + apply HashKey_eqb_eq in H0 as <-.
      now destruct (object.HashKey_eqb k k').
    + rewrite IH.
      destruct (object.HashKey_eqb k k0) eqn:Hk0; [| reflexivity].
      apply HashKey_eqb_eq in Hk0 as ->.
      destruct (object.HashKey_eqb k0 k') eqn:Hk; [| reflexivity].
      apply HashKey_eqb_eq in Hk as ->.
      assert (object.HashKey_eqb k' k' = true) by now apply HashKey_eqb_eq.
      congruence.
Qed.

Lemma insertPair_length (k : object.HashKey) (p : HashPair)
    (pairs : list (object.HashKey * HashPair)) :
  lookupPair k pairs = None ->
  length (insertPair k p pairs) = S (length pairs).
Proof.
  induction pairs as [| [k0 p0] pairs IH]; [reflexivity |].
  cbn [insertPair lookupPair].
  destruct (object.HashKey_eqb k k0); [discriminate |].
  intros Hk. cbn [length]. now rewrite IH.
Qed.

Section Hashes.

Context `{Externals}.

(** X28: [NewHash] holds the map.  The Hash has one pair for each name of
    the map, made of the String of the name and the value, and indexing
    it by that String gives the value. *)
Theorem NewHash_holds_the_map (x : gmap string OBJ) :
  exists pairs,
    NewHash x = object.Hash pairs
    /\ length pairs = size x
    /\ (forall k,
           lookupPair (object.KeyString k) pairs
           = (fun v => (Some (object.String k), v)) <$> x !! k)
    /\ (forall k v env st,
           x !! k = Some v ->
           evalHashIndexExpression (Some (NewHash x))
             (Some (object.String k)) env st
           = Ok v st).
Proof.
  unfold NewHash.
  set (f := fun (k : string) (v : OBJ) res =>
              insertPair (object.KeyString k) (Some (object.String k), v) res).
  assert (Hfold :
            length (map_fold f [] x) = size x
            /\ forall k,
                lookupPair (object.KeyString k) (map_fold f [] x)
                = (fun v => (Some (object.String k), v)) <$> x !! k).
  { apply (map_fold_weak_ind
             (fun r m =>
                length r = size m
                /\ forall k,
                    lookupPair (object.KeyString k) r
                    = (fun v => (Some (object.String k), v)) <$> m !! k)).
    - split; [now rewrite map_size_empty |].
      intros k. now rewrite lookup_empty.
    - intros i v m r Hi [Hlen Hlook]. split.
      + unfold f. rewrite insertPair_length.
        * now rewrite map_size_insert_None, Hlen.
        * now rewrite Hlook, Hi.
      + intros k. unfold f. rewrite lookupPair_insertPair. cbn.
        destruct (String.eqb_spec k i) as [-> | Hne].
        * now rewrite lookup_insert_eq.
        * rewrite lookup_insert_ne by congruence. apply Hlook. }
  destruct Hfold as [Hlen Hlook].
  exists (map_fold f [] x). repeat split; try assumption.
  intros k v env st Hk. unfold evalHashIndexExpression. cbn [HashKeyOf].
  now rewrite Hlook, Hk.
Qed.

End Hashes.

(** ** Integers stay in 64 bits *)

Lemma int64_range_sign (z : Z) :
  int64_range z <-> Z.shiftr z 63 = 0 \/ Z.shiftr z 63 = -1.
Proof.
  unfold int64_range, MinInt64, MaxInt64.
  rewrite Z.shiftr_div_pow2 by lia.
  pose proof (Z.div_mod z (2 ^ 63) ltac:(lia)) as Hdiv.
  pose proof (Z.mod_pos_bound z (2 ^ 63) eq_refl) as Hmod.
  lia.
Qed.

Lemma int64_range_bitwise (op : Z -> Z -> Z) (a b : Z) :
  (forall x y n, Z.shiftr (op x y) n = op (Z.shiftr x n) (Z.shiftr y n)) ->
  op 0 0 = 0 \/ op 0 0 = -1 ->
  op 0 (-1) = 0 \/ op 0 (-1) = -1 ->
  op (-1) 0 = 0 \/ op (-1) 0 = -1 ->
  op (-1) (-1) = 0 \/ op (-1) (-1) = -1 ->
  int64_range a -> int64_range b -> int64_range (op a b).
Proof.
  intros Hshift H00 H01 H10 H11 Ha Hb.
  apply int64_range_sign in Ha, Hb. apply int64_range_sign.
  rewrite Hshift.
  destruct Ha as [-> | ->], Hb as [-> | ->]; assumption.
Qed.

Lemma int64_range_shiftr (a k : Z) :
  int64_range a -> 0 <= k -> int64_range (Z.shiftr a k).
Proof.
  unfold int64_range, MinInt64, MaxInt64. intros Ha Hk.
  rewrite Z.shiftr_div_pow2 by assumption.
  assert (Hpow : 0 < 2 ^ k) by (apply Z.pow_pos_nonneg; lia).
  pose proof (Z.div_mod a (2 ^ k) ltac:(lia)) as Hdiv.
  pose proof (Z.mod_pos_bound a (2 ^ k) Hpow) as Hmod.
  nia.
Qed.

Lemma int64_range_rem (a b : Z) :
  int64_range b -> b <> 0 -> int64_range (Z.rem a b).
Proof.
  unfold int64_range, MinInt64, MaxInt64. intros Hb Hnz.
  pose proof (Z.rem_bound_abs a b Hnz). lia.
Qed.

Section IntegerRange.

Context `{Externals}.

(** X29: Integers stay in 64 bits.  Provided the conversion of a Float
    to an Integer does, every Integer that an operator gives for two
    Integers of 64 bits is an Integer of 64 bits, whatever the
    operator. *)
Theorem integer_results_in_range operator (a b : Z) env st r st' :
  (forall f, int64_range (int64 f)) ->
  int64_range a ->
  int64_range b ->
  evalInfixExpression operator (Some (object.Integer a))
    (Some (object.Integer b)) env st
  = Ok (Some (object.Integer r)) st' ->
  int64_range r.
Proof.
  intros Hconv Ha Hb. rewrite evalInfix_integers.
  unfold evalIntegerInfixExpression. cbv zeta.
  repeat lazymatch goal with
         | |- (if ?x =? 0 then _ else _) _ = _ -> _ =>
             destruct (Z.eqb_spec x 0)
         | |- (if ?c then _ else _) _ = _ -> _ => destruct c
         end;
    unfold ret, panic, unknownOperator, NewError;
    try match goal with
        | |- context [nativeBoolToBooleanObject ?c] => destruct c
        end;
    intros Heq; try discriminate Heq; injection Heq as <- <-;
    try apply wrap64_range; try apply Hconv.
  - now apply int64_range_rem.
  - apply (int64_range_bitwise Z.lor); auto using Z.shiftr_lor.
  - apply (int64_range_bitwise Z.lxor); auto using Z.shiftr_lxor.
  - apply (int64_range_bitwise Z.land); auto using Z.shiftr_land.
  - destruct (64 <=? uint64 b); [| apply wrap64_range].
    unfold int64_range, MinInt64, MaxInt64. lia.
  - apply int64_range_shiftr; [assumption |].
    unfold uint64. apply Z.mod_pos_bound. reflexivity.
Qed.

End IntegerRange.

(** ** Calls of functions *)

Lemma isImmutableIn_bindIn (f : Frame) (name : string) (v : OBJ) :
  (forall n, isImmutableIn f n = false) ->
  forall n, isImmutableIn (bindIn f name v false) n = false.
Proof.
  intros Hf n. unfold isImmutableIn, bindIn. cbn [store].
  destruct (decide (name = n)) as [-> | Hne].
  - now rewrite lookup_insert_eq.
  - rewrite lookup_insert_ne by assumption. apply Hf.
Qed.

Lemma setParameters_newest (params : list string) :
  forall (args : list OBJ) (f : Frame) (h : list Frame) (st : State),
    permit f = None ->
    (forall n, isImmutableIn f n = false) ->
    setParameters params args (length h) (setHeap (h ++ [f]) st)
    = Ok tt
        (setHeap
           (h ++ [mkFrame (boundParameters params args (store f)) (outer f)
                    None (CurrentArgs f)]) st).
Proof.
  induction params as [| p params IH]; intros args f h st Hp Himm.
  - cbn. destruct f as [s o pm ca]. cbn in Hp. now subst pm.
  - destruct args as [| a args].
    + cbn. destruct f as [s o pm ca]. cbn in Hp. now subst pm.
    + cbn [setParameters]. unfold bind at 1.
      assert (Hset : Set_ (length h) p a (setHeap (h ++ [f]) st)
                     = Ok tt (setHeap (h ++ [bindIn f p a false]) st)).
      { apply (Set_newest_frame (setHeap h st) f p a); [| apply Himm].
        unfold permits. now rewrite Hp. }
      rewrite Hset.
      rewrite (IH args (bindIn f p a false) h st Hp
                 (isImmutableIn_bindIn f p a Himm)).
      reflexivity.
Qed.

Lemma envGet_newest (h : list Frame) (f : Frame) (name : string) (v : OBJ)
    (immutable : bool) :
  store f !! name = Some (v, immutable) ->
  envGet (h ++ [f]) (length h) name = Some v.
Proof.
  intros Hs. unfold envGet. cbn [lookupChain].
  rewrite (list_lookup_middle h [] f (length h) eq_refl). now rewrite Hs.
Qed.

Section FunctionCalls.

Context `{Externals}.

Lemma find_last {A} (P : A -> bool) (l : list A) (x : A) :
  List.find P (l ++ [x])
  = match List.find P l with
    | Some y => Some y
    | None => if P x then Some x else None
    end.
Proof.
  induction l as [| y l IH]; cbn [app List.find]; [reflexivity |].
  now destruct (P y).
Qed.

(** What a call binds under a name: the argument of the last parameter
    of that name that has one. *)
Lemma boundParameters_lookup (params : list string) (args : list OBJ)
    (p : string) :
  boundParameters params args ∅ !! p
  = match List.find (fun pa : string * OBJ => String.eqb pa.1 p)
            (rev (zip params args)) with
    | Some pa => Some (pa.2, false)
    | None => None
    end.
Proof.
  unfold boundParameters.
  assert (Hfold : forall (l : list (string * OBJ)) (m : gmap string (OBJ * bool)),
             fold_left (fun m (pa : string * OBJ) => <[pa.1 := (pa.2, false)]> m)
               l m !! p
             = match List.find (fun pa : string * OBJ => String.eqb pa.1 p)
                     (rev l) with
               | Some pa => Some (pa.2, false)
               | None => m !! p
               end).
  { induction l as [| [q a] l IH]; intros m; [reflexivity |].
    cbn [fold_left rev fst snd]. rewrite IH, find_last. cbn [fst snd].
    destruct (List.find _ (rev l)); [reflexivity |].
    destruct (String.eqb_spec q p) as [-> | Hne].
    - now rewrite lookup_insert_eq.
    - now rewrite lookup_insert_ne. }
  rewrite Hfold. now rewrite lookup_empty.
Qed.

(** X30: what a call of a Function binds.  The body runs in a fresh
    frame enclosed in the environment the Function was made in, not in
    the caller's; each parameter that has an argument is bound to it
    and the other parameters are left unbound; arguments beyond the
    parameters are kept as the current arguments only; neither a
    missing nor a surplus argument is an error.  When the body yields a
    ReturnValue the call yields the value it wraps; when it yields any
    other value the call yields that value; an exit or a panic of the
    body ends the call the same way. *)
Theorem call_binds_parameters fuel params body fenv doc args env st :
  let entered :=
    setHeap
      (heap st
       ++ [mkFrame (boundParameters params args ∅) (Some fenv) None args])
      st in
  let run := Eval fuel body (length (heap st)) entered in
  let call :=
    ApplyFunction (Eval fuel) env
      (Some (object.Function params [] body fenv doc)) args st in
  (forall v st', run = Ok (Some (object.ReturnValue v)) st' -> call = Ok v st')
  /\ (forall v st',
         run = Ok v st' ->
         (forall r, v <> Some (object.ReturnValue r)) ->
         call = Ok v st')
  /\ (forall code st', run = Exit code st' -> call = Exit code st')
  /\ (forall msg st', run = GoPanic msg st' -> call = GoPanic msg st')
  /\ (forall p,
         boundParameters params args ∅ !! p
         = match List.find (fun pa : string * OBJ => String.eqb pa.1 p)
                 (rev (zip params args)) with
           | Some pa => Some (pa.2, false)
           | None => None
           end)
  /\ (forall p v rest,
         ApplyFunction (Eval (S fuel)) env
           (Some (object.Function [p] [] (ast.Identifier p) fenv doc))
           (v :: rest) st
         = Ok (match v with
               | Some (object.ReturnValue r) => r
               | _ => v
               end)
             (setHeap
                (heap st
                 ++ [mkFrame {[p := (v, false)]} (Some fenv) None (v :: rest)])
                st)).
Proof.
  cbv zeta.
  assert (Hcall : forall f ps b xs,
             ApplyFunction (Eval f) env
               (Some (object.Function ps [] b fenv doc)) xs st
             = (evaluated <- Eval f b (length (heap st)) ;;
                ret (upwrapReturnValue evaluated))
                 (setHeap
                    (heap st
                     ++ [mkFrame (boundParameters ps xs ∅) (Some fenv) None xs])
                    st)).
  { intros f ps b xs. unfold ApplyFunction, extendFunctionEnv.
    unfold bind at 1 2. unfold NewEnclosedEnvironment, newFrame.
    cbn [setDefaults]. unfold bind at 1. unfold ret at 1.
    unfold bind at 1.
    rewrite (setParameters_newest ps xs (mkFrame ∅ (Some fenv) None xs)
               (heap st) st eq_refl (isImmutableIn_fresh _ _ _)).
    reflexivity. }
  split; [| split; [| split; [| split; [| split]]]].
  - intros v st' Hrun. rewrite Hcall. unfold bind. now rewrite Hrun.
  - intros v st' Hrun Hv. rewrite Hcall. unfold bind. rewrite Hrun.
    destruct v as [[] |]; try reflexivity. now edestruct Hv.
  - intros code st' Hrun. rewrite Hcall. unfold bind. now rewrite Hrun.
  - intros msg st' Hrun. rewrite Hcall. unfold bind. now rewrite Hrun.
  - apply boundParameters_lookup.
  - intros p v rest. rewrite Hcall.
    unfold boundParameters. cbn [zip zip_with fold_left fst snd].
    rewrite insert_empty.
    change (Eval (S fuel) (ast.Identifier p))
      with (evalIdentifier p).
    unfold bind at 1, evalIdentifier. unfold bind at 1, Get at 1.
    cbv beta. unfold setHeap at 1 2. cbn [heap].
    rewrite (envGet_newest (heap st) _ p v false);
      [reflexivity | apply lookup_singleton_eq].
Qed.

End FunctionCalls.

(** ** Runs of the sample process, for the properties above *)

Lemma quotient_remainder_witness :
  int64_range (-7)
  /\ 2 <> 0
  /\ Eval 2
       (ast.InfixExpression (ast.IntegerLiteral (-7)) "/" (ast.IntegerLiteral 2))
       Sample.global (Sample.counter 0)
     = Ok (Some (object.Integer (-3))) (Sample.counter 0)
  /\ Eval 2
       (ast.InfixExpression (ast.IntegerLiteral (-7)) "%" (ast.IntegerLiteral 2))
       Sample.global (Sample.counter 0)
     = Ok (Some (object.Integer (-1))) (Sample.counter 0)
  /\ Eval 4
       (ast.InfixExpression
          (ast.InfixExpression
             (ast.InfixExpression (ast.IntegerLiteral (-7)) "/"
                (ast.IntegerLiteral 2))
             "*" (ast.IntegerLiteral 2))
          "+"
          (ast.InfixExpression (ast.IntegerLiteral (-7)) "%"
             (ast.IntegerLiteral 2)))
       Sample.global (Sample.counter 0)
     = Ok (Some (object.Integer (-7))) (Sample.counter 0).
Proof.
  assert (Hrange : int64_range (-7))
    by (unfold int64_range, MinInt64, MaxInt64; lia).
  assert (Hdiv : 2 <> 0) by lia.
  split; [exact Hrange | split; [exact Hdiv |]].
  destruct (quotient_remainder_recompose 0 (-7) 2 Sample.global
              (Sample.counter 0) Hrange Hdiv) as (Hq & Hr & _ & Hsum).
  split; [exact Hq | split; [exact Hr | exact Hsum]].
Defined.

Lemma negation_witness :
  int64_range 5
  /\ Eval 3
       (ast.PrefixExpression "-"
          (ast.PrefixExpression "-" (ast.IntegerLiteral 5)))
       Sample.global (Sample.counter 0)
     = Ok (Some (object.Integer 5)) (Sample.counter 0).
Proof.
  assert (Hrange : int64_range 5)
    by (unfold int64_range, MinInt64, MaxInt64; lia).
  split; [exact Hrange |].
  exact (proj1 (negation_twice 0 5 Sample.global (Sample.counter 0) Hrange)).
Defined.

(** [!!0] is true. *)
Lemma double_bang_witness :
  Eval 1 (ast.IntegerLiteral 0) Sample.global (Sample.counter 0)
  = Ok (Some (object.Integer 0)) (Sample.counter 0)
  /\ Eval 3
       (ast.PrefixExpression "!"
          (ast.PrefixExpression "!" (ast.IntegerLiteral 0)))
       Sample.global (Sample.counter 0)
     = Ok TRUE (Sample.counter 0).
Proof.
  split; [reflexivity |].
  exact (double_bang_is_isTruthy 1 (ast.IntegerLiteral 0) Sample.global
           (Sample.counter 0) (Some (object.Integer 0)) (Sample.counter 0)
           eq_refl eq_refl).
Defined.

(** [1 == "1"] is false. *)
Lemma mismatched_operands_witness :
  typedOperands (object.Integer 1) (object.String "1") = false
  /\ evalInfixExpression "==" (Some (object.Integer 1))
       (Some (object.String "1")) Sample.global (Sample.counter 0)
     = Ok FALSE (Sample.counter 0).
Proof.
  split; [reflexivity |].
  exact (proj1 (mismatched_operands (object.Integer 1) (object.String "1")
                  Sample.global (Sample.counter 0) eq_refl eq_refl)).
Defined.

(** [false < true] and not [true <= false], as the texts are ordered;
    [true + true] is an Error. *)
Lemma booleans_witness :
  ~ In "+" ["&&"; "||"; "=="; "!="; "<"; "<="; ">"; ">="]
  /\ evalInfixExpression "<" FALSE TRUE Sample.global (Sample.counter 0)
     = Ok TRUE (Sample.counter 0)
  /\ evalInfixExpression "<=" TRUE FALSE Sample.global (Sample.counter 0)
     = Ok FALSE (Sample.counter 0)
  /\ evalInfixExpression "+" TRUE TRUE Sample.global (Sample.counter 0)
     = Ok (Some (object.Error "unknown operator: BOOLEAN + BOOLEAN" None ""
                   false))
         (Sample.counter 0).
Proof.
  assert (Hop : ~ In "+" ["&&"; "||"; "=="; "!="; "<"; "<="; ">"; ">="]).
  { cbn [In]. intros Hin.
    repeat (destruct Hin as [Hin | Hin]; [discriminate Hin |]).
    exact Hin. }
  split; [exact Hop |].
  split; [exact (proj1 (booleans_compare_as_text false true Sample.global
                          (Sample.counter 0))) |].
  split; [exact (proj1 (proj2 (booleans_compare_as_text true false
                                 Sample.global (Sample.counter 0)))) |].
  exact (proj2 (proj2 (proj2 (proj2
           (booleans_compare_as_text true true Sample.global
              (Sample.counter 0))))) "+" Hop).
Defined.

(** [1 + "a"] ends the program. *)
Lemma infix_error_witness :
  evalInfixExpression "+" (Some (object.Integer 1)) (Some (object.String "a"))
    Sample.global (Sample.counter 0)
  = Ok (NewError "type mismatch: INTEGER + STRING") (Sample.counter 0)
  /\ Eval 2
       (ast.InfixExpression (ast.IntegerLiteral 1) "+" (ast.StringLiteral "a"))
       Sample.global (Sample.counter 0)
     = Exit 1
         (setStdout ("Error: ERROR: type mismatch: INTEGER + STRING" +:+ newline)
            (Sample.counter 0)).
Proof.
  split; [reflexivity |].
  exact (infix_error_is_fatal 1 (ast.IntegerLiteral 1) "+"
           (ast.StringLiteral "a") Sample.global (Sample.counter 0)
           (Some (object.Integer 1)) (Sample.counter 0)
           (Some (object.String "a")) (Sample.counter 0)
           "type mismatch: INTEGER + STRING" None EmptyString false
           eq_refl eq_refl eq_refl eq_refl eq_refl).
Defined.

(** [{ { return 1; 2 } 3 } 4] is 1. *)
Lemma return_witness :
  Eval 2 (ast.ReturnStatement (ast.IntegerLiteral 1)) Sample.global
    (Sample.counter 0)
  = Ok (Some (object.ReturnValue (Some (object.Integer 1)))) (Sample.counter 0)
  /\ Eval 5
       (ast.Program
          [ast.BlockStatement
             [ast.BlockStatement
                [ast.ReturnStatement (ast.IntegerLiteral 1);
                 ast.IntegerLiteral 2];
              ast.IntegerLiteral 3];
           ast.IntegerLiteral 4])
       Sample.global (Sample.counter 0)
     = Ok (Some (object.Integer 1)) (Sample.counter 0).
Proof.
  split; [reflexivity |].
  exact (proj2 (return_leaves_nested_blocks 2
                  (ast.ReturnStatement (ast.IntegerLiteral 1))
                  [ast.IntegerLiteral 2] [ast.IntegerLiteral 3]
                  [ast.IntegerLiteral 4] Sample.global (Sample.counter 0)
                  (Some (object.Integer 1)) (Sample.counter 0) eq_refl)).
Defined.

(** [[1, error("x"), n++]] is the Error, not an Array. *)
Lemma array_literal_witness :
  Eval 3 (Sample.call "error" [ast.StringLiteral "x"]) Sample.global
    (Sample.counter 0)
  = Ok (Some (object.Error "x" None "" true)) (Sample.counter 0)
  /\ Eval 4
       (ast.ArrayLiteral
          [ast.IntegerLiteral 1; Sample.call "error" [ast.StringLiteral "x"];
           ast.PostfixExpression "n" "++"])
       Sample.global (Sample.counter 0)
     = Ok (Some (object.Error "x" None "" true)) (Sample.counter 0).
Proof.
  split; [vm_compute; reflexivity |].
  exact (array_literal_first_error 3 [ast.IntegerLiteral 1]
           (Sample.call "error" [ast.StringLiteral "x"])
           [ast.PostfixExpression "n" "++"] Sample.global (Sample.counter 0)
           [Some (object.Integer 1)] (Sample.counter 0)
           (Some (object.Error "x" None "" true)) (Sample.counter 0)
           eq_refl eq_refl eq_refl eq_refl).
Defined.

(** [print(error("x"))] prints the Error and is Null. *)
Lemma failing_argument_witness :
  ApplyFunction (Eval 3) Sample.global (Some (object.Builtin object.printFn))
    [Some (object.Error "x" None "" true)] (Sample.counter 0)
  = Ok NULL (setStdout ("ERROR: x " +:+ newline) (Sample.counter 0))
  /\ Eval 4
       (Sample.call "print" [Sample.call "error" [ast.StringLiteral "x"]])
       Sample.global (Sample.counter 0)
     = Ok NULL (setStdout ("ERROR: x " +:+ newline) (Sample.counter 0)).
Proof.
  split; [reflexivity |].
  exact (call_with_failing_argument 3 (ast.Identifier "print") []
           (Sample.call "error" [ast.StringLiteral "x"]) [] Sample.global
           (Sample.counter 0) (Some (object.Builtin object.printFn))
           (Sample.counter 0) [] (Sample.counter 0)
           (Some (object.Error "x" None "" true)) (Sample.counter 0)
           NULL (setStdout ("ERROR: x " +:+ newline) (Sample.counter 0))
           eq_refl eq_refl eq_refl eq_refl eq_refl eq_refl eq_refl eq_refl).
Defined.

(** [1()] ends the program. *)
Lemma non_function_witness :
  Eval 1 (ast.IntegerLiteral 1) Sample.global (Sample.counter 0)
  = Ok (Some (object.Integer 1)) (Sample.counter 0)
  /\ Eval 2 (ast.CallExpression (ast.IntegerLiteral 1) []) Sample.global
       (Sample.counter 0)
     = Exit 1
         (setStderr
            ("Error calling `expression` : ERROR: not a function: INTEGER"
             +:+ newline) (Sample.counter 0)).
Proof.
  split; [reflexivity |].
  refine (call_of_non_function 1 (ast.IntegerLiteral 1) [] Sample.global
            (Sample.counter 0) (object.Integer 1) (Sample.counter 0)
            [] (Sample.counter 0) [] (Sample.counter 0)
            eq_refl _ _ _ eq_refl eq_refl eq_refl); discriminate.
Defined.

(** [zz = 1] ends the program; [zz += 1] is an Error value. *)
Lemma unknown_name_witness :
  envGet (heap (Sample.counter 0)) Sample.global "zz" = None
  /\ Eval 2 (ast.AssignStatement "zz" "=" (ast.IntegerLiteral 1))
       Sample.global (Sample.counter 0)
     = Exit 1
         (setStdout ("Setting unknown variable 'zz' is an error!" +:+ newline)
            (Sample.counter 0)).
Proof.
  split; [vm_compute; reflexivity |].
  exact (proj1 (assignment_to_unknown_name 1 "zz" (ast.IntegerLiteral 1)
                  Sample.global (Sample.counter 0) (Some (object.Integer 1))
                  (Sample.counter 0) eq_refl eq_refl eq_refl eq_refl)).
Defined.

(** [[10, 20][-1]] is Null. *)
Lemma array_index_witness :
  evalArrayIndexExpression
    (object.Array [Some (object.Integer 10); Some (object.Integer 20)] false)
    (Some (object.Integer (-1))) Sample.global (Sample.counter 0)
  = Ok NULL (Sample.counter 0).
Proof.
  apply (proj2 (array_index_in_and_out_of_range
                  [Some (object.Integer 10); Some (object.Integer 20)] false
                  (-1) Sample.global (Sample.counter 0))).
  left. lia.
Defined.

(** [{"a": 1}[[]]] is an Error. *)
Lemma hash_index_witness :
  HashKeyOf (object.Array [] false) = None
  /\ evalHashIndexExpression
       (Some (object.Hash
                [(object.KeyString "a",
                  (Some (object.String "a"), Some (object.Integer 1)))]))
       (Some (object.Array [] false)) Sample.global (Sample.counter 0)
     = Ok (NewError "unusable as hash key: ARRAY") (Sample.counter 0).
Proof.
  split; [reflexivity |].
  exact (proj1 (proj2 (hash_index_cases
                         [(object.KeyString "a",
                           (Some (object.String "a"), Some (object.Integer 1)))]
                         (object.Array [] false) Sample.global
                         (Sample.counter 0)))
           eq_refl).
Defined.

(** The global [integer.n] is the method [n] of an Integer; with
    [integer.f] bound nowhere, its method [f] is the global [object.f],
    copied with [self] bound to the Integer. *)
Lemma method_resolution_witness :
  GetMethod (object.Integer 1) "n" = None
  /\ envGet (heap Sample.methods) Sample.global "integer.n"
     = Some (Some (object.Integer 7))
  /\ envGet (heap Sample.methods) Sample.global "integer.f" = None
  /\ envGet (heap Sample.methods) Sample.global "object.f"
     = Some (Some (object.Function [] [] Sample.selfBody Sample.global ""))
  /\ objectGetMethod (object.Integer 1) (Some (object.String "n"))
       Sample.global Sample.methods
     = Ok (Some (Some (object.Integer 7))) Sample.methods
  /\ objectGetMethod (object.Integer 1) (Some (object.String "f"))
       Sample.global Sample.methods
     = Ok (Some (Some (object.Function [] [] Sample.selfBody 1%nat "")))
         (setHeap
            (heap Sample.methods
             ++ [mkFrame {["self" := (Some (object.Integer 1), false)]}
                   (Some Sample.global) None []])
            Sample.methods).
Proof.
  assert (Hn : envGet (heap Sample.methods) Sample.global "integer.n"
               = Some (Some (object.Integer 7)))
    by (vm_compute; reflexivity).
  assert (Hf : envGet (heap Sample.methods) Sample.global "integer.f" = None)
    by (vm_compute; reflexivity).
  assert (Hof : envGet (heap Sample.methods) Sample.global "object.f"
                = Some (Some (object.Function [] [] Sample.selfBody
                                Sample.global "")))
    by (vm_compute; reflexivity).
  split; [reflexivity |]. split; [exact Hn |]. split; [exact Hf |].
  split; [exact Hof |].
  split.
  - refine (proj1 (proj1 (proj2 (method_resolution_order (object.Integer 1)
                                   "n" Sample.global Sample.methods))
                     eq_refl)
              (Some (object.Integer 7)) Hn _).
    discriminate.
  - exact (proj2 (proj2 (proj2 (proj2
             (proj1 (proj2 (method_resolution_order (object.Integer 1) "f"
                              Sample.global Sample.methods))
                eq_refl))))
             [] [] Sample.selfBody Sample.global "" Hf Hof).
Defined.

(** [panic(error({"message": "boom", "code": 3}))] exits with code 3. *)
Lemma panic_witness :
  panicFn
    [errorFn
       [Some (object.Hash
                [(object.KeyString "message",
                  (Some (object.String "message"),
                   Some (object.String "boom")));
                 (object.KeyString "code",
                  (Some (object.String "code"), Some (object.Integer 3)))])]]
    (Sample.counter 0)
  = Exit 3 (setStdout ("boom" +:+ newline) (Sample.counter 0)).
Proof.
  exact (proj1 (proj2 (panic_of_error_exit_code (Sample.counter 0)))
           [(object.KeyString "message",
             (Some (object.String "message"), Some (object.String "boom")));
            (object.KeyString "code",
             (Some (object.String "code"), Some (object.Integer 3)))]
           "boom" 3 eq_refl eq_refl).
Defined.

(** [print(1, "a")] writes [1 a ] and a newline. *)
Lemma print_witness :
  existsb escaped [object.Integer 1; object.String "a"] = false
  /\ printFn [Some (object.Integer 1); Some (object.String "a")]
       (Sample.counter 0)
     = Ok NULL (setStdout ("1 a " +:+ newline) (Sample.counter 0)).
Proof.
  split; [reflexivity |].
  exact (print_writes_inspections [object.Integer 1; object.String "a"]
           (Sample.counter 0) eq_refl).
Defined.

(** [print("a\b", 1)] writes [a], a backspace and a space, and does not
    write the [1]. *)
Lemma print_escaped_witness :
  escaped (object.String "a\b") = true
  /\ printFn [Some (object.String "a\b"); Some (object.Integer 1)]
       (Sample.counter 0)
     = Ok NULL
         (setStdout
            ("a" +:+ String.String (ascii_of_nat 8) " " +:+ newline)
            (Sample.counter 0)).
Proof.
  split; [reflexivity |].
  exact (print_stops_at_escaped_string [] "a\b" [Some (object.Integer 1)]
           (Sample.counter 0) eq_refl eq_refl).
Defined.

Lemma mathAbs_witness :
  int64_range (-5)
  /\ mathAbs [Some (object.Integer (-5))] (Sample.counter 0)
     = Ok (Some (object.Integer 5)) (Sample.counter 0).
Proof.
  assert (Hrange : int64_range (-5))
    by (unfold int64_range, MinInt64, MaxInt64; lia).
  split; [exact Hrange |].
  refine (proj1 (mathAbs_of_integer (Sample.counter 0)) (-5) Hrange _).
  discriminate.
Defined.

Lemma unclosed_literal_witness :
  lacks "}" "my {{variable" = true
  /\ Eval 1 (ast.StringLiteral "my {{variable") Sample.global (Sample.counter 0)
     = Ok (Some (object.String "my {{variable")) (Sample.counter 0).
Proof.
  split; [reflexivity |].
  exact (literal_without_closing_brace 0 "my {{variable" Sample.global
           (Sample.counter 0) eq_refl).
Defined.

Lemma escaped_fragment_witness :
  fragmentShape "x=" "n" "!" = true
  /\ Eval 1 (ast.StringLiteral "x=\{{n}}!") Sample.global (Sample.counter 7)
     = Ok (Some (object.String "x={{n}}!")) (Sample.counter 7).
Proof.
  split; [reflexivity |].
  exact (escaped_fragment_is_text 0 "x=" "n" "!" Sample.global
           (Sample.counter 7) eq_refl).
Defined.

Lemma FindModule_witness :
  searchPaths Sample.library = [] ++ "/lib" :: []
  /\ FindModule "m" Sample.library = Ok "/lib/m.keai" Sample.library.
Proof.
  split; [reflexivity |].
  refine (proj1 (FindModule_first_match "m" Sample.library) [] "/lib" []
            eq_refl (Forall_nil_2 _) _).
  exists (inl "let answer = 42; print(answer)"). vm_compute. reflexivity.
Defined.

(** [import "nope"] is an ImportError and caches nothing. *)
Lemma import_failure_witness :
  importCache Sample.library !! "nope" = None
  /\ FindModule "nope" Sample.library = Ok EmptyString Sample.library
  /\ Eval 2 (ast.ImportExpression (ast.StringLiteral "nope")) Sample.global
       Sample.library
     = Ok (NewError "ImportError: no module named 'nope'") Sample.library.
Proof.
  assert (Hmiss : importCache Sample.library !! "nope" = None)
    by (vm_compute; reflexivity).
  assert (Hfind : FindModule "nope" Sample.library
                  = Ok EmptyString Sample.library)
    by (vm_compute; reflexivity).
  split; [exact Hmiss | split; [exact Hfind |]].
  exact (proj1 (import_failure_is_a_value 1 (ast.StringLiteral "nope")
                  Sample.global Sample.library "nope" Sample.library
                  Hmiss eq_refl)
           Hfind).
Defined.

(** [for (true) {}] and [foreach x in [1] {}] panic. *)
Lemma loop_panic_witness :
  Eval 2 (ast.BlockStatement []) Sample.global (Sample.counter 0)
  = Ok None (Sample.counter 0)
  /\ Eval 3 (ast.ForLoopExpression (ast.Boolean true) (ast.BlockStatement []))
       Sample.global (Sample.counter 0)
     = GoPanic nilDeref (Sample.counter 0)
  /\ iterate (object.Array [Some (object.Integer 1)] false)
     = Some [(Some (object.Integer 1), Some (object.Integer 0))]
  /\ exists st',
      Eval 3
        (ast.ForeachStatement "x" ""
           (ast.ArrayLiteral [ast.IntegerLiteral 1]) (ast.BlockStatement []))
        Sample.global (Sample.counter 0)
      = GoPanic nilDeref st'.
Proof.
  split; [reflexivity |]. split.
  - exact (proj1 (loop_body_without_value_panics 2 (ast.BlockStatement [])
                    Sample.global (Sample.counter 0))
             (ast.Boolean true) TRUE (Sample.counter 0) (Sample.counter 0)
             eq_refl eq_refl eq_refl eq_refl).
  - split; [reflexivity |]. eexists.
    exact (proj2 (loop_body_without_value_panics 2 (ast.BlockStatement [])
                    Sample.global (Sample.counter 0))
             "x" (ast.ArrayLiteral [ast.IntegerLiteral 1])
             (object.Array [Some (object.Integer 1)] false) (Sample.counter 0)
             (Some (object.Integer 1)) (Some (object.Integer 0)) [] _
             eq_refl eq_refl eq_refl).
Defined.

(** [for (n < 1) { n++; error("boom") }] from [n = 0]: the body of the
    one round is an Error, the loop goes on and is [true], with [n] at
    1.  And [for (true) { return 5 }] is the ReturnValue of 5. *)
Lemma for_loop_value_witness :
  (1 < 6)%nat
  /\ forRounds 6
       (ast.InfixExpression (ast.Identifier "n") "<" (ast.IntegerLiteral 1))
       Sample.failingBody Sample.global 1 (Sample.counter 0)
       (Sample.counter 1)
  /\ Eval 6
       (ast.InfixExpression (ast.Identifier "n") "<" (ast.IntegerLiteral 1))
       Sample.global (Sample.counter 1)
     = Ok (Some (object.Boolean false)) (Sample.counter 1)
  /\ Eval 7
       (ast.ForLoopExpression
          (ast.InfixExpression (ast.Identifier "n") "<" (ast.IntegerLiteral 1))
          Sample.failingBody)
       Sample.global (Sample.counter 0)
     = Ok (Some (object.Boolean true)) (Sample.counter 1)
  /\ Eval 7
       (ast.ForLoopExpression (ast.Boolean true)
          (ast.BlockStatement [ast.ReturnStatement (ast.IntegerLiteral 5)]))
       Sample.global (Sample.counter 0)
     = Ok (Some (object.ReturnValue (Some (object.Integer 5))))
         (Sample.counter 0).
Proof.
  assert (Hround : forRounds 6
            (ast.InfixExpression (ast.Identifier "n") "<"
               (ast.IntegerLiteral 1))
            Sample.failingBody Sample.global 1 (Sample.counter 0)
            (Sample.counter 1)).
  { refine (forRounds_more 6 _ _ _ 0 (Sample.counter 0)
              (Some (object.Boolean true)) (Sample.counter 0)
              (object.Error "boom" None "" true) (Sample.counter 1)
              (Sample.counter 1) _ _ _ _ _ _ (forRounds_none _ _ _ _ _)).
    - vm_compute. reflexivity.
    - discriminate.
    - discriminate.
    - discriminate.
    - vm_compute. reflexivity.
    - discriminate. }
  assert (Hlast : Eval 6
            (ast.InfixExpression (ast.Identifier "n") "<"
               (ast.IntegerLiteral 1))
            Sample.global (Sample.counter 1)
          = Ok (Some (object.Boolean false)) (Sample.counter 1))
    by (vm_compute; reflexivity).
  split; [lia |]. split; [exact Hround |]. split; [exact Hlast |].
  split.
  - exact (proj1 (proj2 (proj1 (for_loop_value 6 _ Sample.failingBody
                                  Sample.global (Sample.counter 0))
                           1%nat (Sample.counter 1)
                           (Some (object.Boolean false)) (Sample.counter 1)
                           ltac:(lia) Hround Hlast))
             (or_introl eq_refl)).
  - refine (proj2 (proj2 (proj1 (for_loop_value 6 (ast.Boolean true)
                                   (ast.BlockStatement
                                      [ast.ReturnStatement
                                         (ast.IntegerLiteral 5)])
                                   Sample.global (Sample.counter 0))
                            0%nat (Sample.counter 0)
                            (Some (object.Boolean true)) (Sample.counter 0)
                            ltac:(lia) (forRounds_none _ _ _ _ _) eq_refl))
              _ _ _ (Some (object.Integer 5)) (Sample.counter 0) eq_refl);
      discriminate.
Defined.

(** [1 << -1] is 0 and [-8 >> 64] is -1. *)
Lemma shift_witness :
  evalInfixExpression "<<" (Some (object.Integer 1))
    (Some (object.Integer (-1))) Sample.global (Sample.counter 0)
  = Ok (Some (object.Integer 0)) (Sample.counter 0)
  /\ evalInfixExpression ">>" (Some (object.Integer (-8)))
       (Some (object.Integer 64)) Sample.global (Sample.counter 0)
     = Ok (Some (object.Integer (-1))) (Sample.counter 0).
Proof.
  assert (Hrange : forall z, -100 <= z <= 100 -> int64_range z)
    by (unfold int64_range, MinInt64, MaxInt64; lia).
  split.
  - refine (proj1 (shift_count_out_of_range 1 (-1) Sample.global
                     (Sample.counter 0) _ _ _)); [apply Hrange | apply Hrange |];
      lia.
  - refine (proj2 (shift_count_out_of_range (-8) 64 Sample.global
                     (Sample.counter 0) _ _ _)); [apply Hrange | apply Hrange |];
      lia.
Defined.

Lemma trimQuotes_witness :
  trimQuotes "'" "'" = "'"
  /\ trimQuotes "'ab'" "'" = "ab".
Proof.
  split.
  - refine (proj1 (proj2 (trimQuotes_balanced_pair "'")) "'" _). cbn. lia.
  - exact (proj1 (trimQuotes_balanced_pair "'") "ab").
Defined.

Lemma NewHash_witness :
  ({["a" := Some (object.Integer 1)]} : gmap string OBJ) !! "a"
  = Some (Some (object.Integer 1))
  /\ evalHashIndexExpression
       (Some (NewHash {["a" := Some (object.Integer 1)]}))
       (Some (object.String "a")) Sample.global (Sample.counter 0)
     = Ok (Some (object.Integer 1)) (Sample.counter 0).
Proof.
  assert (Ha : ({["a" := Some (object.Integer 1)]} : gmap string OBJ) !! "a"
               = Some (Some (object.Integer 1)))
    by (vm_compute; reflexivity).
  split; [exact Ha |].
  destruct (NewHash_holds_the_map {["a" := Some (object.Integer 1)]})
    as (pairs & _ & _ & _ & Hindex).
  exact (Hindex "a" (Some (object.Integer 1)) Sample.global (Sample.counter 0)
           Ha).
Defined.

Lemma sample_toInt_range (f : float) : int64_range (Sample.toInt f).
Proof.
  unfold Sample.toInt.
  match goal with
  | |- int64_range (match ?x with _ => _ end) => destruct x
  end; cbv zeta;
    try match goal with
        | |- int64_range (if ?c then _ else _) => destruct c eqn:Hc
        end;
    unfold int64_range, MinInt64, MaxInt64 in *; lia.
Qed.

(** [MaxInt64 + 1] is [MinInt64]. *)
Lemma integer_range_witness :
  int64_range MaxInt64
  /\ int64_range 1
  /\ evalInfixExpression "+" (Some (object.Integer MaxInt64))
       (Some (object.Integer 1)) Sample.global (Sample.counter 0)
     = Ok (Some (object.Integer MinInt64)) (Sample.counter 0)
  /\ int64_range MinInt64.
Proof.
  assert (Hmax : int64_range MaxInt64)
    by (unfold int64_range, MinInt64, MaxInt64; lia).
  assert (Hone : int64_range 1)
    by (unfold int64_range, MinInt64, MaxInt64; lia).
  assert (Hsum : evalInfixExpression "+" (Some (object.Integer MaxInt64))
                   (Some (object.Integer 1)) Sample.global (Sample.counter 0)
                 = Ok (Some (object.Integer MinInt64)) (Sample.counter 0))
    by reflexivity.
  repeat (split; [assumption |]).
  exact (integer_results_in_range "+" MaxInt64 1 Sample.global
           (Sample.counter 0) MinInt64 (Sample.counter 0)
           sample_toInt_range Hmax Hone Hsum).
Defined.

(** [fn(p, q) { return p }] called with 5 alone is 5, with [q] unbound;
    [fn(p) { p }] called with 5 and 6 is 5 as well. *)
Lemma call_witness :
  Eval 4 (ast.BlockStatement [ast.ReturnStatement (ast.Identifier "p")])
    1%nat
    (setHeap
       (heap (Sample.counter 0)
        ++ [mkFrame {["p" := (Some (object.Integer 5), false)]}
              (Some Sample.global) None [Some (object.Integer 5)]])
       (Sample.counter 0))
  = Ok (Some (object.ReturnValue (Some (object.Integer 5))))
      (setHeap
         (heap (Sample.counter 0)
          ++ [mkFrame {["p" := (Some (object.Integer 5), false)]}
                (Some Sample.global) None [Some (object.Integer 5)]])
         (Sample.counter 0))
  /\ ApplyFunction (Eval 4) Sample.global
       (Some (object.Function ["p"; "q"] []
                (ast.BlockStatement [ast.ReturnStatement (ast.Identifier "p")])
                Sample.global ""))
       [Some (object.Integer 5)] (Sample.counter 0)
     = Ok (Some (object.Integer 5))
         (setHeap
            (heap (Sample.counter 0)
             ++ [mkFrame {["p" := (Some (object.Integer 5), false)]}
                   (Some Sample.global) None [Some (object.Integer 5)]])
            (Sample.counter 0))
  /\ ApplyFunction (Eval 4) Sample.global
       (Some (object.Function ["p"] []
                (Sample.block [ast.Identifier "p"]) Sample.global ""))
       [Some (object.Integer 5); Some (object.Integer 6)] (Sample.counter 0)
     = Ok (Some (object.Integer 5))
         (setHeap
            (heap (Sample.counter 0)
             ++ [mkFrame {["p" := (Some (object.Integer 5), false)]}
                   (Some Sample.global) None
                   [Some (object.Integer 5); Some (object.Integer 6)]])
            (Sample.counter 0)).
Proof.
  assert (Hbody :
    Eval 4 (ast.BlockStatement [ast.ReturnStatement (ast.Identifier "p")])
      1%nat
      (setHeap
         (heap (Sample.counter 0)
          ++ [mkFrame {["p" := (Some (object.Integer 5), false)]}
                (Some Sample.global) None [Some (object.Integer 5)]])
         (Sample.counter 0))
    = Ok (Some (object.ReturnValue (Some (object.Integer 5))))
        (setHeap
           (heap (Sample.counter 0)
            ++ [mkFrame {["p" := (Some (object.Integer 5), false)]}
                  (Some Sample.global) None [Some (object.Integer 5)]])
           (Sample.counter 0)))
    by (vm_compute; reflexivity).
  split; [exact Hbody |]. split.
  - exact (proj1 (call_binds_parameters 4 ["p"; "q"]
                    (ast.BlockStatement
                       [ast.ReturnStatement (ast.Identifier "p")])
                    Sample.global "" [Some (object.Integer 5)] Sample.global
                    (Sample.counter 0))
             (Some (object.Integer 5)) _ Hbody).
  - refine (proj1 (proj2 (call_binds_parameters 4 ["p"]
                            (Sample.block [ast.Identifier "p"])
                            Sample.global ""
                            [Some (object.Integer 5); Some (object.Integer 6)]
                            Sample.global (Sample.counter 0)))
              (Some (object.Integer 5)) _ _ _).
    + vm_compute. reflexivity.
    + discriminate.
Defined.
